(** * panflute/elements.py: the element classes and the tagged-JSON codec

    A shallow embedding of [src/panflute/elements.py].  Python values are
    the inhabitants of [value]; a call that may raise returns a [result].
    Every definition of the first part carries the name of the Python
    function or method it embeds, and follows its statements in order, so
    that the exception that escapes is the one Python raises first.

    What the embedding leaves out: the identity of objects (two values
    are the same when they are built alike), the text of [repr] (an
    assertion message keeps the offending value itself), the output of
    [print], floats that are not finite, the mappings other than
    [OrderedDict], and text outside ASCII: a [str] is a [string] of
    one-byte characters, where Python counts, indexes and iterates code
    points and [int] also reads the decimal digits and the blanks of
    other scripts, so [chars], [len], [getitem] and [int_of_str] are
    those of Python on ASCII text only. *)

From Stdlib Require Import List String Ascii ZArith Bool Lia.
Import ListNotations.
Local Open Scope string_scope.
Local Open Scope Z_scope.

(** ** Classes

    The class objects of the module.  A class object is a Python value (it
    is callable, and [type(self)] is handed to [init_items]). *)

Module Class.
Inductive t :=
| Doc
| Null | Space | HorizontalRule | SoftBreak | LineBreak
| Plain | Para | BlockQuote | Emph | Strong | Strikeout
| Superscript | Subscript | SmallCaps | Note
| Header | Div | Span | Quoted | Cite | Citation | Link | Image
| Str | CodeBlock | RawBlock | Code | Math | RawInline
| BulletList | OrderedList | DefinitionList | Table
| MetaInlines | MetaBlocks.

(** [cls.__name__] *)
Definition name (c : t) : string :=
  match c with
  | Doc => "Doc"
  | Null => "Null" | Space => "Space" | HorizontalRule => "HorizontalRule"
  | SoftBreak => "SoftBreak" | LineBreak => "LineBreak"
  | Plain => "Plain" | Para => "Para" | BlockQuote => "BlockQuote"
  | Emph => "Emph" | Strong => "Strong" | Strikeout => "Strikeout"
  | Superscript => "Superscript" | Subscript => "Subscript"
  | SmallCaps => "SmallCaps" | Note => "Note"
  | Header => "Header" | Div => "Div" | Span => "Span"
  | Quoted => "Quoted" | Cite => "Cite" | Citation => "Citation"
  | Link => "Link" | Image => "Image"
  | Str => "Str" | CodeBlock => "CodeBlock" | RawBlock => "RawBlock"
  | Code => "Code" | Math => "Math" | RawInline => "RawInline"
  | BulletList => "BulletList" | OrderedList => "OrderedList"
  | DefinitionList => "DefinitionList" | Table => "Table"
  | MetaInlines => "MetaInlines" | MetaBlocks => "MetaBlocks"
  end.

(** The base class written after the class name: [class Para(Block)]. *)
Inductive base := Block | Inline | Element | object.

Definition base_of (c : t) : base :=
  match c with
  | Doc => object
  | Null | HorizontalRule | Plain | Para | BlockQuote | Header | Div
  | CodeBlock | RawBlock | BulletList | OrderedList | DefinitionList
  | Table => Block
  | Space | SoftBreak | LineBreak | Emph | Strong | Strikeout
  | Superscript | Subscript | SmallCaps | Note | Span | Quoted | Cite
  | Link | Image | Str | Code | Math | RawInline => Inline
  | Citation | MetaInlines | MetaBlocks => Element
  end.
End Class.

(** ** Python values

    Builtin data first, then one constructor per class, holding the slots
    of an instance.  A float is the dyadic number [m * 2^e] (the wire
    format only ever carries finite numbers).  [VDict] is
    [collections.OrderedDict], the only mapping the module builds: its
    entries are kept in insertion order.  [VThunk r] is a zero-argument
    function returning [r]. *)

Scheme All for list.
Scheme All for prod.

Inductive value :=
| VNone
| VBool (b : bool)
| VInt (n : Z)
| VFloat (m e : Z)
| VStr (s : string)
| VList (xs : list value)
| VTuple (xs : list value)
| VDict (kvs : list (value * value))
| VClass (c : Class.t)
| VThunk (r : value)
| Doc (metadata : list (value * value)) (items format : value)
| Null
| Space
| HorizontalRule
| SoftBreak
| LineBreak
| Plain (items : list value)
| Para (items : list value)
| BlockQuote (items : list value)
| Emph (items : list value)
| Strong (items : list value)
| Strikeout (items : list value)
| Superscript (items : list value)
| Subscript (items : list value)
| SmallCaps (items : list value)
| Note (items : list value)
| Header (level : value) (items : list value)
         (identifier classes attributes : value)
| Div (items : list value) (identifier classes attributes : value)
| Span (items : list value) (identifier classes attributes : value)
| Quoted (quote_type : value) (items : list value)
| Cite (items : list value) (citations : list value)
| Citation (citationHash citationId citationMode citationNoteNum : value)
           (citationPrefix citationSuffix : list value)
| Link (items : list value) (url title identifier classes attributes : value)
| Image (items : list value) (url title identifier classes attributes : value)
| Str (text : value)
| CodeBlock (text identifier classes attributes : value)
| RawBlock (text format : value)
| Code (text identifier classes attributes : value)
| Math (format text : value)
| RawInline (text format : value)
| BulletList (items : list value)
| OrderedList (items : list value) (start style delimiter : value)
| DefinitionList (items : list value)
| Table (items header caption : list value) (alignment width : value)
        (rows cols : Z)
| MetaInlines (items : list value)
| MetaBlocks (items : list value).

(** [type(x)] for an instance of one of the module's classes. *)
Definition class_of (x : value) : option Class.t :=
  match x with
  | Doc _ _ _ => Some Class.Doc
  | Null => Some Class.Null | Space => Some Class.Space
  | HorizontalRule => Some Class.HorizontalRule
  | SoftBreak => Some Class.SoftBreak | LineBreak => Some Class.LineBreak
  | Plain _ => Some Class.Plain | Para _ => Some Class.Para
  | BlockQuote _ => Some Class.BlockQuote | Emph _ => Some Class.Emph
  | Strong _ => Some Class.Strong | Strikeout _ => Some Class.Strikeout
  | Superscript _ => Some Class.Superscript
  | Subscript _ => Some Class.Subscript
  | SmallCaps _ => Some Class.SmallCaps | Note _ => Some Class.Note
  | Header _ _ _ _ _ => Some Class.Header | Div _ _ _ _ => Some Class.Div
  | Span _ _ _ _ => Some Class.Span | Quoted _ _ => Some Class.Quoted
  | Cite _ _ => Some Class.Cite | Citation _ _ _ _ _ _ => Some Class.Citation
  | Link _ _ _ _ _ _ => Some Class.Link | Image _ _ _ _ _ _ => Some Class.Image
  | Str _ => Some Class.Str | CodeBlock _ _ _ _ => Some Class.CodeBlock
  | RawBlock _ _ => Some Class.RawBlock | Code _ _ _ _ => Some Class.Code
  | Math _ _ => Some Class.Math | RawInline _ _ => Some Class.RawInline
  | BulletList _ => Some Class.BulletList
  | OrderedList _ _ _ _ => Some Class.OrderedList
  | DefinitionList _ => Some Class.DefinitionList
  | Table _ _ _ _ _ _ _ => Some Class.Table
  | MetaInlines _ => Some Class.MetaInlines
  | MetaBlocks _ => Some Class.MetaBlocks
  | _ => None
  end.

(** [type(x).__name__] *)
Definition type_name (x : value) : string :=
  match x with
  | VNone => "NoneType" | VBool _ => "bool" | VInt _ => "int"
  | VFloat _ _ => "float" | VStr _ => "str" | VList _ => "list"
  | VTuple _ => "tuple" | VDict _ => "OrderedDict" | VClass _ => "type"
  | VThunk _ => "function"
  | _ => match class_of x with Some c => Class.name c | None => "object" end
  end.

(** [isinstance(x, Block)] and [isinstance(x, Inline)] *)
Definition isinstance_base (x : value) (b : Class.base) : bool :=
  match class_of x, b with
  | Some c, Class.Block =>
      match Class.base_of c with Class.Block => true | _ => false end
  | Some c, Class.Inline =>
      match Class.base_of c with Class.Inline => true | _ => false end
  | Some c, Class.Element =>
      match Class.base_of c with Class.object => false | _ => true end
  | Some _, Class.object => true
  | None, Class.object => true
  | None, _ => false
  end.

(** [isinstance(x, str)] *)
Definition is_str (x : value) : bool :=
  match x with VStr _ => true | _ => false end.

(** [isinstance(x, dict)] *)
Definition is_dict (x : value) : bool :=
  match x with VDict _ => true | _ => false end.

(** ** Exceptions *)

(** The second operand of an [assert]. [message_item] is the text built by
    [validate_item.error_message]: the format string filled with the three
    names; the rendering [repr(x)] of the offending child is kept as the
    child itself. *)
Inductive assert_msg :=
| no_message
| message_value (v : value)
| message_type (name : string)
| message_item (root_name expected child_name : string) (x : value).

Inductive exn :=
| AssertionError (m : assert_msg)
| TypeError (why : string)
| IndexError (why : string)
| KeyError (key : value)
| ValueError (why : string)
| AttributeError (why : string)
| Exception (msg : string).

Inductive result (A : Type) :=
| OK (a : A)
| Raise (e : exn).
Arguments OK {A} a.
Arguments Raise {A} e.

Definition bind {A B} (r : result A) (k : A -> result B) : result B :=
  match r with OK a => k a | Raise e => Raise e end.

Declare Scope py_scope.
Delimit Scope py_scope with py.
Notation "x <- r ;; k" := (bind r (fun x => k))
  (at level 61, r at next level, right associativity) : py_scope.
Notation "r ;;; k" := (bind r (fun _ => k))
  (at level 61, right associativity) : py_scope.
Local Open Scope py_scope.

(** [assert cond, msg] *)
Definition assert (cond : bool) (msg : assert_msg) : result unit :=
  if cond then OK tt else Raise (AssertionError msg).

(** A list comprehension whose body may raise: elements are evaluated left
    to right and the first exception escapes. *)
Fixpoint mapM {A B} (f : A -> result B) (l : list A) : result (list B) :=
  match l with
  | [] => OK []
  | x :: t => y <- f x ;; ys <- mapM f t ;; OK (y :: ys)
  end.

Definition raised {A} (r : result A) : Prop := exists e, r = Raise e.

(** ** Builtin operations on values *)

(** Truth value of an object, as tested by [x if x else y]. *)
Definition truthy (x : value) : bool :=
  match x with
  | VNone => false
  | VBool b => b
  | VInt n => negb (n =? 0)
  | VFloat m _ => negb (m =? 0)
  | VStr s => negb (s =? "")%string
  | VList xs | VTuple xs => match xs with [] => false | _ => true end
  | VDict kvs => match kvs with [] => false | _ => true end
  | _ => true
  end.

(** The characters of a string, each a string of length one. *)
Fixpoint chars (s : string) : list value :=
  match s with
  | EmptyString => []
  | String c t => VStr (String c EmptyString) :: chars t
  end.

Definition not_iterable {A} (x : value) : result A :=
  Raise (TypeError ("'" ++ type_name x ++ "' object is not iterable")).

(** [iter(x)] run to exhaustion: what [for y in x] and the unpacking of
    [x] at a call go through. *)
Definition iter (x : value) : result (list value) :=
  match x with
  | VList xs | VTuple xs => OK xs
  | VStr s => OK (chars s)
  | VDict kvs => OK (map fst kvs)
  | _ => not_iterable x
  end.

(** [len(x)] *)
Definition len (x : value) : result Z :=
  match x with
  | VList xs | VTuple xs => OK (Z.of_nat (List.length xs))
  | VStr s => OK (Z.of_nat (String.length s))
  | VDict kvs => OK (Z.of_nat (List.length kvs))
  | _ => Raise (TypeError ("object of type '" ++ type_name x ++ "' has no len()"))
  end.

(** [callable(x)] *)
Definition callable (x : value) : bool :=
  match x with VClass _ | VThunk _ => true | _ => false end.

(** *** Numbers

    [bool] is a subclass of [int]; ints and floats compare by value.  A
    number is viewed as the dyadic [m * 2^e]. *)

Definition number (x : value) : option (Z * Z) :=
  match x with
  | VBool b => Some (if b then 1 else 0, 0)
  | VInt n => Some (n, 0)
  | VFloat m e => Some (m, e)
  | _ => None
  end.

Definition dyadic_compare (a b : Z * Z) : comparison :=
  let '(m1, e1) := a in
  let '(m2, e2) := b in
  let e := Z.min e1 e2 in
  (m1 * 2 ^ (e1 - e)) ?= (m2 * 2 ^ (e2 - e)).

Definition dyadic_eqb (a b : Z * Z) : bool :=
  match dyadic_compare a b with Eq => true | _ => false end.

Definition dyadic_leb (a b : Z * Z) : bool :=
  match dyadic_compare a b with Gt => false | _ => true end.

(** [x == n] for an int literal [n] *)
Definition eq_int (x : value) (n : Z) : bool :=
  match number x with
  | Some q => dyadic_eqb q (n, 0)
  | None => false
  end.

(** [x == s] for a string literal [s] *)
Definition eq_str (x : value) (s : string) : bool :=
  match x with VStr s' => (s' =? s)%string | _ => false end.

(** *** Hashing and dictionary keys

    Lists and dictionaries are unhashable; a tuple is hashable when its
    components are.  Instances hash by identity. *)

Fixpoint hashable (x : value) : bool :=
  match x with
  | VList _ | VDict _ => false
  | VTuple xs => forallb hashable xs
  | _ => true
  end.

Definition unhashable {A} (x : value) : result A :=
  Raise (TypeError ("unhashable type: '" ++ type_name x ++ "'")).

(** Equality of two dictionary keys: strings by content, numbers by value,
    tuples componentwise.  Two instances met as keys are two objects, and
    objects compare by identity. *)
Fixpoint key_eqb (x y : value) {struct x} : bool :=
  match x, y with
  | VNone, VNone => true
  | VStr s, VStr s' => (s =? s')%string
  | VTuple xs, VTuple ys =>
      (fix all2 (l : list value) (l' : list value) {struct l} : bool :=
         match l, l' with
         | [], [] => true
         | a :: t, b :: t' => key_eqb a b && all2 t t'
         | _, _ => false
         end) xs ys
  | VClass c, VClass c' => (Class.name c =? Class.name c')%string
  | _, _ =>
      match number x, number y with
      | Some p, Some q => dyadic_eqb p q
      | _, _ => false
      end
  end.

(** [x in names] for a set [names] of string literals: the probe is hashed first. *)
Definition in_set (x : value) (names : list string) : result bool :=
  if hashable x then OK (existsb (eq_str x) names) else unhashable x.

(** [x in T] for a tuple [T] of int literals: plain comparisons. *)
Definition in_tuple (x : value) (T : list Z) : bool :=
  existsb (eq_int x) T.

(** [d[k] = v] *)
Fixpoint dict_set (d : list (value * value)) (k v : value)
  : list (value * value) :=
  match d with
  | [] => [(k, v)]
  | (k', v') :: t =>
      if key_eqb k' k then (k', v) :: t else (k', v') :: dict_set t k v
  end.

(** [d.get(k)] *)
Fixpoint dict_get (d : list (value * value)) (k : value) : option value :=
  match d with
  | [] => None
  | (k', v') :: t => if key_eqb k' k then Some v' else dict_get t k
  end.

(** [x[i]] for a literal index [i >= 0]. *)
Definition getitem (x : value) (i : nat) : result value :=
  match x with
  | VList xs =>
      match nth_error xs i with
      | Some y => OK y
      | None => Raise (IndexError "list index out of range")
      end
  | VTuple xs =>
      match nth_error xs i with
      | Some y => OK y
      | None => Raise (IndexError "tuple index out of range")
      end
  | VStr s =>
      match nth_error (chars s) i with
      | Some y => OK y
      | None => Raise (IndexError "string index out of range")
      end
  | VDict kvs =>
      match dict_get kvs (VInt (Z.of_nat i)) with
      | Some y => OK y
      | None => Raise (KeyError (VInt (Z.of_nat i)))
      end
  | _ => Raise (TypeError ("'" ++ type_name x ++ "' object is not subscriptable"))
  end.

(** [OrderedDict(c)] and [dict(c)]: a mapping is copied; any other
    argument is iterated, each element unpacked as a [key, value] pair. *)
Definition dict_update (d : list (value * value)) (pair : value)
  : result (list (value * value)) :=
  match pair with
  | VList _ | VTuple _ | VStr _ | VDict _ =>
      kv <- iter pair ;;
      match kv with
      | [k; v] => if hashable k then OK (dict_set d k v) else unhashable k
      | _ => Raise (ValueError "dictionary update sequence element has the wrong length")
      end
  | _ => Raise (TypeError "cannot convert dictionary update sequence element to a sequence")
  end.

Fixpoint dict_updates (d : list (value * value)) (pairs : list value)
  : result (list (value * value)) :=
  match pairs with
  | [] => OK d
  | p :: t => d' <- dict_update d p ;; dict_updates d' t
  end.

Definition OrderedDict (c : value) : result (list (value * value)) :=
  match c with
  | VDict kvs => OK kvs
  | _ => pairs <- iter c ;; dict_updates [] pairs
  end.

(** [d.items()] as a list of 2-tuples *)
Definition items_of (d : list (value * value)) : list value :=
  map (fun kv => VTuple [fst kv; snd kv]) d.

(** [s.split('.')] *)
Fixpoint split_dot (s : string) : list string :=
  match s with
  | EmptyString => [EmptyString]
  | String c t =>
      if Ascii.eqb c "."%char then EmptyString :: split_dot t
      else match split_dot t with
           | [] => [String c EmptyString]
           | w :: ws => String c w :: ws
           end
  end.

(** [int(x)].  A string is parsed as surrounding blanks, an optional sign
    and decimal digits, single underscores allowed between digits. *)
Definition is_blank (c : ascii) : bool :=
  let n := nat_of_ascii c in
  (Nat.eqb n 32 || (Nat.leb 9 n && Nat.leb n 13))%bool.

Definition digit_of (c : ascii) : option Z :=
  let n := nat_of_ascii c in
  if (Nat.leb 48 n && Nat.leb n 57)%bool then Some (Z.of_nat n - 48) else None.

Fixpoint drop_blanks (l : list ascii) : list ascii :=
  match l with
  | c :: t => if is_blank c then drop_blanks t else l
  | [] => []
  end.

(** [digits acc after_digit l]: the rest of a digit string; [after_digit]
    tells whether the previous character was a digit. *)
Fixpoint digits (acc : Z) (after_digit : bool) (l : list ascii) : option Z :=
  match l with
  | [] => if after_digit then Some acc else None
  | c :: t =>
      match digit_of c with
      | Some d => digits (10 * acc + d) true t
      | None =>
          if (Ascii.eqb c "_"%char && after_digit)%bool
          then digits acc false t else None
      end
  end.

Definition int_of_str (s : string) : option Z :=
  let body := rev (drop_blanks (rev (drop_blanks (list_ascii_of_string s)))) in
  match body with
  | c :: t =>
      if Ascii.eqb c "-"%char then option_map Z.opp (digits 0 false t)
      else if Ascii.eqb c "+"%char then digits 0 false t
      else digits 0 false body
  | [] => None
  end.

Definition py_int (x : value) : result Z :=
  match x with
  | VBool b => OK (if b then 1 else 0)
  | VInt n => OK n
  | VFloat m e => OK (if 0 <=? e then m * 2 ^ e else Z.quot m (2 ^ (- e)))
  | VStr s =>
      match int_of_str s with
      | Some n => OK n
      | None => Raise (ValueError "invalid literal for int() with base 10")
      end
  | _ => Raise (TypeError "int() argument must be a string or a real number")
  end.

(** [n <= x] for an int literal [n]: only numbers are ordered against it. *)
Definition le_int (n : Z) (x : value) : result bool :=
  match number x with
  | Some q => OK (dyadic_leb (n, 0) q)
  | None =>
      Raise (TypeError ("'<=' not supported between instances of 'int' and '"
                          ++ type_name x ++ "'"))
  end.

(** [x >= n] for an int literal [n] *)
Definition ge_int (x : value) (n : Z) : result bool :=
  match number x with
  | Some q => OK (dyadic_leb (n, 0) q)
  | None =>
      Raise (TypeError ("'>=' not supported between instances of '"
                          ++ type_name x ++ "' and 'int'"))
  end.

(** [all(p(item) for item in l)]: stops at the first false. *)
Fixpoint allM {A} (p : A -> result bool) (l : list A) : result bool :=
  match l with
  | [] => OK true
  | x :: t => b <- p x ;; if b then allM p t else OK false
  end.

(** ** Constants *)

Definition LIST_NUMBER_STYLES : list string :=
  ["DefaultStyle"; "Example"; "Decimal"; "LowerRoman";
   "UpperRoman"; "LowerAlpha"; "UpperAlpha"].

Definition LIST_NUMBER_DELIMITERS : list string :=
  ["DefaultDelim"; "Period"; "OneParen"; "TwoParens"].

Definition TABLE_ALIGNMENT : list string :=
  ["AlignLeft"; "AlignRight"; "AlignCenter"; "AlignDefault"].

Definition QUOTE_TYPES : list string := ["SingleQuote"; "DoubleQuote"].

Definition CITATION_MODE : list string :=
  ["AuthorInText"; "SuppressAuthor"; "NormalCitation"].

Definition MATH_FORMATS : list string := ["DisplayMath"; "InlineMath"].

Definition RAW_FORMATS : list string := ["html"; "tex"; "latex"].

Definition SPECIAL_ELEMENTS : list string :=
  (LIST_NUMBER_STYLES ++ LIST_NUMBER_DELIMITERS ++ MATH_FORMATS
     ++ TABLE_ALIGNMENT ++ QUOTE_TYPES ++ CITATION_MODE)%list.

(** ** Aux Functions - Initialize *)

(** The [group] argument of [validate]: the tuple [(1, 2, 3, 4, 5, 6)] or
    one of the constant sets. *)
Inductive group :=
| tuple_of (T : list Z)
| set_of (names : list string).

Definition contains (g : group) (x : value) : result bool :=
  match g with
  | tuple_of T => OK (in_tuple x T)
  | set_of names => in_set x names
  end.

Definition validate (x : value) (group : option group)
           (instance : option (value -> bool)) : result value :=
  match group with
  | Some g =>
      b <- contains g x ;;
      assert b (message_value x) ;;;
      OK x
  | None =>
      match instance with
      | Some isinstance_of =>
          assert (isinstance_of x) (message_value x) ;;;
          OK x
      | None => Raise (TypeError "isinstance() arg 2 must be a type")
      end
  end.

(** [cls()]: a class called with no argument at all.  Every [*args] is
    empty and every keyword takes its default; [construct_default_spec]
    below checks each line against the class's [__init__]. *)
Definition construct_default (c : Class.t) : result value :=
  match c with
  | Class.Null => OK Null
  | Class.Space => OK Space
  | Class.HorizontalRule => OK HorizontalRule
  | Class.SoftBreak => OK SoftBreak
  | Class.LineBreak => OK LineBreak
  | Class.Plain => OK (Plain [])
  | Class.Para => OK (Para [])
  | Class.BlockQuote => OK (BlockQuote [])
  | Class.Emph => OK (Emph [])
  | Class.Strong => OK (Strong [])
  | Class.Strikeout => OK (Strikeout [])
  | Class.Superscript => OK (Superscript [])
  | Class.Subscript => OK (Subscript [])
  | Class.SmallCaps => OK (SmallCaps [])
  | Class.Note => OK (Note [])
  | Class.Header => OK (Header (VInt 1) [] (VStr "") (VList []) (VDict []))
  | Class.Div => OK (Div [] (VStr "") (VList []) (VDict []))
  | Class.Span => OK (Span [] (VStr "") (VList []) (VDict []))
  | Class.Quoted => OK (Quoted (VStr "DoubleQuote") [])
  | Class.BulletList => OK (BulletList [])
  | Class.OrderedList =>
      OK (OrderedList [] (VInt 1) (VStr "Decimal") (VStr "Period"))
  | Class.DefinitionList => OK (DefinitionList [])
  | Class.MetaInlines => OK (MetaInlines [])
  | Class.MetaBlocks => OK (MetaBlocks [])
  | Class.Table => Raise (IndexError "list index out of range")
  | Class.Cite | Class.Link | Class.Image =>
      Raise (TypeError "__init__() missing required keyword-only arguments")
  | Class.Doc | Class.Citation | Class.Str | Class.CodeBlock
  | Class.RawBlock | Class.Code | Class.Math | Class.RawInline =>
      Raise (TypeError "__init__() missing required positional arguments")
  end.

(** [x()] *)
Definition call (x : value) : result value :=
  match x with
  | VClass c => construct_default c
  | VThunk r => OK r
  | _ => Raise (TypeError ("'" ++ type_name x ++ "' object is not callable"))
  end.

(** [validate_item.error_message] *)
Definition error_message (x : value) (has_blocks : bool) (obj : value)
  : result assert_msg :=
  let expected := if has_blocks then "Block" else "Inline" in
  root_name <-
    match obj with
    | VClass c => OK (Class.name c)
    | VThunk _ => OK "<lambda>"
    | _ => Raise (AttributeError
                    ("'" ++ type_name obj ++ "' object has no attribute '__name__'"))
    end ;;
  let child_name := type_name x in
  OK (message_item root_name expected child_name x).

Definition validate_item (x : value) (has_blocks : bool) (obj : value)
  : result value :=
  x <- (if callable x then call x else OK x) ;;
  if isinstance_base x (if has_blocks then Class.Block else Class.Inline)
  then OK x
  else m <- error_message x has_blocks obj ;; Raise (AssertionError m).

Definition init_items (obj : value) (args : list value) (has_blocks : bool)
           (depth : Z) : result (list value) :=
  assert (existsb (Z.eqb depth) [1; 2; 3]) no_message ;;;
  if depth =? 1 then
    mapM (fun x => validate_item x has_blocks obj) args
  else if depth =? 2 then
    mapM (fun y =>
            ys <- iter y ;;
            row <- mapM (fun x => validate_item x has_blocks obj) ys ;;
            OK (VList row)) args
  else
    mapM (fun z =>
            zs <- iter z ;;
            rows <- mapM (fun y =>
                            ys <- iter y ;;
                            row <- mapM (fun x => validate_item x has_blocks obj) ys ;;
                            OK (VList row)) zs ;;
            OK (VList rows)) args.

(** A call of [init_items(obj, args, has_blocks, depth=1)].  Python binds
    the arguments before the body runs, and [args] has no default: a call
    site that passes no second positional argument raises TypeError. *)
Definition init_items_call (obj : value) (args : option (list value))
           (has_blocks : bool) (depth : Z) : result (list value) :=
  match args with
  | Some args => init_items obj args has_blocks depth
  | None =>
      Raise (TypeError
               "init_items() missing 1 required positional argument: 'args'")
  end.

(** [init_ica]: the three slots it sets, in the order
    (identifier, classes, attributes). *)
Definition init_ica (identifier classes attributes : value)
  : result (value * value * value) :=
  let classes := if truthy classes then classes else VList [] in
  let attributes := if truthy attributes then attributes else VDict [] in
  assert (is_str identifier) no_message ;;;
  assert (is_dict attributes) no_message ;;;
  cls <- iter classes ;;
  assert (forallb is_str cls) no_message ;;;
  OK (identifier, classes, attributes).

(** [init_ssd]: the slots (start, style, delimiter). *)
Definition init_ssd (start style delimiter : value)
  : result (value * value * value) :=
  n <- py_int start ;;
  ok <- (if eq_int start n then le_int 0 start else OK false) ;;
  assert ok no_message ;;;
  b <- in_set style LIST_NUMBER_STYLES ;;
  assert b (message_value style) ;;;
  b <- in_set delimiter LIST_NUMBER_DELIMITERS ;;
  assert b (message_value delimiter) ;;;
  OK (start, style, delimiter).

(** [init_ut]: the slots (url, title). *)
Definition init_ut (url title : value) : result (value * value) :=
  url <- validate url None (Some is_str) ;;
  title <- validate title None (Some is_str) ;;
  OK (url, title).

(** ** The classes: [__init__]

    [X_init args kw...] is the call of the class [X] on the tuple [args]
    of its positional arguments and on its keywords, each of them passed
    explicitly. *)

Definition Doc_init (metadata items format : value) : result value :=
  match metadata with
  | VDict kvs => OK (Doc kvs items format)
  | _ => Raise (AssertionError (message_type (type_name metadata)))
  end.

Definition Plain_init (args : list value) : result value :=
  items <- init_items (VClass Class.Plain) args false 1 ;; OK (Plain items).

Definition Para_init (args : list value) : result value :=
  items <- init_items (VClass Class.Para) args false 1 ;; OK (Para items).

Definition BlockQuote_init (args : list value) : result value :=
  items <- init_items (VClass Class.BlockQuote) args true 1 ;;
  OK (BlockQuote items).

Definition Emph_init (args : list value) : result value :=
  items <- init_items (VClass Class.Emph) args false 1 ;; OK (Emph items).

Definition Strong_init (args : list value) : result value :=
  items <- init_items (VClass Class.Strong) args false 1 ;; OK (Strong items).

Definition Strikeout_init (args : list value) : result value :=
  items <- init_items (VClass Class.Strikeout) args false 1 ;;
  OK (Strikeout items).

Definition Superscript_init (args : list value) : result value :=
  items <- init_items (VClass Class.Superscript) args false 1 ;;
  OK (Superscript items).

Definition Subscript_init (args : list value) : result value :=
  items <- init_items (VClass Class.Subscript) args false 1 ;;
  OK (Subscript items).

Definition SmallCaps_init (args : list value) : result value :=
  items <- init_items (VClass Class.SmallCaps) args false 1 ;;
  OK (SmallCaps items).

Definition Note_init (args : list value) : result value :=
  items <- init_items (VClass Class.Note) args true 1 ;; OK (Note items).

Definition Header_init (args : list value)
           (level identifier classes attributes : value) : result value :=
  level <- validate level (Some (tuple_of [1; 2; 3; 4; 5; 6])) None ;;
  ica <- init_ica identifier classes attributes ;;
  let '(identifier, classes, attributes) := ica in
  items <- init_items (VClass Class.Header) args false 1 ;;
  OK (Header level items identifier classes attributes).

Definition Div_init (args : list value)
           (identifier classes attributes : value) : result value :=
  ica <- init_ica identifier classes attributes ;;
  let '(identifier, classes, attributes) := ica in
  items <- init_items (VClass Class.Div) args true 1 ;;
  OK (Div items identifier classes attributes).

Definition Span_init (args : list value)
           (identifier classes attributes : value) : result value :=
  ica <- init_ica identifier classes attributes ;;
  let '(identifier, classes, attributes) := ica in
  items <- init_items (VClass Class.Span) args false 1 ;;
  OK (Span items identifier classes attributes).

Definition Quoted_init (args : list value) (quote_type : value)
  : result value :=
  quote_type <- validate quote_type (Some (set_of QUOTE_TYPES)) None ;;
  items <- init_items (VClass Class.Quoted) args false 1 ;;
  OK (Quoted quote_type items).

Definition Citation_init
           (citationHash citationId citationMode citationNoteNum
              citationPrefix citationSuffix : value) : result value :=
  citationMode <- validate citationMode (Some (set_of CITATION_MODE)) None ;;
  (* init_items(citationPrefix, has_blocks=False) *)
  citationPrefix <- init_items_call citationPrefix None false 1 ;;
  (* init_items(citationSuffix, has_blocks=False) *)
  citationSuffix <- init_items_call citationSuffix None false 1 ;;
  OK (Citation citationHash citationId citationMode citationNoteNum
               citationPrefix citationSuffix).

(** Binding of a keyword dictionary, unpacked at a call, against a
    signature of required parameters. *)
Definition bind_keywords (params : list string) (kw : list (value * value))
  : result (list value) :=
  if negb (forallb (fun kv => is_str (fst kv)) kw) then
    Raise (TypeError "keywords must be strings")
  else if negb (forallb (fun kv => existsb (eq_str (fst kv)) params) kw) then
    Raise (TypeError "__init__() got an unexpected keyword argument")
  else
    mapM (fun p =>
            match dict_get kw (VStr p) with
            | Some v => OK v
            | None => Raise (TypeError "__init__() missing required positional arguments")
            end) params.

(** [Citation] called on the unpacked [dict(c)], as [Cite.__init__] does
    for each entry [c] of [citations]. *)
Definition Citation_of (c : value) : result value :=
  kw <- OrderedDict c ;;
  bound <- bind_keywords ["citationHash"; "citationId"; "citationMode";
                          "citationNoteNum"; "citationPrefix";
                          "citationSuffix"] kw ;;
  match bound with
  | [h; i; m; n; p; s] => Citation_init h i m n p s
  | _ => Raise (TypeError "__init__() missing required positional arguments")
  end.

Definition Cite_init (args : list value) (citations : value) : result value :=
  cs <- iter citations ;;
  citations <- mapM Citation_of cs ;;
  items <- init_items (VClass Class.Cite) args false 1 ;;
  OK (Cite items citations).

Definition Link_init (args : list value)
           (url title identifier classes attributes : value) : result value :=
  items <- init_items (VClass Class.Link) args false 1 ;;
  ut <- init_ut url title ;;
  let '(url, title) := ut in
  ica <- init_ica identifier classes attributes ;;
  let '(identifier, classes, attributes) := ica in
  OK (Link items url title identifier classes attributes).

Definition Image_init (args : list value)
           (url title identifier classes attributes : value) : result value :=
  items <- init_items (VClass Class.Image) args false 1 ;;
  ut <- init_ut url title ;;
  let '(url, title) := ut in
  ica <- init_ica identifier classes attributes ;;
  let '(identifier, classes, attributes) := ica in
  OK (Image items url title identifier classes attributes).

Definition Str_init (text : value) : result value :=
  text <- validate text None (Some is_str) ;; OK (Str text).

Definition CodeBlock_init (text identifier classes attributes : value)
  : result value :=
  text <- validate text None (Some is_str) ;;
  ica <- init_ica identifier classes attributes ;;
  let '(identifier, classes, attributes) := ica in
  OK (CodeBlock text identifier classes attributes).

Definition RawBlock_init (text format : value) : result value :=
  text <- validate text None (Some is_str) ;;
  format <- validate format (Some (set_of RAW_FORMATS)) None ;;
  OK (RawBlock text format).

Definition Code_init (text identifier classes attributes : value)
  : result value :=
  text <- validate text None (Some is_str) ;;
  ica <- init_ica identifier classes attributes ;;
  let '(identifier, classes, attributes) := ica in
  OK (Code text identifier classes attributes).

Definition Math_init (text format : value) : result value :=
  text <- validate text None (Some is_str) ;;
  format <- validate format (Some (set_of MATH_FORMATS)) None ;;
  OK (Math format text).

Definition RawInline_init (text format : value) : result value :=
  text <- validate text None (Some is_str) ;;
  format <- validate format (Some (set_of RAW_FORMATS)) None ;;
  OK (RawInline text format).

Definition BulletList_init (args : list value) : result value :=
  items <- init_items (VClass Class.BulletList) args true 2 ;;
  OK (BulletList items).

Definition OrderedList_init (args : list value) (start style delimiter : value)
  : result value :=
  items <- init_items (VClass Class.OrderedList) args true 2 ;;
  ssd <- init_ssd start style delimiter ;;
  let '(start, style, delimiter) := ssd in
  OK (OrderedList items start style delimiter).

(** [for k, v in args]: one element unpacked into two targets. *)
Definition unpack2 (x : value) : result (value * value) :=
  xs <- iter x ;;
  match xs with
  | [k; v] => OK (k, v)
  | _ => Raise (ValueError "wrong number of values to unpack (expected 2)")
  end.

Definition DefinitionList_init (args : list value) : result value :=
  items <- mapM (fun kv =>
                   kv <- unpack2 kv ;;
                   let '(k, v) := kv in
                   (* init_items(k, has_blocks=False) *)
                   term <- init_items_call k None false 1 ;;
                   (* init_items(v, has_blocks=True, depth=2) *)
                   definitions <- init_items_call v None true 2 ;;
                   OK (VTuple [VList term; VList definitions])) args ;;
  OK (DefinitionList items).

(** *** Table

    The constructor in the order of its statements. *)

Definition Table_init (args : list value)
           (header caption alignment width : value) : result value :=
  items <- init_items (VClass Class.Table) args true 3 ;;
  let rows := Z.of_nat (List.length items) in
  first <- getitem (VList items) 0 ;;
  cols <- len first ;;
  (* init_items(header, has_blocks=True, depth=2) *)
  self_header <- init_items_call header None true 2 ;;
  n <- len header ;;
  assert (n =? cols) no_message ;;;
  (* init_items(caption, has_blocks=False) *)
  self_caption <- init_items_call caption None false 1 ;;
  (* self.alignment = ['AlignDefault'] * len(self.items[0])
                      if alignment is None else alignment *)
  self_alignment <-
    match alignment with
    | VNone =>
        first <- getitem (VList items) 0 ;;
        n <- len first ;;
        OK (VList (repeat (VStr "AlignDefault") (Z.to_nat n)))
    | _ => OK alignment
    end ;;
  (* assert all(item in TABLE_ALIGNMENT for item in alignment) *)
  entries <- iter alignment ;;
  ok <- allM (fun item => in_set item TABLE_ALIGNMENT) entries ;;
  assert ok no_message ;;;
  (* self.width = [0.0] * len(self.items[0]) if width is None else width *)
  self_width <-
    match width with
    | VNone =>
        first <- getitem (VList items) 0 ;;
        n <- len first ;;
        OK (VList (repeat (VFloat 0 0) (Z.to_nat n)))
    | _ => OK width
    end ;;
  (* assert all(item >= 0 for item in width) *)
  entries <- iter width ;;
  ok <- allM (fun item => ge_int item 0) entries ;;
  assert ok no_message ;;;
  OK (Table items self_header self_caption self_alignment self_width
            rows cols).

Definition MetaInlines_init (args : list value) : result value :=
  items <- init_items (VClass Class.MetaInlines) args false 1 ;;
  OK (MetaInlines items).

Definition MetaBlocks_init (args : list value) : result value :=
  items <- init_items (VClass Class.MetaBlocks) args true 1 ;;
  OK (MetaBlocks items).

(** ** Aux JSON Functions *)

Definition encode_dict (tag content : value) : value :=
  VDict [(VStr "t", tag); (VStr "c", content)].

(** [encode_ica(self)]: reads the three slots of [self]. *)
Definition encode_ica (identifier classes attributes : value) : result value :=
  match attributes with
  | VDict kvs => OK (VList [identifier; classes; VList (items_of kvs)])
  | _ => Raise (AttributeError
                  ("'" ++ type_name attributes ++ "' object has no attribute 'items'"))
  end.

(** [x.to_json]: no class of the module defines an attribute [to_json],
    and no builtin type has one. *)
Definition no_to_json {A} (x : value) : result A :=
  Raise (AttributeError
           match x with
           | VClass c =>
               "type object '" ++ Class.name c ++ "' has no attribute 'to_json'"
           | _ => "'" ++ type_name x ++ "' object has no attribute 'to_json'"
           end).

(** [encode_list(items)]: the comprehension calls the method [to_json] of
    each element.  No function of the module calls it. *)
Definition encode_list (items : value) : result value :=
  xs <- iter items ;;
  r <- mapM no_to_json xs ;;
  OK (VList r).

Definition no_encode_content {A} (x : value) : result A :=
  Raise (AttributeError
           ("'" ++ type_name x ++ "' object has no attribute 'encode_content'")).

Section Encode.
(** The encoder is recursive through [to_json]; the helpers that the
    source keeps apart take it as a variable, and the knot is tied by
    [encode_content] below. *)
Variable to_json : value -> result value.

(** [[to_json(x) for x in row]] for one stored row.  Rows are the lists
    that [init_items] has built. *)
Definition encode_row (row : value) : result value :=
  match row with
  | VList xs | VTuple xs => r <- mapM to_json xs ;; OK (VList r)
  | VDict kvs => r <- mapM (fun '(k, _) => to_json k) kvs ;; OK (VList r)
  | VStr s => r <- mapM no_encode_content (chars s) ;; OK (VList r)
  | _ => not_iterable row
  end.

(** [[[to_json(x) for x in cell] for cell in row]] *)
Definition encode_rows (row : value) : result value :=
  match row with
  | VList cells | VTuple cells => r <- mapM encode_row cells ;; OK (VList r)
  | VDict kvs => r <- mapM (fun '(k, _) => encode_row k) kvs ;; OK (VList r)
  | VStr s => r <- mapM no_encode_content (chars s) ;; OK (VList r)
  | _ => not_iterable row
  end.

(** [encode_items(self)]: [tag] is [type(self)], [items] is
    [self.items]. *)
Definition encode_items (tag : Class.t) (items : list value) : result value :=
  match tag with
  | Class.BulletList | Class.OrderedList =>
      r <- mapM encode_row items ;; OK (VList r)
  | Class.DefinitionList =>
      r <- mapM (fun item =>
                   match item with
                   | VTuple [k; v] | VList [k; v] =>
                       term <- encode_row k ;;
                       definitions <- encode_rows v ;;
                       OK (VList [term; definitions])
                   | _ => Raise (ValueError "wrong number of values to unpack (expected 2)")
                   end) items ;;
      OK (VList r)
  | Class.Table =>
      r <- mapM encode_rows items ;; OK (VList r)
  | _ =>
      r <- mapM to_json items ;; OK (VList r)
  end.
End Encode.

(** ** The classes: [encode_content], and [metawalk]

    [to_json_with] is the body of [to_json] over the two functions it
    calls; [encode_content] dispatches on the class of [self] as the
    method call does. *)

Definition to_json_with (encode_content metawalk : value -> result value)
           (element : value) : result value :=
  match element with
  | Doc metadata items _ =>
      meta <- mapM (fun '(k, v) => v <- metawalk v ;; OK (k, v)) metadata ;;
      OK (VList [VDict [(VStr "unMeta", VDict meta)]; items])
  | _ =>
      content <- encode_content element ;;
      OK (encode_dict (VStr (type_name element)) content)
  end.

Fixpoint encode_content (self : value) : result value :=
  let to_json := to_json_with encode_content metawalk in
  match self with
  | Null | Space | HorizontalRule | SoftBreak | LineBreak => OK (VList [])
  | Plain items => encode_items to_json Class.Plain items
  | Para items => encode_items to_json Class.Para items
  | BlockQuote items => encode_items to_json Class.BlockQuote items
  | Emph items => encode_items to_json Class.Emph items
  | Strong items => encode_items to_json Class.Strong items
  | Strikeout items => encode_items to_json Class.Strikeout items
  | Superscript items => encode_items to_json Class.Superscript items
  | Subscript items => encode_items to_json Class.Subscript items
  | SmallCaps items => encode_items to_json Class.SmallCaps items
  | Note items => encode_items to_json Class.Note items
  | Header level items identifier classes attributes =>
      ica <- encode_ica identifier classes attributes ;;
      items <- encode_items to_json Class.Header items ;;
      OK (VList [level; ica; items])
  | Div items identifier classes attributes =>
      ica <- encode_ica identifier classes attributes ;;
      items <- encode_items to_json Class.Div items ;;
      OK (VList [ica; items])
  | Span items identifier classes attributes =>
      ica <- encode_ica identifier classes attributes ;;
      items <- encode_items to_json Class.Span items ;;
      OK (VList [ica; items])
  | Quoted quote_type items =>
      let quote_type := encode_dict quote_type (VList []) in
      items <- encode_items to_json Class.Quoted items ;;
      OK (VList [quote_type; items])
  | Cite items citations =>
      citations <- mapM encode_content citations ;;
      items <- encode_items to_json Class.Cite items ;;
      OK (VList [VList citations; items])
  | Citation citationHash citationId citationMode citationNoteNum
             citationPrefix citationSuffix =>
      suffix <- mapM to_json citationSuffix ;;
      prefix <- mapM to_json citationPrefix ;;
      OK (VDict [(VStr "citationSuffix", VList suffix);
                 (VStr "citationNoteNum", citationNoteNum);
                 (VStr "citationMode", encode_dict citationMode (VList []));
                 (VStr "citationPrefix", VList prefix);
                 (VStr "citationId", citationId);
                 (VStr "citationHash", citationHash)])
  | Link items url title identifier classes attributes =>
      ica <- encode_ica identifier classes attributes ;;
      items <- encode_items to_json Class.Link items ;;
      let ut := VList [url; title] in
      OK (VList [ica; items; ut])
  | Image items url title identifier classes attributes =>
      ica <- encode_ica identifier classes attributes ;;
      items <- encode_items to_json Class.Image items ;;
      let ut := VList [url; title] in
      OK (VList [ica; items; ut])
  | Str text => OK text
  | CodeBlock text identifier classes attributes =>
      ica <- encode_ica identifier classes attributes ;;
      OK (VList [ica; text])
  | RawBlock text format => OK (VList [format; text])
  | Code text identifier classes attributes =>
      ica <- encode_ica identifier classes attributes ;;
      OK (VList [ica; text])
  | Math format text =>
      let format := encode_dict format (VList []) in
      OK (VList [format; text])
  | RawInline text format => OK (VList [format; text])
  | BulletList items => encode_items to_json Class.BulletList items
  | OrderedList items start style delimiter =>
      let ssd := VList [start; encode_dict style (VList []);
                        encode_dict delimiter (VList [])] in
      items <- encode_items to_json Class.OrderedList items ;;
      OK (VList [ssd; items])
  | DefinitionList items => encode_items to_json Class.DefinitionList items
  | Table items header caption alignment width _ _ =>
      caption <- mapM to_json caption ;;
      entries <- iter alignment ;;
      let alignment := map (fun x => encode_dict x (VList [])) entries in
      header <- mapM (encode_row to_json) header ;;
      items <- encode_items to_json Class.Table items ;;
      OK (VList [VList caption; VList alignment; width; VList header; items])
  | MetaInlines items => encode_items to_json Class.MetaInlines items
  | MetaBlocks items => encode_items to_json Class.MetaBlocks items
  | VClass Class.Doc => no_encode_content self
  | VClass _ =>
      Raise (TypeError "encode_content() missing 1 required positional argument: 'self'")
  | _ => no_encode_content self
  end

with metawalk (e : value) : result value :=
  let to_json := to_json_with encode_content metawalk in
  match e with
  | VStr _ => OK e
  | MetaInlines items =>
      (* to_json(e) *)
      content <- encode_items to_json Class.MetaInlines items ;;
      OK (encode_dict (VStr "MetaInlines") content)
  | MetaBlocks items =>
      (* to_json(e) *)
      content <- encode_items to_json Class.MetaBlocks items ;;
      OK (encode_dict (VStr "MetaBlocks") content)
  | VList l =>
      content <- mapM metawalk l ;;
      OK (encode_dict (VStr "MetaList") (VList content))
  | VDict kvs =>
      content <- mapM (fun '(k, v) => v <- metawalk v ;; OK (k, v)) kvs ;;
      OK (encode_dict (VStr "MetaMap") (VDict content))
  | VBool _ => OK (encode_dict (VStr "MetaBool") e)
  | _ => Raise (AssertionError (message_type (type_name e)))
  end.

(** ** Main JSON Functions *)

Definition to_json : value -> result value :=
  to_json_with encode_content metawalk.

(** [x[i][j]] *)
Definition getitem2 (x : value) (i j : nat) : result value :=
  y <- getitem x i ;; getitem y j.

(** [data] as the Python object handed to [from_json]: a list of
    [(key, value)] 2-tuples, one per member of a JSON object. *)
Definition pairs (data : list (string * value)) : value :=
  VList (map (fun kv => VTuple [VStr (fst kv); snd kv]) data).

(** The chain of [elif tag == ...] of [from_json]: [tag] is [data[0][1]],
    [c] is [data[1][1]].  Call arguments are evaluated in the order they
    are written. *)
Definition from_json_tag (tag c : value) : result value :=
  if eq_str tag "Null" then OK Null
  else if eq_str tag "Space" then OK Space
  else if eq_str tag "HorizontalRule" then OK HorizontalRule
  else if eq_str tag "SoftBreak" then OK SoftBreak
  else if eq_str tag "LineBreak" then OK LineBreak

  else if eq_str tag "Plain" then args <- iter c ;; Plain_init args
  else if eq_str tag "Para" then args <- iter c ;; Para_init args
  else if eq_str tag "BlockQuote" then args <- iter c ;; BlockQuote_init args
  else if eq_str tag "Emph" then args <- iter c ;; Emph_init args
  else if eq_str tag "Strong" then args <- iter c ;; Strong_init args
  else if eq_str tag "Strikeout" then args <- iter c ;; Strikeout_init args
  else if eq_str tag "Superscript" then args <- iter c ;; Superscript_init args
  else if eq_str tag "Subscript" then args <- iter c ;; Subscript_init args
  else if eq_str tag "SmallCaps" then args <- iter c ;; SmallCaps_init args
  else if eq_str tag "Note" then args <- iter c ;; Note_init args

  else if eq_str tag "Header" then
    c2 <- getitem c 2 ;;
    level <- getitem c 0 ;;
    identifier <- getitem2 c 1 0 ;;
    classes <- getitem2 c 1 1 ;;
    attributes <- getitem2 c 1 2 ;;
    args <- iter c2 ;;
    Header_init args level identifier classes attributes
  else if eq_str tag "Div" then
    c1 <- getitem c 1 ;;
    identifier <- getitem2 c 0 0 ;;
    classes <- getitem2 c 0 1 ;;
    attributes <- getitem2 c 0 2 ;;
    args <- iter c1 ;;
    Div_init args identifier classes attributes
  else if eq_str tag "Span" then
    c1 <- getitem c 1 ;;
    identifier <- getitem2 c 0 0 ;;
    classes <- getitem2 c 0 1 ;;
    attributes <- getitem2 c 0 2 ;;
    args <- iter c1 ;;
    Span_init args identifier classes attributes
  else if eq_str tag "Quoted" then
    c1 <- getitem c 1 ;;
    quote_type <- getitem c 0 ;;
    args <- iter c1 ;;
    Quoted_init args quote_type
  else if eq_str tag "Cite" then
    c1 <- getitem c 1 ;;
    citations <- getitem c 0 ;;
    args <- iter c1 ;;
    Cite_init args citations
  else if eq_str tag "Link" then
    c1 <- getitem c 1 ;;
    url <- getitem2 c 2 0 ;;
    title <- getitem2 c 2 1 ;;
    identifier <- getitem2 c 0 0 ;;
    classes <- getitem2 c 0 1 ;;
    attributes <- getitem2 c 0 2 ;;
    args <- iter c1 ;;
    Link_init args url title identifier classes attributes
  else if eq_str tag "Image" then
    c1 <- getitem c 1 ;;
    url <- getitem2 c 2 0 ;;
    title <- getitem2 c 2 1 ;;
    identifier <- getitem2 c 0 0 ;;
    classes <- getitem2 c 0 1 ;;
    attributes <- getitem2 c 0 2 ;;
    args <- iter c1 ;;
    Image_init args url title identifier classes attributes

  else if eq_str tag "Str" then Str_init c
  else if eq_str tag "CodeBlock" then
    text <- getitem c 1 ;;
    identifier <- getitem2 c 0 0 ;;
    classes <- getitem2 c 0 1 ;;
    attributes <- getitem2 c 0 2 ;;
    CodeBlock_init text identifier classes attributes
  else if eq_str tag "RawBlock" then
    text <- getitem c 1 ;;
    format <- getitem c 0 ;;
    RawBlock_init text format
  else if eq_str tag "Code" then
    text <- getitem c 1 ;;
    identifier <- getitem2 c 0 0 ;;
    classes <- getitem2 c 0 1 ;;
    attributes <- getitem2 c 0 2 ;;
    Code_init text identifier classes attributes
  else if eq_str tag "Math" then
    text <- getitem c 1 ;;
    format <- getitem c 0 ;;
    Math_init text format
  else if eq_str tag "RawInline" then
    text <- getitem c 1 ;;
    format <- getitem c 0 ;;
    RawInline_init text format

  else if eq_str tag "BulletList" then args <- iter c ;; BulletList_init args
  else if eq_str tag "OrderedList" then
    c1 <- getitem c 1 ;;
    start <- getitem2 c 0 0 ;;
    style <- getitem2 c 0 1 ;;
    delimiter <- getitem2 c 0 2 ;;
    args <- iter c1 ;;
    OrderedList_init args start style delimiter
  else if eq_str tag "DefinitionList" then
    args <- iter c ;; DefinitionList_init args
  else if eq_str tag "Table" then
    c4 <- getitem c 4 ;;
    caption <- getitem c 0 ;;
    alignment <- getitem c 1 ;;
    width <- getitem c 2 ;;
    header <- getitem c 3 ;;
    args <- iter c4 ;;
    Table_init args header caption alignment width

  else if eq_str tag "MetaList" then OK c
  else if eq_str tag "MetaMap" then d <- OrderedDict c ;; OK (VDict d)
  else if eq_str tag "MetaInlines" then args <- iter c ;; MetaInlines_init args
  else if eq_str tag "MetaBlocks" then args <- iter c ;; MetaBlocks_init args
  else if eq_str tag "MetaString" then OK c
  else if eq_str tag "MetaBool" then
    (* assert c in {True, False}, c *)
    if hashable c then
      assert (eq_int c 1 || eq_int c 0) (message_value c) ;;;
      OK c
    else unhashable c

  else
    special <- in_set tag SPECIAL_ELEMENTS ;;
    if special then OK tag
    else
      (* the five print calls write to standard output and return *)
      match tag with
      | VStr s => Raise (Exception ("unknown tag " ++ s))
      | _ => Raise (TypeError "can only concatenate str to str")
      end.

(** [from_json(data)], the pairs hook of the JSON reader: [data] holds the
    members of one JSON object, in order, with their values already
    decoded. *)
Definition from_json (data : list (string * value)) : result value :=
  match data with
  | [] => OK (VList [])                                (* Empty metadata *)
  | (key0, value0) :: rest =>
      if negb (key0 =? "t")%string then                (* Odd cases *)
        let tag := key0 in
        if (tag =? "unMeta")%string then
          assert (Z.of_nat (List.length data) =? 1) no_message ;;;
          let c := value0 in
          c <- OrderedDict c ;;
          OK (VDict c)
        else OK (pairs data)
      else                                             (* Standard cases *)
        match rest with
        | [] => Raise (IndexError "list index out of range")
        | (key1, value1) :: _ =>
            assert (key1 =? "c")%string no_message ;;;
            let tag := value0 in
            let c := value1 in
            from_json_tag tag c
        end
  end.

(** [decode_ica(self, attr)]: the three slots it sets, in the order
    (identifier, classes, attributes).  No function of the module calls
    it. *)
Definition decode_ica (attr : value) : result (value * value * value) :=
  let attr :=
    match attr with
    | VNone => VList [VStr ""; VList []; VList []]
    | _ => attr
    end in
  xs <- iter attr ;;
  match xs with
  | [identifier; classes; attributes] =>
      attributes <- OrderedDict attributes ;;
      OK (identifier, classes, VDict attributes)
  | _ => Raise (ValueError "wrong number of values to unpack (expected 3)")
  end.

(** ** Special Root Class: [Doc.get_metadata] *)

(** [sub in s] for two strings *)
Fixpoint str_contains (s sub : string) : bool :=
  (String.prefix sub s ||
   match s with
   | EmptyString => false
   | String _ t => str_contains t sub
   end)%bool.

(** [key in meta] for a string [key] *)
Definition contains_key (meta : value) (key : string) : result bool :=
  match meta with
  | VDict kvs => OK (match dict_get kvs (VStr key) with Some _ => true | None => false end)
  | VList xs | VTuple xs => OK (existsb (fun x => eq_str x key) xs)
  | VStr s => OK (str_contains s key)
  | _ => Raise (TypeError ("argument of type '" ++ type_name meta ++ "' is not iterable"))
  end.

(** [meta[key]] for a string [key] *)
Definition subscript (meta : value) (key : string) : result value :=
  match meta with
  | VDict kvs =>
      match dict_get kvs (VStr key) with
      | Some v => OK v
      | None => Raise (KeyError (VStr key))
      end
  | VStr _ => Raise (TypeError "string indices must be integers, not 'str'")
  | VList _ | VTuple _ =>
      Raise (TypeError (type_name meta
                          ++ " indices must be integers or slices, not str"))
  | _ => Raise (TypeError ("'" ++ type_name meta ++ "' object is not subscriptable"))
  end.

(** The [for key in keys] loop of [get_metadata]. *)
Fixpoint get_metadata_loop (keys : list string) (meta default : value)
  : result value :=
  match keys with
  | [] => OK meta
  | key :: keys =>
      found <- contains_key meta key ;;
      if negb found then OK default
      else meta <- subscript meta key ;; get_metadata_loop keys meta default
  end.

Definition get_metadata (self : value) (request : string) (default : value)
  : result value :=
  match self with
  | Doc metadata _ _ =>
      let keys := split_dot request in
      let meta := VDict metadata in
      get_metadata_loop keys meta default
  | _ => Raise (AttributeError
                  ("'" ++ type_name self ++ "' object has no attribute 'metadata'"))
  end.

(** ** Wire values and the two boundary operations

    A wire value is a JSON document; numbers are ints or dyadic floats and
    the members of an object keep their order. *)

Inductive json :=
| JNull
| JBool (b : bool)
| JInt (n : Z)
| JFloat (m e : Z)
| JStr (s : string)
| JArr (elements : list json)
| JObj (members : list (string * json)).

(** Plain Python data written out as a wire value.  The keys of the
    mappings of this codec (tagged values, metadata maps) are strings. *)
Definition member_name (k : value) : result string :=
  match k with
  | VStr s => OK s
  | _ => Raise (TypeError "keys must be str")
  end.

Fixpoint wire (v : value) : result json :=
  match v with
  | VNone => OK JNull
  | VBool b => OK (JBool b)
  | VInt n => OK (JInt n)
  | VFloat m e => OK (JFloat m e)
  | VStr s => OK (JStr s)
  | VList xs | VTuple xs => l <- mapM wire xs ;; OK (JArr l)
  | VDict kvs =>
      members <- mapM (fun '(k, x) =>
                         name <- member_name k ;;
                         w <- wire x ;;
                         OK (name, w)) kvs ;;
      OK (JObj members)
  | _ => Raise (TypeError ("Object of type " ++ type_name v
                             ++ " is not JSON serializable"))
  end.

(** Modelled from the spec: the serialiser that drives [to_json] is not in
    the source file.  Section 2 says that encoding "always runs through
    the Encoder (which recurses into children via itself)": plain data is
    written out as it is, and an object met on the way is handed to
    [to_json], whose result is written out in its place.  The result of
    [to_json] on a node is plain data already, its children having been
    encoded by [to_json] itself, and is written out by [wire]; the one
    object whose [to_json] leaves objects in its result is the document,
    see [encode]. *)
Fixpoint serialise (v : value) : result json :=
  match v with
  | VNone | VBool _ | VInt _ | VFloat _ _ | VStr _ => wire v
  | VList xs | VTuple xs => l <- mapM serialise xs ;; OK (JArr l)
  | VDict kvs =>
      members <- mapM (fun '(k, x) =>
                         name <- member_name k ;;
                         w <- serialise x ;;
                         OK (name, w)) kvs ;;
      OK (JObj members)
  | _ => r <- to_json v ;; wire r
  end.

(** Modelled from the spec: section 6 names the boundary operation
    "encode(Document|Node) -> WireValue".  A node is serialised.  A
    document is handed to [to_json], and the list that [to_json] returns,
    which still holds the block objects in its second entry, is
    serialised in turn. *)
Definition encode (v : value) : result json :=
  match v with
  | Doc _ _ _ => r <- to_json v ;; serialise r
  | _ => serialise v
  end.

(** Modelled from the spec: the reader that drives [from_json] is not in
    the source file.  Section 6 names the operation
    "decode(WireValue) -> Document|Node" and section 2 says that decoding
    "recurses into children's wire values and reconstructs nodes": arrays
    and scalars become the corresponding Python data, and every JSON
    object is handed to [from_json] as the list of its members with their
    values already decoded. *)
Fixpoint decode (w : json) : result value :=
  match w with
  | JNull => OK VNone
  | JBool b => OK (VBool b)
  | JInt n => OK (VInt n)
  | JFloat m e => OK (VFloat m e)
  | JStr s => OK (VStr s)
  | JArr elements => xs <- mapM decode elements ;; OK (VList xs)
  | JObj members =>
      data <- mapM (fun '(k, w) => v <- decode w ;; OK (k, v)) members ;;
      from_json data
  end.

(** * Notions of the specification

    What the specification speaks of and the source has no name for. *)

(** ** Known tags *)

(** The tag strings [from_json] tests for, in the order of its [elif]
    chain, followed by the enumeration names. *)
Definition KNOWN_TAGS : list string :=
  (["Null"; "Space"; "HorizontalRule"; "SoftBreak"; "LineBreak";
    "Plain"; "Para"; "BlockQuote"; "Emph"; "Strong"; "Strikeout";
    "Superscript"; "Subscript"; "SmallCaps"; "Note";
    "Header"; "Div"; "Span"; "Quoted"; "Cite"; "Link"; "Image";
    "Str"; "CodeBlock"; "RawBlock"; "Code"; "Math"; "RawInline";
    "BulletList"; "OrderedList"; "DefinitionList"; "Table";
    "MetaList"; "MetaMap"; "MetaInlines"; "MetaBlocks"; "MetaString";
    "MetaBool"] ++ SPECIAL_ELEMENTS)%list.

Definition known_tag (s : string) : bool :=
  existsb (String.eqb s) KNOWN_TAGS.

(** ** Containers and capabilities *)

(** The kinds that hold one sequence of children: the classes whose
    [__init__] hands its positional arguments to
    [init_items(type(self), args, has_blocks=...)].  They are the
    container kinds of section 3 of the specification, its structured
    kinds with inline children, and the two snippet wrappers of the
    metadata. *)
Inductive container :=
| CPlain | CPara | CBlockQuote | CEmph | CStrong | CStrikeout
| CSuperscript | CSubscript | CSmallCaps | CNote
| CHeader | CDiv | CSpan | CQuoted | CCite | CLink | CImage
| CMetaInlines | CMetaBlocks.

Definition container_class (k : container) : Class.t :=
  match k with
  | CPlain => Class.Plain | CPara => Class.Para
  | CBlockQuote => Class.BlockQuote | CEmph => Class.Emph
  | CStrong => Class.Strong | CStrikeout => Class.Strikeout
  | CSuperscript => Class.Superscript | CSubscript => Class.Subscript
  | CSmallCaps => Class.SmallCaps | CNote => Class.Note
  | CHeader => Class.Header | CDiv => Class.Div | CSpan => Class.Span
  | CQuoted => Class.Quoted | CCite => Class.Cite
  | CLink => Class.Link | CImage => Class.Image
  | CMetaInlines => Class.MetaInlines | CMetaBlocks => Class.MetaBlocks
  end.

(** The [has_blocks] flag written in the class's [__init__]. *)
Definition has_blocks_of (k : container) : bool :=
  match k with
  | CBlockQuote | CNote | CDiv | CMetaBlocks => true
  | _ => false
  end.

(** The keyword arguments of a constructor call; a class reads the ones
    of its signature. *)
Record keywords := {
  kw_level : value;
  kw_identifier : value;
  kw_classes : value;
  kw_attributes : value;
  kw_quote_type : value;
  kw_citations : value;
  kw_url : value;
  kw_title : value
}.

(** The constructor call. *)
Definition construct (k : container) (args : list value) (kw : keywords)
  : result value :=
  match k with
  | CPlain => Plain_init args
  | CPara => Para_init args
  | CBlockQuote => BlockQuote_init args
  | CEmph => Emph_init args
  | CStrong => Strong_init args
  | CStrikeout => Strikeout_init args
  | CSuperscript => Superscript_init args
  | CSubscript => Subscript_init args
  | CSmallCaps => SmallCaps_init args
  | CNote => Note_init args
  | CHeader =>
      Header_init args (kw_level kw) (kw_identifier kw) (kw_classes kw)
                  (kw_attributes kw)
  | CDiv =>
      Div_init args (kw_identifier kw) (kw_classes kw) (kw_attributes kw)
  | CSpan =>
      Span_init args (kw_identifier kw) (kw_classes kw) (kw_attributes kw)
  | CQuoted => Quoted_init args (kw_quote_type kw)
  | CCite => Cite_init args (kw_citations kw)
  | CLink =>
      Link_init args (kw_url kw) (kw_title kw) (kw_identifier kw)
                (kw_classes kw) (kw_attributes kw)
  | CImage =>
      Image_init args (kw_url kw) (kw_title kw) (kw_identifier kw)
                 (kw_classes kw) (kw_attributes kw)
  | CMetaInlines => MetaInlines_init args
  | CMetaBlocks => MetaBlocks_init args
  end.

(** The node [n] with [items] for children. *)
Definition with_items (n : value) (items : list value) : value :=
  match n with
  | Plain _ => Plain items
  | Para _ => Para items
  | BlockQuote _ => BlockQuote items
  | Emph _ => Emph items
  | Strong _ => Strong items
  | Strikeout _ => Strikeout items
  | Superscript _ => Superscript items
  | Subscript _ => Subscript items
  | SmallCaps _ => SmallCaps items
  | Note _ => Note items
  | Header level _ identifier classes attributes =>
      Header level items identifier classes attributes
  | Div _ identifier classes attributes =>
      Div items identifier classes attributes
  | Span _ identifier classes attributes =>
      Span items identifier classes attributes
  | Quoted quote_type _ => Quoted quote_type items
  | Cite _ citations => Cite items citations
  | Link _ url title identifier classes attributes =>
      Link items url title identifier classes attributes
  | Image _ url title identifier classes attributes =>
      Image items url title identifier classes attributes
  | MetaInlines _ => MetaInlines items
  | MetaBlocks _ => MetaBlocks items
  | _ => n
  end.

(** A child after the resolution of a zero-argument callable:
    [x() if callable(x) else x]. *)
Definition resolve (x : value) : result value :=
  if callable x then call x else OK x.

Definition capability (has_blocks : bool) : Class.base :=
  if has_blocks then Class.Block else Class.Inline.

Definition capability_name (has_blocks : bool) : string :=
  if has_blocks then "Block" else "Inline".

(** A child that resolves to an instance with the capability. *)
Definition accepted (has_blocks : bool) (x x' : value) : Prop :=
  resolve x = OK x' /\ isinstance_base x' (capability has_blocks) = true.

(** ** Metadata lookup *)

(** The lookup in the words of the specification: the path is split on
    ['.'], the tree of ordered maps is descended one key per segment, and
    the first segment that is missing, at any level, ends the descent. *)
Fixpoint lookup_path (segments : list string) (meta : value) : option value :=
  match segments with
  | [] => Some meta
  | segment :: segments =>
      match meta with
      | VDict kvs =>
          match dict_get kvs (VStr segment) with
          | Some v => lookup_path segments v
          | None => None
          end
      | _ => None
      end
  end.

Definition lookup (metadata : list (value * value)) (path : string)
           (default : value) : value :=
  match lookup_path (split_dot path) (VDict metadata) with
  | Some v => v
  | None => default
  end.

(** Every value the descent goes through before the path is used up is an
    ordered map. *)
Fixpoint maps_along (segments : list string) (meta : value) : bool :=
  match segments with
  | [] => true
  | segment :: segments =>
      match meta with
      | VDict kvs =>
          match dict_get kvs (VStr segment) with
          | Some v => maps_along segments v
          | None => true
          end
      | _ => false
      end
  end.

(** ** Wire shapes *)

(** The bare tagged form of an enumerated value. *)
Definition tagged_enum (x : value) : value := encode_dict x (VList []).

(** *** The shapes of the wire format

    The shapes of section 6 of the specification, with the positional
    content of each kind as section 4.5 lists it. *)

Definition str_shape (w : json) : bool :=
  match w with JStr _ => true | _ => false end.

Definition number_shape (w : json) : bool :=
  match w with JInt _ | JFloat _ _ => true | _ => false end.

(** Attribute triple: [[identifier, classes, attributes]], the last an
    array of [[key, value]] pairs. *)
Definition pair_shape (w : json) : bool :=
  match w with JArr [JStr _; JStr _] => true | _ => false end.

Definition attr_shape (w : json) : bool :=
  match w with
  | JArr [JStr _; JArr classes; JArr attributes] =>
      forallb str_shape classes && forallb pair_shape attributes
  | _ => false
  end.

(** Enumerated value: [{"t": name, "c": []}], the name in its value set. *)
Definition enum_shape (names : list string) (w : json) : bool :=
  match w with
  | JObj [(t, JStr name); (c, JArr [])] =>
      (t =? "t")%string && (c =? "c")%string && existsb (String.eqb name) names
  | _ => false
  end.

(** List-numbering descriptor: [[start, style, delimiter]]. *)
Definition ssd_shape (w : json) : bool :=
  match w with
  | JArr [JInt _; style; delimiter] =>
      enum_shape LIST_NUMBER_STYLES style
      && enum_shape LIST_NUMBER_DELIMITERS delimiter
  | _ => false
  end.

Definition leaf_tag (tag : string) : bool :=
  existsb (String.eqb tag)
          ["Null"; "Space"; "HorizontalRule"; "SoftBreak"; "LineBreak"].

Definition container_tag (tag : string) : bool :=
  existsb (String.eqb tag)
          ["Plain"; "Para"; "BlockQuote"; "Emph"; "Strong"; "Strikeout";
           "Superscript"; "Subscript"; "SmallCaps"; "Note";
           "MetaInlines"; "MetaBlocks"].

Section Shapes.

(** The shape of a tagged value, for the children. *)
Variable node : json -> bool.

Definition nodes (w : json) : bool :=
  match w with JArr ws => forallb node ws | _ => false end.

Definition rows (w : json) : bool :=
  match w with JArr rs => forallb nodes rs | _ => false end.

Definition citation_shape (w : json) : bool :=
  match w with
  | JObj [(k1, suffix); (k2, JInt _); (k3, mode); (k4, prefix); (k5, JStr _);
          (k6, hash)] =>
      (k1 =? "citationSuffix")%string && (k2 =? "citationNoteNum")%string
      && (k3 =? "citationMode")%string && (k4 =? "citationPrefix")%string
      && (k5 =? "citationId")%string && (k6 =? "citationHash")%string
      && nodes suffix && enum_shape CITATION_MODE mode && nodes prefix
      && (number_shape hash || str_shape hash)
  | _ => false
  end.

Definition definition_shape (w : json) : bool :=
  match w with
  | JArr [term; definitions] => nodes term && rows definitions
  | _ => false
  end.

(** The positional content of the kind [tag]. *)
Definition content_shape (tag : string) (c : json) : bool :=
  if leaf_tag tag then
    match c with JArr [] => true | _ => false end
  else if container_tag tag then nodes c
  else if (tag =? "Header")%string then
    match c with
    | JArr [JInt _; attr; children] => attr_shape attr && nodes children
    | _ => false
    end
  else if ((tag =? "Div") || (tag =? "Span"))%string then
    match c with
    | JArr [attr; children] => attr_shape attr && nodes children
    | _ => false
    end
  else if (tag =? "Quoted")%string then
    match c with
    | JArr [quote_type; children] =>
        enum_shape QUOTE_TYPES quote_type && nodes children
    | _ => false
    end
  else if (tag =? "Cite")%string then
    match c with
    | JArr [JArr citations; children] =>
        forallb citation_shape citations && nodes children
    | _ => false
    end
  else if ((tag =? "Link") || (tag =? "Image"))%string then
    match c with
    | JArr [attr; children; JArr [JStr _; JStr _]] =>
        attr_shape attr && nodes children
    | _ => false
    end
  else if (tag =? "Str")%string then str_shape c
  else if ((tag =? "CodeBlock") || (tag =? "Code"))%string then
    match c with
    | JArr [attr; JStr _] => attr_shape attr
    | _ => false
    end
  else if ((tag =? "RawBlock") || (tag =? "RawInline"))%string then
    match c with
    | JArr [JStr _; JStr _] => true
    | _ => false
    end
  else if (tag =? "Math")%string then
    match c with
    | JArr [format; JStr _] => enum_shape MATH_FORMATS format
    | _ => false
    end
  else if (tag =? "BulletList")%string then rows c
  else if (tag =? "OrderedList")%string then
    match c with
    | JArr [ssd; items] => ssd_shape ssd && rows items
    | _ => false
    end
  else if (tag =? "DefinitionList")%string then
    match c with
    | JArr items => forallb definition_shape items
    | _ => false
    end
  else if (tag =? "Table")%string then
    match c with
    | JArr [caption; JArr alignment; JArr width; header; JArr body] =>
        nodes caption && forallb (enum_shape TABLE_ALIGNMENT) alignment
        && forallb number_shape width && rows header && forallb rows body
    | _ => false
    end
  else if (tag =? "MetaList")%string then nodes c
  else if (tag =? "MetaMap")%string then
    match c with
    | JObj members => forallb (fun '(_, x) => node x) members
    | _ => false
    end
  else if (tag =? "MetaString")%string then str_shape c
  else if (tag =? "MetaBool")%string then
    match c with JBool _ => true | _ => false end
  else if existsb (String.eqb tag) SPECIAL_ELEMENTS then
    match c with JArr [] => true | _ => false end
  else false.

End Shapes.

(** Tagged value: an object with exactly the two members ["t"] and ["c"],
    in this order. *)
Fixpoint wire_shape (w : json) : bool :=
  match w with
  | JObj [(t, JStr tag); (c, content)] =>
      (t =? "t")%string && (c =? "c")%string
      && content_shape wire_shape tag content
  | _ => false
  end.

(** ** Wire values met by the decoder *)

Section Everywhere.

Variable P : json -> Prop.

(** [P] holds of a wire value and of every value inside it. *)
Fixpoint everywhere (w : json) : Prop :=
  P w /\
  match w with
  | JArr elements =>
      (fix each (l : list json) : Prop :=
         match l with
         | [] => True
         | x :: t => everywhere x /\ each t
         end) elements
  | JObj members =>
      (fix each (l : list (string * json)) : Prop :=
         match l with
         | [] => True
         | (_, x) :: t => everywhere x /\ each t
         end) members
  | _ => True
  end.

End Everywhere.

(** What the round trip needs of the value [v] decoded from [w]: it is
    not a callable, it is not a [Doc], and if it is an instance then its
    encoding is [w]. *)
Definition restored (w : json) (v : value) : Prop :=
  callable v = false
  /\ class_of v <> Some Class.Doc
  /\ (class_of v <> None -> encode v = OK w).

Definition restores (w : json) : Prop :=
  wire_shape w = true -> forall v, decode w = OK v -> restored w v.

(** ** Canonical nodes

    The nodes that the constructors build from arguments of the types of
    section 3 of the specification, when the attribute map is empty:
    strings for texts, identifiers, classes and targets, an int for a
    level or a start, a member of the value set for an enumerated field,
    and children that are canonical nodes of the required capability. *)

Definition level_ok (level : value) : bool :=
  match level with
  | VInt n => existsb (Z.eqb n) [1; 2; 3; 4; 5; 6]
  | _ => false
  end.

Definition start_ok (start : value) : bool :=
  match start with VInt n => 0 <=? n | _ => false end.

Definition enum_ok (names : list string) (x : value) : bool :=
  match x with VStr s => existsb (String.eqb s) names | _ => false end.

Definition ica_ok (identifier classes attributes : value) : bool :=
  is_str identifier
  && match classes with VList cs => forallb is_str cs | _ => false end
  && match attributes with VDict [] => true | _ => false end.

Fixpoint canonical_node (n : value) : bool :=
  let children (has_blocks : bool) (items : list value) :=
    forallb (fun x => canonical_node x
                      && isinstance_base x (capability has_blocks)) items in
  let rows (has_blocks : bool) (items : list value) :=
    forallb (fun row =>
               match row with
               | VList xs => children has_blocks xs
               | _ => false
               end) items in
  match n with
  | Null | Space | HorizontalRule | SoftBreak | LineBreak => true
  | Plain items | Para items | Emph items | Strong items | Strikeout items
  | Superscript items | Subscript items | SmallCaps items
  | MetaInlines items => children false items
  | BlockQuote items | Note items | MetaBlocks items => children true items
  | Header level items identifier classes attributes =>
      level_ok level && ica_ok identifier classes attributes
      && children false items
  | Div items identifier classes attributes =>
      ica_ok identifier classes attributes && children true items
  | Span items identifier classes attributes =>
      ica_ok identifier classes attributes && children false items
  | Quoted quote_type items =>
      enum_ok QUOTE_TYPES quote_type && children false items
  | Cite items citations =>
      match citations with [] => children false items | _ => false end
  | Link items url title identifier classes attributes
  | Image items url title identifier classes attributes =>
      is_str url && is_str title && ica_ok identifier classes attributes
      && children false items
  | Str text => is_str text
  | CodeBlock text identifier classes attributes
  | Code text identifier classes attributes =>
      is_str text && ica_ok identifier classes attributes
  | RawBlock text format | RawInline text format =>
      is_str text && enum_ok RAW_FORMATS format
  | Math format text => is_str text && enum_ok MATH_FORMATS format
  | BulletList items => rows true items
  | OrderedList items start style delimiter =>
      start_ok start && enum_ok LIST_NUMBER_STYLES style
      && enum_ok LIST_NUMBER_DELIMITERS delimiter && rows true items
  | DefinitionList items => match items with [] => true | _ => false end
  | _ => false
  end.

(** A node that survives the round trip: [to_json] gives plain data, the
    plain data is written out, and the decoder reads the node back. *)
Definition roundtrips (n : value) : Prop :=
  exists r w, to_json n = OK r /\ wire r = OK w /\ decode w = OK n.

(** ** The wire form of a node and of a metadata value *)

(** [w] is the tagged wire form of the node [n]: a tagged value named
    after the class of [n], of the shape of section 6 with its children
    tagged values in their turn, from which the decoder rebuilds [n]. *)
Definition node_form (n : value) (w : json) : Prop :=
  (exists content, w = JObj [("t", JStr (type_name n)); ("c", content)])
  /\ wire_shape w = true
  /\ decode w = OK n.

(** A canonical node whose encoding has the shape of section 6. *)
Definition shaped (n : value) : Prop :=
  canonical_node n = true ->
  exists r w, to_json n = OK r /\ wire r = OK w /\ wire_shape w = true.

(** The wire form of a metadata value, in the words of section 4.4 of
    the specification: a plain string passes through unchanged, a boolean
    wraps as [MetaBool], a sequence wraps as [MetaList] around the forms
    of its elements, an ordered map wraps as [MetaMap] around the map of
    its keys to the forms of its values, and a snippet wrapper is encoded
    as the node it is. *)
Local Unset Elimination Schemes.
Local Set Elimination Schemes.


(** * Notions of the further properties

    Predicates on Python values that the statements of the last part
    use. *)

(** ** Nested lists *)

(** [v] is a list nested [depth] levels deep whose leaves satisfy [p]: the
    leaf itself at depth 0, a list of leaves at depth 1, a list of rows at
    depth 2. *)
Fixpoint nested (depth : nat) (p : value -> bool) (v : value) : bool :=
  match depth with
  | O => p v
  | S d =>
      match v with
      | VList xs => forallb (nested d p) xs
      | _ => false
      end
  end.

(** ** Keys of a mapping *)

(** The keys of a Python mapping are hashable and pairwise different.
    [VDict] holds any list of entries; this is the condition under which
    the list is the content of a mapping. *)
Fixpoint distinct_keys (ks : list value) : bool :=
  match ks with
  | [] => true
  | k :: t => hashable k && negb (existsb (key_eqb k) t) && distinct_keys t
  end.

(** ** Metadata values *)

(** The keys of a metadata map: different strings, the first of them
    neither ["t"] nor ["unMeta"], the two names that [from_json] tests the
    first member of an object for. *)
Definition keys_ok (ks : list value) : bool :=
  forallb is_str ks && distinct_keys ks
  && match ks with
     | k :: _ => negb (eq_str k "t") && negb (eq_str k "unMeta")
     | [] => true
     end.

(** The metadata values: strings, booleans, lists and string-keyed maps
    of metadata values, and the two snippet wrappers around canonical
    children. *)
Fixpoint meta_ok (v : value) : bool :=
  match v with
  | VStr _ | VBool _ => true
  | VList l => forallb meta_ok l
  | VDict kvs =>
      keys_ok (map fst kvs) && forallb (fun '(_, x) => meta_ok x) kvs
  | MetaInlines _ | MetaBlocks _ => canonical_node v
  | _ => false
  end.

(** ** Numbers *)

(** [x] is a number equal to a non-negative integer: the values for which
    [x == int(x) and 0 <= x] holds. *)
Definition nonnegative_integer (x : value) : Prop :=
  exists n, 0 <= n /\ eq_int x n = true.

(** ** Entries of a mapping *)

(** An entry as [dict] meets it: the 2-tuple of [d.items()], or the
    2-element list read from a JSON array. *)
Definition entry_of (tuple : bool) (kv : value * value) : value :=
  if tuple then VTuple [fst kv; snd kv] else VList [fst kv; snd kv].

(** ** Round trip of a metadata value *)

(** A metadata value that survives the round trip: [metawalk] gives
    plain data, the plain data is written out, and the decoder reads the
    value back. *)
Definition meta_roundtrips (v : value) : Prop :=
  meta_ok v = true ->
  exists r w, metawalk v = OK r /\ wire r = OK w /\ decode w = OK v.

(** ** Well-built nodes *)

(** What the constructors guarantee of a node, whatever its scalar
    fields hold: every child is an instance of the base class that the
    parent requires and is well built itself, the rows of a list are
    lists, the attributes are a mapping, a [Cite] has no citation and a
    [DefinitionList] no entry. *)
Fixpoint well_built (n : value) : bool :=
  let children (has_blocks : bool) (items : list value) :=
    forallb (fun x => well_built x
                      && isinstance_base x (capability has_blocks)) items in
  let rows (has_blocks : bool) (items : list value) :=
    forallb (fun row =>
               match row with
               | VList xs => children has_blocks xs
               | _ => false
               end) items in
  match n with
  | Null | Space | HorizontalRule | SoftBreak | LineBreak => true
  | Plain items | Para items | Emph items | Strong items | Strikeout items
  | Superscript items | Subscript items | SmallCaps items
  | MetaInlines items => children false items
  | BlockQuote items | Note items | MetaBlocks items => children true items
  | Header _ items _ _ attributes => is_dict attributes && children false items
  | Div items _ _ attributes => is_dict attributes && children true items
  | Span items _ _ attributes => is_dict attributes && children false items
  | Quoted _ items => children false items
  | Cite items citations =>
      match citations with [] => children false items | _ => false end
  | Link items _ _ _ _ attributes
  | Image items _ _ _ _ attributes =>
      is_dict attributes && children false items
  | Str _ | RawBlock _ _ | RawInline _ _ | Math _ _ => true
  | CodeBlock _ _ _ attributes | Code _ _ _ attributes => is_dict attributes
  | BulletList items | OrderedList items _ _ _ => rows true items
  | DefinitionList items => match items with [] => true | _ => false end
  | _ => false
  end.

(** A node that [to_json] encodes. *)
Definition encodes (n : value) : Prop :=
  well_built n = true -> exists r, to_json n = OK r.

(** Children that resolve to well-built nodes. *)
Definition resolves_well (args : list value) : Prop :=
  Forall (fun x => forall x', resolve x = OK x' -> well_built x' = true) args.

(** * Properties *)

(** ** Sanity checks on concrete values *)

Example encode_Str_hello :
  encode (Str (VStr "hello")) = OK (JObj [("t", JStr "Str"); ("c", JStr "hello")]).
Proof. reflexivity. Qed.

Example decode_Str_hello :
  decode (JObj [("t", JStr "Str"); ("c", JStr "hello")]) = OK (Str (VStr "hello")).
Proof. reflexivity. Qed.

Example encode_Header_Title :
  (h <- Header_init [Str (VStr "Title")] (VInt 2) (VStr "sec1") VNone VNone ;;
   encode h)
  = OK (JObj [("t", JStr "Header");
              ("c", JArr [JInt 2; JArr [JStr "sec1"; JArr []; JArr []];
                          JArr [JObj [("t", JStr "Str"); ("c", JStr "Title")]]])]).
Proof. reflexivity. Qed.

Example decode_empty_metadata : decode (JObj []) = OK (VList []).
Proof. reflexivity. Qed.

Example split_dot_example :
  split_dot "format.show-frame" = ["format"; "show-frame"].
Proof. reflexivity. Qed.


(** ** Generic facts about [result] and [mapM] *)

Lemma bind_OK {A B} (r : result A) (k : A -> result B) (b : B) :
  bind r k = OK b -> exists a, r = OK a /\ k a = OK b.
Proof. destruct r as [a|e]; simpl; intros H; [eauto | discriminate]. Qed.

Lemma raised_Raise {A} (e : exn) : raised (@Raise A e).
Proof. exists e; reflexivity. Qed.

Lemma raised_bind {A B} (r : result A) (k : A -> result B) :
  (forall a, r = OK a -> raised (k a)) -> raised (bind r k).
Proof.
  destruct r as [a|e]; simpl; intros H; [now apply H | apply raised_Raise].
Qed.

Lemma raised_not_OK {A} (r : result A) (a : A) : raised r -> r <> OK a.
Proof. intros [e ->]; discriminate. Qed.

Lemma mapM_app {A B} (f : A -> result B) (l1 l2 : list A) :
  mapM f (l1 ++ l2)%list
  = (ys <- mapM f l1 ;; zs <- mapM f l2 ;; OK (ys ++ zs)%list).
Proof.
  induction l1 as [|x t IH]; simpl.
  - destruct (mapM f l2); reflexivity.
  - destruct (f x); simpl; [|reflexivity].
    rewrite IH. destruct (mapM f t); simpl; [|reflexivity].
    destruct (mapM f l2); reflexivity.
Qed.

Lemma mapM_OK_Forall2 {A B} (f : A -> result B) (l : list A) (ys : list B) :
  mapM f l = OK ys <-> Forall2 (fun x y => f x = OK y) l ys.
Proof.
  revert ys; induction l as [|x t IH]; intros ys; simpl.
  - split; intros H; [injection H as <-; constructor | inversion H; reflexivity].
  - split.
    + intros H. apply bind_OK in H as (y & Hy & H).
      apply bind_OK in H as (ys' & Hys & H). injection H as <-.
      constructor; [assumption | now apply IH].
    + intros H. inversion H as [|? y ? ys' Hy Hys]; subst.
      rewrite Hy; simpl. apply IH in Hys. rewrite Hys. reflexivity.
Qed.

Lemma mapM_first_raise {A B} (f : A -> result B) (pre post : list A)
      (x : A) (e : exn) :
  Forall (fun p => exists q, f p = OK q) pre ->
  f x = Raise e ->
  mapM f (pre ++ x :: post)%list = Raise e.
Proof.
  intros Hpre Hx. induction Hpre as [|p pre' [q Hq] _ IH]; simpl.
  - rewrite Hx. reflexivity.
  - rewrite Hq; simpl. rewrite IH. reflexivity.
Qed.

(** ** The zero-argument constructor calls

    [construct_default] was written out by hand; each of its lines is the
    class's [__init__] run on an empty argument tuple with the keyword
    defaults of its signature.  (The classes missing here have required
    parameters, or are [Table], for which see below.) *)

Lemma construct_default_spec :
  construct_default Class.Plain = Plain_init []
  /\ construct_default Class.Para = Para_init []
  /\ construct_default Class.BlockQuote = BlockQuote_init []
  /\ construct_default Class.Emph = Emph_init []
  /\ construct_default Class.Strong = Strong_init []
  /\ construct_default Class.Strikeout = Strikeout_init []
  /\ construct_default Class.Superscript = Superscript_init []
  /\ construct_default Class.Subscript = Subscript_init []
  /\ construct_default Class.SmallCaps = SmallCaps_init []
  /\ construct_default Class.Note = Note_init []
  /\ construct_default Class.Header = Header_init [] (VInt 1) (VStr "") VNone VNone
  /\ construct_default Class.Div = Div_init [] (VStr "") VNone VNone
  /\ construct_default Class.Span = Span_init [] (VStr "") VNone VNone
  /\ construct_default Class.Quoted = Quoted_init [] (VStr "DoubleQuote")
  /\ construct_default Class.BulletList = BulletList_init []
  /\ construct_default Class.OrderedList
     = OrderedList_init [] (VInt 1) (VStr "Decimal") (VStr "Period")
  /\ construct_default Class.DefinitionList = DefinitionList_init []
  /\ construct_default Class.MetaInlines = MetaInlines_init []
  /\ construct_default Class.MetaBlocks = MetaBlocks_init []
  /\ construct_default Class.Table = Table_init [] VNone VNone VNone VNone.
Proof. repeat split; reflexivity. Qed.

(** ** Table *)

(** No call of the constructor returns: with no body row [self.items[0]]
    is out of range, and otherwise the header is handed to [init_items]
    without the [args] parameter. *)
Lemma Table_init_raises (args : list value)
      (header caption alignment width : value) :
  raised (Table_init args header caption alignment width).
Proof.
  unfold Table_init.
  apply raised_bind; intros items _.
  apply raised_bind; intros first _.
  apply raised_bind; intros cols _.
  simpl. apply raised_Raise.
Qed.

Lemma init_items_nil (obj : value) (has_blocks : bool) (depth : Z) :
  existsb (Z.eqb depth) [1; 2; 3] = true ->
  init_items obj [] has_blocks depth = OK [].
Proof.
  intros H. unfold init_items. rewrite H. simpl.
  destruct (depth =? 1); [reflexivity|]. destruct (depth =? 2); reflexivity.
Qed.

(** C9. A Table built with no body row never returns a node: the
    constructor reads the first body row to count the columns, and on an
    empty [items] that subscript raises IndexError, which is none of the
    structural (assertion) errors. *)
Theorem Table_empty_body_IndexError (header caption alignment width : value) :
  Table_init [] header caption alignment width
  = Raise (IndexError "list index out of range").
Proof. reflexivity. Qed.

(** The first row of a validated body is a list of cells. *)
Lemma Table_body_rows (obj : value) (args : list value) (has_blocks : bool)
      (first : value) (rest : list value) :
  init_items obj args has_blocks 3 = OK (first :: rest) ->
  exists cells, first = VList cells.
Proof.
  intros E.
  change (init_items obj args has_blocks 3)
    with (mapM (fun z =>
                  zs <- iter z ;;
                  rows <- mapM (fun y =>
                                  ys <- iter y ;;
                                  row <- mapM (fun x => validate_item x has_blocks obj)
                                              ys ;;
                                  OK (VList row)) zs ;;
                  OK (VList rows)) args) in E.
  destruct args as [|z args]; [discriminate E|]. cbn [mapM] in E.
  apply bind_OK in E as (y & Hy & E). apply bind_OK in E as (ys & _ & E).
  injection E as <- <-.
  apply bind_OK in Hy as (zs & _ & Hy). apply bind_OK in Hy as (cells & _ & Hy).
  injection Hy as <-. now exists cells.
Qed.

(** The outcome of the constructor is decided by the validation of the
    body alone: the header, the caption, the alignment and the width are
    never looked at. *)
Lemma Table_init_outcome (args : list value)
      (header caption alignment width : value) :
  Table_init args header caption alignment width
  = match init_items (VClass Class.Table) args true 3 with
    | Raise e => Raise e
    | OK [] => Raise (IndexError "list index out of range")
    | OK (_ :: _) =>
        Raise (TypeError
                 "init_items() missing 1 required positional argument: 'args'")
    end.
Proof.
  unfold Table_init.
  destruct (init_items (VClass Class.Table) args true 3)
    as [[|first rest]|e] eqn:E; try reflexivity.
  destruct (Table_body_rows _ _ _ _ _ E) as (cells & ->). reflexivity.
Qed.

(** C4 (the failing constructor). Whatever the header, the alignment and
    the width are, a Table call whose body validates to at least one row
    raises the TypeError of the call [init_items(header, has_blocks=True,
    depth=2)], which lacks its first argument: the assertion
    [len(header) == self.cols] that follows it is never evaluated.  An
    assertion error can only come from the validation of the cells of the
    body: no violation of the geometry is ever reported as a structural
    error. *)
Theorem Table_geometry_check_unreached
        (args : list value) (header caption alignment width : value) :
  (forall first rest,
      init_items (VClass Class.Table) args true 3 = OK (first :: rest) ->
      Table_init args header caption alignment width
      = Raise (TypeError
                 "init_items() missing 1 required positional argument: 'args'"))
  /\ (forall m,
         Table_init args header caption alignment width
         = Raise (AssertionError m) ->
         init_items (VClass Class.Table) args true 3
         = Raise (AssertionError m)).
Proof.
  rewrite Table_init_outcome. split.
  - intros first rest ->. reflexivity.
  - intros m H.
    destruct (init_items (VClass Class.Table) args true 3) as [[|first rest]|e];
      [discriminate H | discriminate H | now injection H as ->].
Qed.

(** A header of 2 cells over a body row of 3 cells, an alignment sequence
    shorter than the column count, and a table whose geometry is right:
    the three calls fail alike, with the TypeError and not with an
    assertion error. *)
Lemma Table_geometry_check_unreached_witness :
  let cell := VList [Null] in
  let row := VList [cell; cell; cell] in
  let aligns := VList (repeat (VStr "AlignDefault") 3) in
  let widths := VList (repeat (VFloat 0 0) 3) in
  let unbound :=
    TypeError "init_items() missing 1 required positional argument: 'args'" in
  Table_init [row] (VList [cell; cell]) (VList []) aligns widths = Raise unbound
  /\ Table_init [row] row (VList []) (VList [VStr "AlignLeft"]) widths
     = Raise unbound
  /\ Table_init [row] row (VList []) aligns widths = Raise unbound.
Proof.
  intros cell row aligns widths unbound.
  split; [|split].
  - exact (proj1 (Table_geometry_check_unreached
                    [row] (VList [cell; cell]) (VList []) aligns widths)
                 row [] eq_refl).
  - exact (proj1 (Table_geometry_check_unreached
                    [row] row (VList []) (VList [VStr "AlignLeft"]) widths)
                 row [] eq_refl).
  - exact (proj1 (Table_geometry_check_unreached
                    [row] row (VList []) aligns widths)
                 row [] eq_refl).
Defined.



(** ** Unknown tags *)

Lemma from_json_tag_unknown (s : string) (c : value) :
  known_tag s = false ->
  from_json_tag (VStr s) c = Raise (Exception ("unknown tag " ++ s)).
Proof.
  unfold known_tag, KNOWN_TAGS, SPECIAL_ELEMENTS, LIST_NUMBER_STYLES,
    LIST_NUMBER_DELIMITERS, MATH_FORMATS, TABLE_ALIGNMENT, QUOTE_TYPES,
    CITATION_MODE.
  cbn [existsb app]. intros H.
  repeat match type of H with
         | (_ || _)%bool = false =>
             let E := fresh "E" in
             apply orb_false_iff in H; destruct H as [E H]
         end.
  unfold from_json_tag, in_set, SPECIAL_ELEMENTS, LIST_NUMBER_STYLES,
    LIST_NUMBER_DELIMITERS, MATH_FORMATS, TABLE_ALIGNMENT, QUOTE_TYPES,
    CITATION_MODE.
  cbn [eq_str hashable existsb app bind].
  repeat match goal with
         | E : (s =? _)%string = false |- _ => rewrite E; clear E
         end.
  reflexivity.
Qed.

(** C6. A tagged value whose tag string is neither a node kind, nor a
    metadata kind, nor an enumeration name never decodes to a value:
    [from_json] raises the "unknown tag" exception of its last branch, and
    so does the decoder when the content itself decodes; no wire object
    that starts with such a tag is decoded to anything. *)
Theorem decode_unknown_tag (s : string) :
  known_tag s = false ->
  (forall c more,
      from_json (("t", VStr s) :: ("c", c) :: more)
      = Raise (Exception ("unknown tag " ++ s)))
  /\ (forall members, raised (decode (JObj (("t", JStr s) :: members))))
  /\ (forall content c,
         decode content = OK c ->
         decode (JObj [("t", JStr s); ("c", content)])
         = Raise (Exception ("unknown tag " ++ s))).
Proof.
  intros H. split; [|split].
  - intros c more. cbn. now apply from_json_tag_unknown.
  - intros members. cbn [decode mapM bind].
    match goal with |- context [mapM ?f members] => destruct (mapM f members) as [data|e] end;
      cbn [bind]; [|apply raised_Raise].
    unfold from_json. cbn [String.eqb Ascii.eqb Bool.eqb negb].
    destruct data as [|[key1 value1] data]; [apply raised_Raise|].
    apply raised_bind; intros _ _.
    rewrite (from_json_tag_unknown s value1 H). apply raised_Raise.
  - intros content c Hc. cbn [decode mapM bind]. rewrite Hc.
    cbn. now apply from_json_tag_unknown.
Qed.

Lemma decode_unknown_tag_witness :
  known_tag "FutureBlock" = false
  /\ decode (JObj [("t", JStr "FutureBlock"); ("c", JArr [])])
     = Raise (Exception "unknown tag FutureBlock").
Proof.
  split; [reflexivity|].
  exact (proj2 (proj2 (decode_unknown_tag "FutureBlock" eq_refl))
               (JArr []) (VList []) eq_refl).
Defined.

(** ** Capability of the children of a container *)

Lemma validate_item_accepted (has_blocks : bool) (obj x x' : value) :
  accepted has_blocks x x' -> validate_item x has_blocks obj = OK x'.
Proof.
  intros [Hr Hi]. unfold validate_item. unfold resolve in Hr. rewrite Hr.
  simpl. unfold capability in Hi. rewrite Hi. reflexivity.
Qed.

Lemma validate_item_rejected (has_blocks : bool) (c : Class.t) (x x' : value) :
  resolve x = OK x' ->
  isinstance_base x' (capability has_blocks) = false ->
  validate_item x has_blocks (VClass c)
  = Raise (AssertionError
             (message_item (Class.name c) (capability_name has_blocks)
                           (type_name x') x')).
Proof.
  intros Hr Hi. unfold validate_item. unfold resolve in Hr. rewrite Hr.
  simpl. unfold capability in Hi. rewrite Hi.
  destruct has_blocks; reflexivity.
Qed.

Lemma init_items_rejected (has_blocks : bool) (c : Class.t)
      (pre post : list value) (x x' : value) :
  Forall (fun p => exists p', accepted has_blocks p p') pre ->
  resolve x = OK x' ->
  isinstance_base x' (capability has_blocks) = false ->
  init_items (VClass c) (pre ++ x :: post) has_blocks 1
  = Raise (AssertionError
             (message_item (Class.name c) (capability_name has_blocks)
                           (type_name x') x')).
Proof.
  intros Hpre Hr Hi. unfold init_items. simpl.
  apply mapM_first_raise.
  - eapply Forall_impl; [|exact Hpre].
    intros p [p' Hp]. exists p'. now apply validate_item_accepted.
  - now apply validate_item_rejected.
Qed.

Lemma init_items_accepted (has_blocks : bool) (obj : value)
      (args items : list value) :
  Forall2 (accepted has_blocks) args items ->
  init_items obj args has_blocks 1 = OK items.
Proof.
  intros H. unfold init_items. simpl. apply mapM_OK_Forall2.
  eapply Forall2_impl; [|exact H].
  intros a b Hab. now apply validate_item_accepted.
Qed.

(** C7. For every kind that holds a sequence of children, called with
    keywords that the constructor accepts on an empty sequence: when the
    first child that is not accepted resolves to a value without the
    capability the parent requires ([Inline] for [Para] and the like,
    [Block] for [BlockQuote], [Note], [Div] and [MetaBlocks]), the
    constructor raises the assertion error whose message names the parent
    class, the expected capability and the class of the child; when every
    child resolves to an instance with the capability, the constructor
    returns the node holding the resolved children. *)
Theorem container_capability_enforced
        (k : container) (kw : keywords) (empty : value) :
  construct k [] kw = OK empty ->
  (forall pre x post x',
      Forall (fun p => exists p', accepted (has_blocks_of k) p p') pre ->
      resolve x = OK x' ->
      isinstance_base x' (capability (has_blocks_of k)) = false ->
      construct k (pre ++ x :: post) kw
      = Raise (AssertionError
                 (message_item (Class.name (container_class k))
                               (capability_name (has_blocks_of k))
                               (type_name x') x')))
  /\ (forall args items,
         Forall2 (accepted (has_blocks_of k)) args items ->
         construct k args kw = OK (with_items empty items)).
Proof.
  intros H0. split.
  - intros pre x post x' Hpre Hr Hi.
    pose proof (init_items_rejected (has_blocks_of k) (container_class k)
                                    pre post x x' Hpre Hr Hi) as E.
    destruct k; cbn [construct container_class has_blocks_of] in *;
      unfold Plain_init, Para_init, BlockQuote_init, Emph_init, Strong_init,
        Strikeout_init, Superscript_init, Subscript_init, SmallCaps_init,
        Note_init, Header_init, Div_init, Span_init, Quoted_init, Cite_init,
        Link_init, Image_init, MetaInlines_init, MetaBlocks_init in *;
      repeat first
        [ rewrite E; reflexivity
        | match type of H0 with
          | bind _ _ = OK _ =>
              let a := fresh "a" in
              let Ha := fresh "Ha" in
              apply bind_OK in H0 as (a & Ha & H0);
              try rewrite Ha; cbn [bind];
              repeat match goal with
                     | p : (_ * _)%type |- _ => destruct p
                     end
          end ].
  - intros args items H.
    pose proof (fun obj => init_items_accepted (has_blocks_of k) obj
                                               args items H) as E.
    destruct k; cbn [construct has_blocks_of] in *;
      unfold Plain_init, Para_init, BlockQuote_init, Emph_init, Strong_init,
        Strikeout_init, Superscript_init, Subscript_init, SmallCaps_init,
        Note_init, Header_init, Div_init, Span_init, Quoted_init, Cite_init,
        Link_init, Image_init, MetaInlines_init, MetaBlocks_init in *;
      repeat match type of H0 with
             | bind _ _ = OK _ =>
                 let a := fresh "a" in
                 let Ha := fresh "Ha" in
                 apply bind_OK in H0 as (a & Ha & H0);
                 try rewrite Ha; try rewrite E; cbn [bind];
                 repeat match goal with
                        | p : (_ * _)%type |- _ => destruct p
                        end
             end;
      injection H0 as <-; reflexivity.
Qed.

(** A paragraph with a nested [Div] is refused, and so is a block quote
    with a [Str]; [Para(Space, Str("a"))], whose first argument is the
    class itself, is accepted, and so is a level-2 header. *)
Lemma container_capability_enforced_witness :
  let kw := {| kw_level := VInt 2; kw_identifier := VStr "sec1";
               kw_classes := VNone; kw_attributes := VNone;
               kw_quote_type := VStr "DoubleQuote"; kw_citations := VList [];
               kw_url := VStr ""; kw_title := VStr "" |} in
  Para_init [Space; Div [] (VStr "") (VList []) (VDict []); Space]
  = Raise (AssertionError
             (message_item "Para" "Inline" "Div"
                           (Div [] (VStr "") (VList []) (VDict []))))
  /\ BlockQuote_init [Str (VStr "a")]
     = Raise (AssertionError
                (message_item "BlockQuote" "Block" "Str" (Str (VStr "a"))))
  /\ Para_init [VClass Class.Space; Str (VStr "a")]
     = OK (Para [Space; Str (VStr "a")])
  /\ Header_init [Str (VStr "Title")] (VInt 2) (VStr "sec1") VNone VNone
     = OK (Header (VInt 2) [Str (VStr "Title")] (VStr "sec1") (VList [])
                  (VDict [])).
Proof.
  intros kw. split; [|split; [|split]].
  - refine (proj1 (container_capability_enforced CPara kw (Para []) eq_refl)
                  [Space] (Div [] (VStr "") (VList []) (VDict [])) [Space]
                  (Div [] (VStr "") (VList []) (VDict [])) _ eq_refl eq_refl).
    constructor; [|constructor]. exists Space. split; reflexivity.
  - exact (proj1 (container_capability_enforced
                    CBlockQuote kw (BlockQuote []) eq_refl)
                 [] (Str (VStr "a")) [] (Str (VStr "a"))
                 (Forall_nil _) eq_refl eq_refl).
  - refine (proj2 (container_capability_enforced CPara kw (Para []) eq_refl)
                  [VClass Class.Space; Str (VStr "a")]
                  [Space; Str (VStr "a")] _).
    repeat constructor.
  - refine (proj2 (container_capability_enforced
                     CHeader kw
                     (Header (VInt 2) [] (VStr "sec1") (VList []) (VDict []))
                     eq_refl)
                  [Str (VStr "Title")] [Str (VStr "Title")] _).
    repeat constructor.
Defined.

(** ** Metadata lookup *)

Lemma get_metadata_loop_lookup_path (segments : list string)
      (meta default : value) :
  maps_along segments meta = true ->
  get_metadata_loop segments meta default
  = OK (match lookup_path segments meta with Some v => v | None => default end).
Proof.
  revert meta. induction segments as [|segment segments IH]; intros meta H.
  - reflexivity.
  - destruct meta; try discriminate H. cbn in H |- *.
    destruct (dict_get kvs (VStr segment)) as [v|]; cbn; [|reflexivity].
    now apply IH.
Qed.

(** C8 (as amended). On a metadata tree in which every value met before
    the last segment of the path is an ordered map, [get_metadata] returns
    what the dotted-path lookup of the specification returns: the default
    the first time a segment is missing, the stored value otherwise. *)
Theorem get_metadata_lookup (metadata : list (value * value))
        (items format : value) (request : string) (default : value) :
  maps_along (split_dot request) (VDict metadata) = true ->
  get_metadata (Doc metadata items format) request default
  = OK (lookup metadata request default).
Proof.
  intros H. unfold get_metadata, lookup.
  now apply get_metadata_loop_lookup_path.
Qed.

(** The three cases of the specification's example: ["format"] absent,
    ["format"] present without ["show-frame"], and the stored [true]. *)
Lemma get_metadata_lookup_witness :
  let doc metadata := Doc metadata (VList []) (VStr "latex") in
  get_metadata (doc []) "format.show-frame" (VBool false) = OK (VBool false)
  /\ get_metadata (doc [(VStr "format", VDict [(VStr "other", VBool true)])])
                  "format.show-frame" (VBool false) = OK (VBool false)
  /\ get_metadata (doc [(VStr "format", VDict [(VStr "show-frame", VBool true)])])
                  "format.show-frame" (VBool false) = OK (VBool true).
Proof.
  cbv zeta. split; [|split].
  - exact (get_metadata_lookup [] (VList []) (VStr "latex")
                               "format.show-frame" (VBool false) eq_refl).
  - exact (get_metadata_lookup
             [(VStr "format", VDict [(VStr "other", VBool true)])]
             (VList []) (VStr "latex") "format.show-frame" (VBool false)
             eq_refl).
  - exact (get_metadata_lookup
             [(VStr "format", VDict [(VStr "show-frame", VBool true)])]
             (VList []) (VStr "latex") "format.show-frame" (VBool false)
             eq_refl).
Defined.

(** C8 (counterexample). With the metadata [{"format": true}] the segment
    ["show-frame"] is missing below ["format"], and the lookup of the
    specification gives the default; [get_metadata] tests
    ['show-frame' not in True] and raises TypeError. *)
Lemma get_metadata_not_lookup :
  let doc := Doc [(VStr "format", VBool true)] (VList []) (VStr "latex") in
  lookup [(VStr "format", VBool true)] "format.show-frame" (VBool false)
  = VBool false
  /\ get_metadata doc "format.show-frame" (VBool false)
     = Raise (TypeError "argument of type 'bool' is not iterable")
  /\ get_metadata doc "format.show-frame" (VBool false)
     <> OK (lookup [(VStr "format", VBool true)] "format.show-frame" (VBool false)).
Proof. cbv zeta. repeat split; [reflexivity..|discriminate]. Qed.

(** ** Enumerated values on the wire *)

Lemma wire_tagged_enum (name : string) :
  wire (tagged_enum (VStr name)) = OK (JObj [("t", JStr name); ("c", JArr [])]).
Proof. reflexivity. Qed.

(** C5 (as amended). The quote type of [Quoted], the mode of a [Citation],
    the format of [Math], the style and the delimiter of [OrderedList] and
    every alignment of a [Table] stand in the encoded content in the bare
    tagged form, which is written [{"t": name, "c": []}]; the format of
    [RawBlock] and of [RawInline] stands there as the bare string. *)
Theorem enumerated_fields_encoding :
  (forall quote_type items c,
      encode_content (Quoted quote_type items) = OK c ->
      exists items', c = VList [tagged_enum quote_type; items'])
  /\ (forall h i mode n p s c,
         encode_content (Citation h i mode n p s) = OK c ->
         exists d, c = VDict d
                   /\ dict_get d (VStr "citationMode") = Some (tagged_enum mode))
  /\ (forall format text,
         encode_content (Math format text)
         = OK (VList [tagged_enum format; text]))
  /\ (forall items start style delimiter c,
         encode_content (OrderedList items start style delimiter) = OK c ->
         exists items',
           c = VList [VList [start; tagged_enum style; tagged_enum delimiter];
                      items'])
  /\ (forall items header caption alignment width rows cols c,
         encode_content (Table items header caption (VList alignment) width
                               rows cols) = OK c ->
         exists caption' header' items',
           c = VList [caption'; VList (map tagged_enum alignment); width;
                      header'; items'])
  /\ (forall name,
         wire (tagged_enum (VStr name))
         = OK (JObj [("t", JStr name); ("c", JArr [])]))
  /\ (forall text format,
         encode_content (RawBlock text format) = OK (VList [format; text]))
  /\ (forall text format,
         encode_content (RawInline text format) = OK (VList [format; text])).
Proof.
  repeat split.
  - intros quote_type items c H. cbn [encode_content] in H.
    apply bind_OK in H as (items' & _ & H). injection H as <-. now exists items'.
  - intros h i mode n p s c H. cbn [encode_content] in H.
    apply bind_OK in H as (suffix & _ & H).
    apply bind_OK in H as (prefix & _ & H). injection H as <-.
    eexists; split; reflexivity.
  - intros items start style delimiter c H. cbn [encode_content] in H.
    apply bind_OK in H as (items' & _ & H). injection H as <-. now exists items'.
  - intros items header caption alignment width rows cols c H.
    cbn [encode_content] in H.
    apply bind_OK in H as (caption' & _ & H). cbn [iter bind] in H.
    apply bind_OK in H as (header' & _ & H).
    apply bind_OK in H as (items' & _ & H). injection H as <-.
    now exists (VList caption'), (VList header'), items'.
Qed.

Lemma enumerated_fields_encoding_witness :
  encode_content (Quoted (VStr "SingleQuote") [Space])
  = OK (VList [tagged_enum (VStr "SingleQuote");
               VList [encode_dict (VStr "Space") (VList [])]])
  /\ exists items',
      VList [tagged_enum (VStr "SingleQuote");
             VList [encode_dict (VStr "Space") (VList [])]]
      = VList [tagged_enum (VStr "SingleQuote"); items'].
Proof.
  split; [reflexivity|].
  exact (proj1 enumerated_fields_encoding (VStr "SingleQuote") [Space] _
               eq_refl).
Defined.

(** C5 (counterexample). The format of a raw block is an enumerated
    field, and its encoding is the string ["html"], not the tagged form. *)
Lemma RawBlock_format_not_tagged :
  RawBlock_init (VStr "<b>") (VStr "html") = OK (RawBlock (VStr "<b>") (VStr "html"))
  /\ encode (RawBlock (VStr "<b>") (VStr "html"))
     = OK (JObj [("t", JStr "RawBlock"); ("c", JArr [JStr "html"; JStr "<b>"])])
  /\ encode_content (RawBlock (VStr "<b>") (VStr "html"))
     <> OK (VList [tagged_enum (VStr "html"); VStr "<b>"]).
Proof. repeat split; [reflexivity..|discriminate]. Qed.

(** ** Round trip through the wire: nodes *)

(** C1 (evaluation at the failing input). A code block with one attribute
    is constructible and encodes to the attribute triple of section 6, but
    the decoder hands the decoded list of pairs to [init_ica] as it is, and
    [init_ica] asserts a dict: decoding the encoding raises.  The module's
    own [decode_ica] turns the same pairs into the mapping, and a node
    without attributes makes the round trip. *)
Theorem roundtrip_fails_on_attributes :
  let n := CodeBlock (VStr "x") (VStr "") (VList []) (VDict [(VStr "k", VStr "v")]) in
  let w := JObj [("t", JStr "CodeBlock");
                 ("c", JArr [JArr [JStr ""; JArr [];
                                   JArr [JArr [JStr "k"; JStr "v"]]];
                             JStr "x"])] in
  CodeBlock_init (VStr "x") (VStr "") VNone (VDict [(VStr "k", VStr "v")]) = OK n
  /\ encode n = OK w
  /\ decode w = Raise (AssertionError no_message)
  /\ decode_ica (VList [VStr ""; VList []; VList [VList [VStr "k"; VStr "v"]]])
     = OK (VStr "", VList [], VDict [(VStr "k", VStr "v")])
  /\ (n' <- CodeBlock_init (VStr "x") (VStr "") VNone VNone ;;
      w' <- encode n' ;; decode w')
     = OK (CodeBlock (VStr "x") (VStr "") (VList []) (VDict [])).
Proof. cbv zeta. repeat split; reflexivity. Qed.

(** ** Round trip through the wire: wire values *)

Example wire_shape_Header :
  wire_shape (JObj [("t", JStr "Header");
                    ("c", JArr [JInt 2; JArr [JStr "sec1"; JArr []; JArr []];
                                JArr [JObj [("t", JStr "Str"); ("c", JStr "Title")]]])])
  = true.
Proof. reflexivity. Qed.

(** C2 (counterexample). The tagged metadata string is a well-formed wire
    value that the decoder accepts; it decodes to the bare string, and
    the encoding of a string, through [encode] as through [metawalk], is
    the string ([to_json] itself has no encoding for it). *)
Lemma MetaString_not_restored :
  let w := JObj [("t", JStr "MetaString"); ("c", JStr "abc")] in
  wire_shape w = true
  /\ decode w = OK (VStr "abc")
  /\ encode (VStr "abc") = OK (JStr "abc")
  /\ (r <- metawalk (VStr "abc") ;; wire r) = OK (JStr "abc")
  /\ raised (to_json (VStr "abc"))
  /\ ~ (forall v, decode w = OK v -> encode v = OK w).
Proof.
  cbv zeta. repeat split; try reflexivity.
  - apply raised_Raise.
  - intros H. specialize (H (VStr "abc") eq_refl). discriminate H.
Qed.

(** *** Induction on wire values *)

Section Everywhere_facts.

Variable P : json -> Prop.

Lemma everywhere_here (w : json) : everywhere P w -> P w.
Proof. destruct w; intros H; apply H. Qed.

Lemma everywhere_elements (l : list json) :
  everywhere P (JArr l) -> Forall (everywhere P) l.
Proof.
  intros [_ H]. induction l as [|x t IH]; constructor.
  - apply H.
  - apply IH, H.
Qed.

Lemma everywhere_members (l : list (string * json)) :
  everywhere P (JObj l) -> Forall (fun m => everywhere P (snd m)) l.
Proof.
  intros [_ H]. induction l as [|[k x] t IH]; constructor.
  - apply H.
  - apply IH, H.
Qed.

Hypothesis step :
  forall w,
    match w with
    | JArr elements => Forall (everywhere P) elements
    | JObj members => Forall (fun m => everywhere P (snd m)) members
    | _ => True
    end -> P w.

Lemma everywhere_of_Forall (w : json) :
  P w ->
  match w with
  | JArr elements => Forall (everywhere P) elements
  | JObj members => Forall (fun m => everywhere P (snd m)) members
  | _ => True
  end -> everywhere P w.
Proof.
  intros HP inside.
  destruct w as [| | | | |elements|members]; cbn; (split; [exact HP|]);
    clear HP; try exact I.
  - induction inside as [|x t Hx _ IHt]; [exact I | split; assumption].
  - induction inside as [|[k x] t Hx _ IHt]; [exact I | split; assumption].
Qed.

Lemma everywhere_intro : forall w, everywhere P w.
Proof.
  fix IH 1. intros w.
  assert (inside :
    match w with
    | JArr elements => Forall (everywhere P) elements
    | JObj members => Forall (fun m => everywhere P (snd m)) members
    | _ => True
    end).
  { destruct w as [| | | | |elements|members]; try exact I.
    - exact ((fix each (l : list json) : Forall (everywhere P) l :=
                match l with
                | [] => Forall_nil _
                | x :: t => Forall_cons x (IH x) (each t)
                end) elements).
    - exact ((fix each (l : list (string * json))
                : Forall (fun m => everywhere P (snd m)) l :=
                match l with
                | [] => Forall_nil _
                | (k, x) :: t => Forall_cons (k, x) (IH x) (each t)
                end) members). }
  apply everywhere_of_Forall; [now apply step | exact inside].
Qed.

End Everywhere_facts.

(** *** Decoded children *)

Lemma decode_tagged (tag : string) (content : json) :
  decode (JObj [("t", JStr tag); ("c", content)])
  = (c <- decode content ;; from_json_tag (VStr tag) c).
Proof. cbn [decode mapM bind]. destruct (decode content); reflexivity. Qed.

Lemma encode_via_to_json (v : value) (k : Class.t) :
  class_of v = Some k -> k <> Class.Doc ->
  encode v = (r <- to_json v ;; wire r).
Proof.
  intros Hk Hdoc. destruct v; try discriminate Hk; try reflexivity.
  injection Hk as <-. now elim Hdoc.
Qed.

Lemma isinstance_class (v : value) (has_blocks : bool) :
  isinstance_base v (capability has_blocks) = true ->
  exists k, class_of v = Some k /\ k <> Class.Doc.
Proof.
  unfold isinstance_base. destruct (class_of v) as [k|].
  - intros H. exists k. split; [reflexivity|]. intros ->.
    destruct has_blocks; discriminate H.
  - destruct has_blocks; discriminate.
Qed.

Lemma validate_item_decoded (v : value) (has_blocks : bool) (obj i : value) :
  callable v = false ->
  validate_item v has_blocks obj = OK i ->
  i = v /\ isinstance_base v (capability has_blocks) = true.
Proof.
  intros Hc. unfold validate_item. rewrite Hc. cbn [bind].
  unfold capability.
  destruct (isinstance_base v (if has_blocks then Class.Block else Class.Inline)).
  - intros H. injection H as <-. split; reflexivity.
  - destruct (error_message v has_blocks obj); discriminate.
Qed.

Lemma init_items_1 (obj : value) (args : list value) (has_blocks : bool) :
  init_items obj args has_blocks 1
  = mapM (fun x => validate_item x has_blocks obj) args.
Proof. reflexivity. Qed.

Lemma init_items_2 (obj : value) (args : list value) (has_blocks : bool) :
  init_items obj args has_blocks 2
  = mapM (fun y =>
            ys <- iter y ;;
            row <- mapM (fun x => validate_item x has_blocks obj) ys ;;
            OK (VList row)) args.
Proof. reflexivity. Qed.

Lemma children_restored (has_blocks : bool) (obj : value) (ws : list json) :
  Forall restores ws ->
  forallb wire_shape ws = true ->
  forall vs items,
    mapM decode ws = OK vs ->
    mapM (fun x => validate_item x has_blocks obj) vs = OK items ->
    items = vs
    /\ exists rs, mapM to_json vs = OK rs /\ mapM wire rs = OK ws.
Proof.
  induction 1 as [|w ws Hw _ IH]; intros Hshape vs items Hdec Hval.
  - injection Hdec as <-. injection Hval as <-.
    split; [reflexivity|]. exists []. split; reflexivity.
  - cbn [forallb] in Hshape. apply andb_true_iff in Hshape as [Sw Sws].
    cbn [mapM] in Hdec.
    apply bind_OK in Hdec as (v & Hv & Hdec).
    apply bind_OK in Hdec as (vs' & Hvs & Hdec). injection Hdec as <-.
    cbn [mapM] in Hval.
    apply bind_OK in Hval as (i & Hi & Hval).
    apply bind_OK in Hval as (items' & Hitems & Hval). injection Hval as <-.
    destruct (Hw Sw v Hv) as (Hcall & _ & Henc).
    destruct (validate_item_decoded _ _ _ _ Hcall Hi) as [-> Hinst].
    destruct (isinstance_class _ _ Hinst) as (k & Hk & Hdoc).
    assert (E : encode v = OK w) by (apply Henc; rewrite Hk; discriminate).
    rewrite (encode_via_to_json v k Hk Hdoc) in E.
    apply bind_OK in E as (r & Hr & Hwire).
    destruct (IH Sws vs' items' Hvs Hitems) as (-> & rs & Hrs & Hwires).
    split; [reflexivity|]. exists (r :: rs). cbn [mapM].
    rewrite Hr, Hrs, Hwire, Hwires. split; reflexivity.
Qed.

Lemma rows_restored (has_blocks : bool) (obj : value) (rs : list json) :
  Forall (everywhere restores) rs ->
  forallb (nodes wire_shape) rs = true ->
  forall vs items,
    mapM decode rs = OK vs ->
    mapM (fun y =>
            ys <- iter y ;;
            row <- mapM (fun x => validate_item x has_blocks obj) ys ;;
            OK (VList row)) vs = OK items ->
    items = vs
    /\ exists es, mapM (encode_row to_json) vs = OK es /\ mapM wire es = OK rs.
Proof.
  induction 1 as [|r rs Hr _ IH]; intros Hshape vs items Hdec Hval.
  - injection Hdec as <-. injection Hval as <-.
    split; [reflexivity|]. exists []. split; reflexivity.
  - cbn [forallb] in Hshape. apply andb_true_iff in Hshape as [Sr Srs].
    destruct r as [| | | | |ws|]; try discriminate Sr. cbn [nodes] in Sr.
    apply everywhere_elements in Hr.
    assert (Hws : Forall restores ws).
    { eapply Forall_impl; [|exact Hr]. intros a. apply everywhere_here. }
    cbn [mapM decode] in Hdec. fold (mapM decode ws) in Hdec.
    apply bind_OK in Hdec as (v & Hv & Hdec).
    apply bind_OK in Hv as (xs & Hxs & Hv). injection Hv as <-.
    apply bind_OK in Hdec as (vs' & Hvs & Hdec). injection Hdec as <-.
    cbn [mapM iter bind] in Hval.
    apply bind_OK in Hval as (i & Hi & Hval).
    apply bind_OK in Hi as (row & Hrow & Hi). injection Hi as <-.
    apply bind_OK in Hval as (items' & Hitems & Hval). injection Hval as <-.
    destruct (children_restored _ _ ws Hws Sr xs row Hxs Hrow)
      as (-> & ts & Hts & Hwts).
    destruct (IH Srs vs' items' Hvs Hitems) as (-> & es & Hes & Hwes).
    split; [reflexivity|]. exists (VList ts :: es).
    cbn [mapM encode_row]. rewrite Hts. cbn [bind]. rewrite Hes. cbn [bind].
    split; [reflexivity|].
    cbn [wire]. fold (mapM wire ts). rewrite Hwts. cbn [bind].
    rewrite Hwes. reflexivity.
Qed.

(** *** The branches of [from_json], one equation per tag *)

Lemma from_json_tag_Null (c : value) :
  from_json_tag (VStr "Null") c
  = OK Null.
Proof. reflexivity. Qed.

Lemma from_json_tag_Space (c : value) :
  from_json_tag (VStr "Space") c
  = OK Space.
Proof. reflexivity. Qed.

Lemma from_json_tag_HorizontalRule (c : value) :
  from_json_tag (VStr "HorizontalRule") c
  = OK HorizontalRule.
Proof. reflexivity. Qed.

Lemma from_json_tag_SoftBreak (c : value) :
  from_json_tag (VStr "SoftBreak") c
  = OK SoftBreak.
Proof. reflexivity. Qed.

Lemma from_json_tag_LineBreak (c : value) :
  from_json_tag (VStr "LineBreak") c
  = OK LineBreak.
Proof. reflexivity. Qed.

Lemma from_json_tag_Plain (c : value) :
  from_json_tag (VStr "Plain") c
  = (args <- iter c ;; Plain_init args).
Proof. reflexivity. Qed.

Lemma from_json_tag_Para (c : value) :
  from_json_tag (VStr "Para") c
  = (args <- iter c ;; Para_init args).
Proof. reflexivity. Qed.

Lemma from_json_tag_BlockQuote (c : value) :
  from_json_tag (VStr "BlockQuote") c
  = (args <- iter c ;; BlockQuote_init args).
Proof. reflexivity. Qed.

Lemma from_json_tag_Emph (c : value) :
  from_json_tag (VStr "Emph") c
  = (args <- iter c ;; Emph_init args).
Proof. reflexivity. Qed.

Lemma from_json_tag_Strong (c : value) :
  from_json_tag (VStr "Strong") c
  = (args <- iter c ;; Strong_init args).
Proof. reflexivity. Qed.

Lemma from_json_tag_Strikeout (c : value) :
  from_json_tag (VStr "Strikeout") c
  = (args <- iter c ;; Strikeout_init args).
Proof. reflexivity. Qed.

Lemma from_json_tag_Superscript (c : value) :
  from_json_tag (VStr "Superscript") c
  = (args <- iter c ;; Superscript_init args).
Proof. reflexivity. Qed.

Lemma from_json_tag_Subscript (c : value) :
  from_json_tag (VStr "Subscript") c
  = (args <- iter c ;; Subscript_init args).
Proof. reflexivity. Qed.

Lemma from_json_tag_SmallCaps (c : value) :
  from_json_tag (VStr "SmallCaps") c
  = (args <- iter c ;; SmallCaps_init args).
Proof. reflexivity. Qed.

Lemma from_json_tag_Note (c : value) :
  from_json_tag (VStr "Note") c
  = (args <- iter c ;; Note_init args).
Proof. reflexivity. Qed.

Lemma from_json_tag_Header (c : value) :
  from_json_tag (VStr "Header") c
  = (c2 <- getitem c 2 ;;
     level <- getitem c 0 ;;
     identifier <- getitem2 c 1 0 ;;
     classes <- getitem2 c 1 1 ;;
     attributes <- getitem2 c 1 2 ;;
     args <- iter c2 ;;
     Header_init args level identifier classes attributes).
Proof. reflexivity. Qed.

Lemma from_json_tag_Div (c : value) :
  from_json_tag (VStr "Div") c
  = (c1 <- getitem c 1 ;;
     identifier <- getitem2 c 0 0 ;;
     classes <- getitem2 c 0 1 ;;
     attributes <- getitem2 c 0 2 ;;
     args <- iter c1 ;;
     Div_init args identifier classes attributes).
Proof. reflexivity. Qed.

Lemma from_json_tag_Span (c : value) :
  from_json_tag (VStr "Span") c
  = (c1 <- getitem c 1 ;;
     identifier <- getitem2 c 0 0 ;;
     classes <- getitem2 c 0 1 ;;
     attributes <- getitem2 c 0 2 ;;
     args <- iter c1 ;;
     Span_init args identifier classes attributes).
Proof. reflexivity. Qed.

Lemma from_json_tag_Quoted (c : value) :
  from_json_tag (VStr "Quoted") c
  = (c1 <- getitem c 1 ;;
     quote_type <- getitem c 0 ;;
     args <- iter c1 ;;
     Quoted_init args quote_type).
Proof. reflexivity. Qed.

Lemma from_json_tag_Cite (c : value) :
  from_json_tag (VStr "Cite") c
  = (c1 <- getitem c 1 ;;
     citations <- getitem c 0 ;;
     args <- iter c1 ;;
     Cite_init args citations).
Proof. reflexivity. Qed.

Lemma from_json_tag_Link (c : value) :
  from_json_tag (VStr "Link") c
  = (c1 <- getitem c 1 ;;
     url <- getitem2 c 2 0 ;;
     title <- getitem2 c 2 1 ;;
     identifier <- getitem2 c 0 0 ;;
     classes <- getitem2 c 0 1 ;;
     attributes <- getitem2 c 0 2 ;;
     args <- iter c1 ;;
     Link_init args url title identifier classes attributes).
Proof. reflexivity. Qed.

Lemma from_json_tag_Image (c : value) :
  from_json_tag (VStr "Image") c
  = (c1 <- getitem c 1 ;;
     url <- getitem2 c 2 0 ;;
     title <- getitem2 c 2 1 ;;
     identifier <- getitem2 c 0 0 ;;
     classes <- getitem2 c 0 1 ;;
     attributes <- getitem2 c 0 2 ;;
     args <- iter c1 ;;
     Image_init args url title identifier classes attributes).
Proof. reflexivity. Qed.

Lemma from_json_tag_Str (c : value) :
  from_json_tag (VStr "Str") c
  = Str_init c.
Proof. reflexivity. Qed.

Lemma from_json_tag_CodeBlock (c : value) :
  from_json_tag (VStr "CodeBlock") c
  = (text <- getitem c 1 ;;
     identifier <- getitem2 c 0 0 ;;
     classes <- getitem2 c 0 1 ;;
     attributes <- getitem2 c 0 2 ;;
     CodeBlock_init text identifier classes attributes).
Proof. reflexivity. Qed.

Lemma from_json_tag_RawBlock (c : value) :
  from_json_tag (VStr "RawBlock") c
  = (text <- getitem c 1 ;;
     format <- getitem c 0 ;;
     RawBlock_init text format).
Proof. reflexivity. Qed.

Lemma from_json_tag_Code (c : value) :
  from_json_tag (VStr "Code") c
  = (text <- getitem c 1 ;;
     identifier <- getitem2 c 0 0 ;;
     classes <- getitem2 c 0 1 ;;
     attributes <- getitem2 c 0 2 ;;
     Code_init text identifier classes attributes).
Proof. reflexivity. Qed.

Lemma from_json_tag_Math (c : value) :
  from_json_tag (VStr "Math") c
  = (text <- getitem c 1 ;;
     format <- getitem c 0 ;;
     Math_init text format).
Proof. reflexivity. Qed.

Lemma from_json_tag_RawInline (c : value) :
  from_json_tag (VStr "RawInline") c
  = (text <- getitem c 1 ;;
     format <- getitem c 0 ;;
     RawInline_init text format).
Proof. reflexivity. Qed.

Lemma from_json_tag_BulletList (c : value) :
  from_json_tag (VStr "BulletList") c
  = (args <- iter c ;; BulletList_init args).
Proof. reflexivity. Qed.

Lemma from_json_tag_OrderedList (c : value) :
  from_json_tag (VStr "OrderedList") c
  = (c1 <- getitem c 1 ;;
     start <- getitem2 c 0 0 ;;
     style <- getitem2 c 0 1 ;;
     delimiter <- getitem2 c 0 2 ;;
     args <- iter c1 ;;
     OrderedList_init args start style delimiter).
Proof. reflexivity. Qed.

Lemma from_json_tag_DefinitionList (c : value) :
  from_json_tag (VStr "DefinitionList") c
  = (args <- iter c ;; DefinitionList_init args).
Proof. reflexivity. Qed.

Lemma from_json_tag_Table (c : value) :
  from_json_tag (VStr "Table") c
  = (c4 <- getitem c 4 ;;
     caption <- getitem c 0 ;;
     alignment <- getitem c 1 ;;
     width <- getitem c 2 ;;
     header <- getitem c 3 ;;
     args <- iter c4 ;;
     Table_init args header caption alignment width).
Proof. reflexivity. Qed.

Lemma from_json_tag_MetaList (c : value) :
  from_json_tag (VStr "MetaList") c
  = OK c.
Proof. reflexivity. Qed.

Lemma from_json_tag_MetaMap (c : value) :
  from_json_tag (VStr "MetaMap") c
  = (d <- OrderedDict c ;; OK (VDict d)).
Proof. reflexivity. Qed.

Lemma from_json_tag_MetaInlines (c : value) :
  from_json_tag (VStr "MetaInlines") c
  = (args <- iter c ;; MetaInlines_init args).
Proof. reflexivity. Qed.

Lemma from_json_tag_MetaBlocks (c : value) :
  from_json_tag (VStr "MetaBlocks") c
  = (args <- iter c ;; MetaBlocks_init args).
Proof. reflexivity. Qed.

Lemma from_json_tag_MetaString (c : value) :
  from_json_tag (VStr "MetaString") c
  = OK c.
Proof. reflexivity. Qed.

(** *** Decoded fields *)

Lemma mapM_nil_inv {A B} (f : A -> result B) (l : list A) :
  mapM f l = OK [] -> l = [].
Proof.
  destruct l as [|x t]; [reflexivity|]. cbn [mapM]. intros H.
  apply bind_OK in H as (y & _ & H). apply bind_OK in H as (ys & _ & H).
  discriminate H.
Qed.

Lemma strs_decoded (l : list json) :
  forallb str_shape l = true ->
  forall vs, mapM decode l = OK vs ->
             forallb is_str vs = true /\ mapM wire vs = OK l.
Proof.
  induction l as [|w l IH]; intros Hs vs Hdec.
  - injection Hdec as <-. split; reflexivity.
  - cbn [forallb] in Hs. apply andb_true_iff in Hs as [Sw Sl].
    destruct w; try discriminate Sw.
    cbn [mapM decode bind] in Hdec.
    apply bind_OK in Hdec as (vs' & Hvs & Hdec). injection Hdec as <-.
    destruct (IH Sl vs' Hvs) as [Hstr Hwire].
    cbn [forallb is_str mapM wire bind]. rewrite Hstr, Hwire.
    split; reflexivity.
Qed.

(** The attribute triple: the decoder passes the decoded list of pairs as
    [attributes], and [init_ica] only lets the empty one through. *)
Lemma attr_restored (a : json) (av : value) :
  attr_shape a = true ->
  decode a = OK av ->
  exists identifier classes attributes,
    av = VList [VStr identifier; VList classes; VList attributes]
    /\ forall ica,
        init_ica (VStr identifier) (VList classes) (VList attributes) = OK ica ->
        ica = (VStr identifier, VList classes, VDict [])
        /\ wire (VList [VStr identifier; VList classes; VList []]) = OK a.
Proof.
  intros Hs Hdec.
  destruct a as [| | | | |l|]; try discriminate Hs.
  destruct l as [|i l]; try discriminate Hs.
  destruct i as [| | | |identifier| |]; try discriminate Hs.
  destruct l as [|c l]; try discriminate Hs.
  destruct c as [| | | | |classes|]; try discriminate Hs.
  destruct l as [|p l]; try discriminate Hs.
  destruct p as [| | | | |attributes|]; try discriminate Hs.
  destruct l; try discriminate Hs.
  cbn [attr_shape] in Hs. apply andb_true_iff in Hs as [Sc _].
  cbn [decode mapM bind] in Hdec.
  fold (mapM decode classes) in Hdec. fold (mapM decode attributes) in Hdec.
  destruct (mapM decode classes) as [cvs|] eqn:Hcvs; [|discriminate Hdec].
  destruct (mapM decode attributes) as [pvs|] eqn:Hpvs; [|discriminate Hdec].
  cbn [bind] in Hdec. injection Hdec as <-.
  exists identifier, cvs, pvs. split; [reflexivity|].
  intros ica Hica.
  destruct (strs_decoded classes Sc cvs Hcvs) as [Hstr Hwire].
  destruct pvs as [|pair pvs].
  - apply mapM_nil_inv in Hpvs as ->.
    unfold init_ica in Hica. cbn [truthy is_str is_dict assert bind iter] in Hica.
    assert (E : (if match cvs with [] => false | _ :: _ => true end
                 then VList cvs else VList []) = VList cvs)
      by (destruct cvs; reflexivity).
    rewrite E in Hica. cbn [iter bind] in Hica. rewrite Hstr in Hica.
    cbn [assert bind] in Hica. injection Hica as <-.
    split; [reflexivity|].
    cbn [wire mapM bind]. fold (mapM wire cvs). rewrite Hwire. reflexivity.
  - unfold init_ica in Hica. cbn [truthy is_str is_dict assert bind] in Hica.
    discriminate Hica.
Qed.

Lemma special_tags_decode :
  Forall (fun name => forall c, from_json_tag (VStr name) c = OK (VStr name))
         SPECIAL_ELEMENTS.
Proof.
  unfold SPECIAL_ELEMENTS, LIST_NUMBER_STYLES, LIST_NUMBER_DELIMITERS,
    MATH_FORMATS, TABLE_ALIGNMENT, QUOTE_TYPES, CITATION_MODE.
  cbn [app].
  repeat (apply Forall_cons; [intros c; reflexivity|]). apply Forall_nil.
Qed.

(** An enumerated value in its place decodes to its bare name. *)
Lemma enum_restored (names : list string) (w : json) (v : value) :
  incl names SPECIAL_ELEMENTS ->
  enum_shape names w = true ->
  decode w = OK v ->
  exists name,
    v = VStr name
    /\ existsb (String.eqb name) names = true
    /\ wire (tagged_enum (VStr name)) = OK w.
Proof.
  intros Hincl Hs Hdec.
  destruct w as [| | | | | |members]; try discriminate Hs.
  destruct members as [|[t wt] members]; try discriminate Hs.
  destruct wt as [| | | |name| |]; try discriminate Hs.
  destruct members as [|[c wc] members]; try discriminate Hs.
  destruct wc as [| | | | |l|]; try discriminate Hs.
  destruct l; try discriminate Hs.
  destruct members; try discriminate Hs.
  cbn [enum_shape] in Hs.
  apply andb_true_iff in Hs as [Hs Hin]. apply andb_true_iff in Hs as [Ht Hc].
  apply String.eqb_eq in Ht as ->. apply String.eqb_eq in Hc as ->.
  rewrite decode_tagged in Hdec. cbn [decode mapM bind] in Hdec.
  pose proof Hin as Hin'. apply existsb_exists in Hin' as (x & Hx & E).
  apply String.eqb_eq in E as <-.
  pose proof (proj1 (Forall_forall _ _) special_tags_decode name
                    (Hincl name Hx) (VList [])) as D.
  rewrite D in Hdec. injection Hdec as <-.
  exists name. split; [reflexivity|]. split; [exact Hin | reflexivity].
Qed.

Lemma validate_enum (name : string) (names : list string) :
  existsb (String.eqb name) names = true ->
  validate (VStr name) (Some (set_of names)) None = OK (VStr name).
Proof.
  intros H. unfold validate, contains, in_set. cbn [hashable bind].
  change (existsb (eq_str (VStr name)) names)
    with (existsb (String.eqb name) names).
  rewrite H. reflexivity.
Qed.

(** *** The kinds, one group at a time *)

Lemma nodes_inv (c : json) :
  nodes wire_shape c = true ->
  everywhere restores c ->
  exists ws, c = JArr ws /\ forallb wire_shape ws = true /\ Forall restores ws.
Proof.
  intros Hs He. destruct c as [| | | | |ws|]; try discriminate Hs.
  exists ws. split; [reflexivity|]. split; [exact Hs|].
  apply everywhere_elements in He.
  eapply Forall_impl; [|exact He]. intros a. apply everywhere_here.
Qed.

Lemma rows_inv (c : json) :
  rows wire_shape c = true ->
  everywhere restores c ->
  exists rs, c = JArr rs
             /\ forallb (nodes wire_shape) rs = true
             /\ Forall (everywhere restores) rs.
Proof.
  intros Hs He. destruct c as [| | | | |rs|]; try discriminate Hs.
  exists rs. split; [reflexivity|]. split; [exact Hs|].
  now apply everywhere_elements.
Qed.

Lemma decode_JArr (ws : list json) :
  decode (JArr ws) = (xs <- mapM decode ws ;; OK (VList xs)).
Proof. reflexivity. Qed.

Lemma wire_VList (xs : list value) :
  wire (VList xs) = (l <- mapM wire xs ;; OK (JArr l)).
Proof. reflexivity. Qed.

Lemma wire_tagged (tag : string) (content : value) :
  wire (encode_dict (VStr tag) content)
  = (w <- wire content ;; OK (JObj [("t", JStr tag); ("c", w)])).
Proof.
  unfold encode_dict. cbn [wire mapM member_name bind].
  destruct (wire content); reflexivity.
Qed.

Lemma encode_items_flat (tag : Class.t) (items rs : list value) :
  match tag with
  | Class.BulletList | Class.OrderedList | Class.DefinitionList
  | Class.Table => False
  | _ => True
  end ->
  mapM to_json items = OK rs ->
  encode_items to_json tag items = OK (VList rs).
Proof.
  intros Htag H. destruct tag; try contradiction; cbn [encode_items];
    rewrite H; reflexivity.
Qed.

Lemma encode_items_rows (tag : Class.t) (items es : list value) :
  tag = Class.BulletList \/ tag = Class.OrderedList ->
  mapM (encode_row to_json) items = OK es ->
  encode_items to_json tag items = OK (VList es).
Proof.
  intros [-> | ->] H; cbn [encode_items]; rewrite H; reflexivity.
Qed.

(** The last steps of every case: the decoded value is an instance, and
    its encoding is computed from the encodings of its parts. *)
Ltac instance_restored :=
  split; [reflexivity|]; split; [discriminate|]; intros _;
  erewrite encode_via_to_json by (reflexivity || discriminate);
  unfold to_json at 1; unfold to_json_with;
  cbn [encode_content encode_ica items_of map bind];
  change (to_json_with encode_content metawalk) with to_json.

Lemma leaf_restored (tag : string) (cv v : value) :
  leaf_tag tag = true ->
  from_json_tag (VStr tag) cv = OK v ->
  restored (JObj [("t", JStr tag); ("c", JArr [])]) v.
Proof.
  intros Htag Hv. unfold leaf_tag in Htag. cbn [existsb] in Htag.
  repeat (apply orb_true_iff in Htag as [Htag|Htag]);
    try discriminate Htag; apply String.eqb_eq in Htag; subst tag;
    cbn in Hv; injection Hv as <-; repeat split; discriminate.
Qed.

Lemma container_restored (tag : string) (ws : list json) (cv v : value) :
  container_tag tag = true ->
  Forall restores ws ->
  forallb wire_shape ws = true ->
  decode (JArr ws) = OK cv ->
  from_json_tag (VStr tag) cv = OK v ->
  restored (JObj [("t", JStr tag); ("c", JArr ws)]) v.
Proof.
  intros Htag Hws Sws Hdec Hv.
  rewrite decode_JArr in Hdec.
  apply bind_OK in Hdec as (vs & Hvs & E). injection E as <-.
  unfold container_tag in Htag. cbn [existsb] in Htag.
  repeat (apply orb_true_iff in Htag as [Htag|Htag]);
    try discriminate Htag; apply String.eqb_eq in Htag; subst tag;
    first [ rewrite from_json_tag_Plain in Hv
          | rewrite from_json_tag_Para in Hv
          | rewrite from_json_tag_BlockQuote in Hv
          | rewrite from_json_tag_Emph in Hv
          | rewrite from_json_tag_Strong in Hv
          | rewrite from_json_tag_Strikeout in Hv
          | rewrite from_json_tag_Superscript in Hv
          | rewrite from_json_tag_Subscript in Hv
          | rewrite from_json_tag_SmallCaps in Hv
          | rewrite from_json_tag_Note in Hv
          | rewrite from_json_tag_MetaInlines in Hv
          | rewrite from_json_tag_MetaBlocks in Hv ];
    cbn [iter bind] in Hv;
    unfold Plain_init, Para_init, BlockQuote_init, Emph_init, Strong_init,
      Strikeout_init, Superscript_init, Subscript_init, SmallCaps_init,
      Note_init, MetaInlines_init, MetaBlocks_init in Hv;
    rewrite init_items_1 in Hv;
    apply bind_OK in Hv as (items & Hitems & E); injection E as <-;
    destruct (children_restored _ _ ws Hws Sws vs items Hvs Hitems)
      as (-> & rs & Hrs & Hwrs);
    instance_restored;
    erewrite encode_items_flat by (exact I || exact Hrs);
    cbn [bind type_name class_of Class.name];
    rewrite wire_tagged, wire_VList, Hwrs; reflexivity.
Qed.

Lemma validate_OK (x : value) (g : option group)
      (i : option (value -> bool)) (y : value) :
  validate x g i = OK y -> y = x.
Proof.
  unfold validate. destruct g as [g|]; [|destruct i as [i|]]; intros H.
  - apply bind_OK in H as (b & _ & H). apply bind_OK in H as (u & _ & H).
    now injection H.
  - apply bind_OK in H as (u & _ & H). now injection H.
  - discriminate H.
Qed.

Lemma everywhere_3 (a b c : json) :
  everywhere restores (JArr [a; b; c]) ->
  everywhere restores a /\ everywhere restores b /\ everywhere restores c.
Proof.
  intros H. apply everywhere_elements in H.
  inversion H as [|? ? Ha H1]; subst. inversion H1 as [|? ? Hb H2]; subst.
  inversion H2 as [|? ? Hc _]; subst. now repeat split.
Qed.

Lemma everywhere_2 (a b : json) :
  everywhere restores (JArr [a; b]) ->
  everywhere restores a /\ everywhere restores b.
Proof.
  intros H. apply everywhere_elements in H.
  inversion H as [|? ? Ha H1]; subst. inversion H1 as [|? ? Hb _]; subst.
  now split.
Qed.

Lemma Header_restored (content : json) (cv v : value) :
  everywhere restores content ->
  match content with
  | JArr [JInt _; attr; children] =>
      attr_shape attr && nodes wire_shape children
  | _ => false
  end = true ->
  decode content = OK cv ->
  from_json_tag (VStr "Header") cv = OK v ->
  restored (JObj [("t", JStr "Header"); ("c", content)]) v.
Proof.
  intros He Hs Hdec Hv.
  destruct content as [| | | | |l|]; try discriminate Hs.
  destruct l as [|lv l]; try discriminate Hs.
  destruct lv as [| |n| | | |]; try discriminate Hs.
  destruct l as [|attr l]; try discriminate Hs.
  destruct l as [|children l]; try discriminate Hs.
  destruct l; try discriminate Hs.
  apply andb_true_iff in Hs as [Sattr Sch].
  apply everywhere_3 in He as (_ & _ & Hch).
  destruct (nodes_inv children Sch Hch) as (ws & -> & Sws & Hws).
  rewrite decode_JArr in Hdec. cbn [mapM] in Hdec.
  rewrite decode_JArr in Hdec.
  destruct (decode attr) as [av|] eqn:Hav; [|discriminate Hdec].
  destruct (mapM decode ws) as [vs|] eqn:Hvs; [|discriminate Hdec].
  cbn [decode bind] in Hdec. injection Hdec as <-.
  destruct (attr_restored attr av Sattr Hav)
    as (identifier & classes & attributes & -> & Hattr).
  rewrite from_json_tag_Header in Hv.
  cbn [getitem getitem2 nth_error iter bind] in Hv.
  unfold Header_init in Hv.
  apply bind_OK in Hv as (level & Hlevel & Hv).
  apply validate_OK in Hlevel as ->.
  apply bind_OK in Hv as (ica & Hica & Hv).
  destruct (Hattr ica Hica) as [-> Hwattr].
  rewrite init_items_1 in Hv.
  apply bind_OK in Hv as (items & Hitems & E). injection E as <-.
  destruct (children_restored _ _ ws Hws Sws vs items Hvs Hitems)
    as (-> & rs & Hrs & Hwrs).
  instance_restored.
  erewrite encode_items_flat by (exact I || exact Hrs).
  cbn [bind type_name class_of Class.name].
  rewrite wire_tagged, wire_VList. cbn [mapM].
  rewrite Hwattr, wire_VList, Hwrs. reflexivity.
Qed.

Lemma attributed_restored (tag : string) (content : json) (cv v : value) :
  tag = "Div" \/ tag = "Span" ->
  everywhere restores content ->
  match content with
  | JArr [attr; children] => attr_shape attr && nodes wire_shape children
  | _ => false
  end = true ->
  decode content = OK cv ->
  from_json_tag (VStr tag) cv = OK v ->
  restored (JObj [("t", JStr tag); ("c", content)]) v.
Proof.
  intros Htag He Hs Hdec Hv.
  destruct content as [| | | | |l|]; try discriminate Hs.
  destruct l as [|attr l]; try discriminate Hs.
  destruct l as [|children l]; try discriminate Hs.
  destruct l; try discriminate Hs.
  apply andb_true_iff in Hs as [Sattr Sch].
  apply everywhere_2 in He as (_ & Hch).
  destruct (nodes_inv children Sch Hch) as (ws & -> & Sws & Hws).
  rewrite decode_JArr in Hdec. cbn [mapM] in Hdec.
  rewrite decode_JArr in Hdec.
  destruct (decode attr) as [av|] eqn:Hav; [|discriminate Hdec].
  destruct (mapM decode ws) as [vs|] eqn:Hvs; [|discriminate Hdec].
  cbn [bind] in Hdec. injection Hdec as <-.
  destruct (attr_restored attr av Sattr Hav)
    as (identifier & classes & attributes & -> & Hattr).
  destruct Htag as [-> | ->];
    [rewrite from_json_tag_Div in Hv | rewrite from_json_tag_Span in Hv];
    cbn [getitem getitem2 nth_error iter bind] in Hv;
    unfold Div_init, Span_init in Hv;
    apply bind_OK in Hv as (ica & Hica & Hv);
    destruct (Hattr ica Hica) as [-> Hwattr];
    rewrite init_items_1 in Hv;
    apply bind_OK in Hv as (items & Hitems & E); injection E as <-;
    destruct (children_restored _ _ ws Hws Sws vs items Hvs Hitems)
      as (-> & rs & Hrs & Hwrs);
    instance_restored;
    erewrite encode_items_flat by (exact I || exact Hrs);
    cbn [bind type_name class_of Class.name];
    rewrite wire_tagged, wire_VList; cbn [mapM];
    rewrite Hwattr, wire_VList, Hwrs; reflexivity.
Qed.

Lemma target_restored (tag : string) (content : json) (cv v : value) :
  tag = "Link" \/ tag = "Image" ->
  everywhere restores content ->
  match content with
  | JArr [attr; children; JArr [JStr _; JStr _]] =>
      attr_shape attr && nodes wire_shape children
  | _ => false
  end = true ->
  decode content = OK cv ->
  from_json_tag (VStr tag) cv = OK v ->
  restored (JObj [("t", JStr tag); ("c", content)]) v.
Proof.
  intros Htag He Hs Hdec Hv.
  destruct content as [| | | | |l|]; try discriminate Hs.
  destruct l as [|attr l]; try discriminate Hs.
  destruct l as [|children l]; try discriminate Hs.
  destruct l as [|ut l]; try discriminate Hs.
  destruct ut as [| | | | |ut|]; try discriminate Hs.
  destruct ut as [|url ut]; try discriminate Hs.
  destruct url as [| | | |url| |]; try discriminate Hs.
  destruct ut as [|title ut]; try discriminate Hs.
  destruct title as [| | | |title| |]; try discriminate Hs.
  destruct ut; try discriminate Hs.
  destruct l; try discriminate Hs.
  apply andb_true_iff in Hs as [Sattr Sch].
  apply everywhere_3 in He as (_ & Hch & _).
  destruct (nodes_inv children Sch Hch) as (ws & -> & Sws & Hws).
  rewrite decode_JArr in Hdec. cbn [mapM] in Hdec.
  rewrite decode_JArr in Hdec.
  destruct (decode attr) as [av|] eqn:Hav; [|discriminate Hdec].
  destruct (mapM decode ws) as [vs|] eqn:Hvs; [|discriminate Hdec].
  cbn [bind decode mapM] in Hdec. injection Hdec as <-.
  destruct (attr_restored attr av Sattr Hav)
    as (identifier & classes & attributes & -> & Hattr).
  destruct Htag as [-> | ->];
    [rewrite from_json_tag_Link in Hv | rewrite from_json_tag_Image in Hv];
    cbn [getitem getitem2 nth_error iter bind] in Hv;
    unfold Link_init, Image_init in Hv;
    rewrite init_items_1 in Hv;
    apply bind_OK in Hv as (items & Hitems & Hv);
    destruct (children_restored _ _ ws Hws Sws vs items Hvs Hitems)
      as (-> & rs & Hrs & Hwrs);
    cbn [init_ut validate is_str assert bind] in Hv;
    apply bind_OK in Hv as (ica & Hica & Hv);
    destruct (Hattr ica Hica) as [-> Hwattr];
    injection Hv as <-;
    instance_restored;
    erewrite encode_items_flat by (exact I || exact Hrs);
    cbn [bind type_name class_of Class.name];
    rewrite wire_tagged, wire_VList; cbn [mapM];
    rewrite Hwattr, wire_VList, Hwrs; reflexivity.
Qed.

Lemma code_restored (tag : string) (content : json) (cv v : value) :
  tag = "CodeBlock" \/ tag = "Code" ->
  match content with
  | JArr [attr; JStr _] => attr_shape attr
  | _ => false
  end = true ->
  decode content = OK cv ->
  from_json_tag (VStr tag) cv = OK v ->
  restored (JObj [("t", JStr tag); ("c", content)]) v.
Proof.
  intros Htag Hs Hdec Hv.
  destruct content as [| | | | |l|]; try discriminate Hs.
  destruct l as [|attr l]; try discriminate Hs.
  destruct l as [|text l]; try discriminate Hs.
  destruct text as [| | | |text| |]; try discriminate Hs.
  destruct l; try discriminate Hs.
  rewrite decode_JArr in Hdec. cbn [mapM] in Hdec.
  destruct (decode attr) as [av|] eqn:Hav; [|discriminate Hdec].
  cbn [bind decode] in Hdec. injection Hdec as <-.
  destruct (attr_restored attr av Hs Hav)
    as (identifier & classes & attributes & -> & Hattr).
  destruct Htag as [-> | ->];
    [rewrite from_json_tag_CodeBlock in Hv | rewrite from_json_tag_Code in Hv];
    cbn [getitem getitem2 nth_error iter bind] in Hv;
    unfold CodeBlock_init, Code_init in Hv;
    cbn [validate is_str assert bind] in Hv;
    apply bind_OK in Hv as (ica & Hica & Hv);
    destruct (Hattr ica Hica) as [-> Hwattr];
    injection Hv as <-;
    instance_restored;
    cbn [bind type_name class_of Class.name];
    rewrite wire_tagged, wire_VList; cbn [mapM];
    rewrite Hwattr; reflexivity.
Qed.

Lemma Str_restored (content : json) (cv v : value) :
  str_shape content = true ->
  decode content = OK cv ->
  from_json_tag (VStr "Str") cv = OK v ->
  restored (JObj [("t", JStr "Str"); ("c", content)]) v.
Proof.
  intros Hs Hdec Hv. destruct content; try discriminate Hs.
  injection Hdec as <-. rewrite from_json_tag_Str in Hv.
  injection Hv as <-. repeat split; discriminate.
Qed.

Lemma raw_restored (tag : string) (content : json) (cv v : value) :
  tag = "RawBlock" \/ tag = "RawInline" ->
  match content with
  | JArr [JStr _; JStr _] => true
  | _ => false
  end = true ->
  decode content = OK cv ->
  from_json_tag (VStr tag) cv = OK v ->
  restored (JObj [("t", JStr tag); ("c", content)]) v.
Proof.
  intros Htag Hs Hdec Hv.
  destruct content as [| | | | |l|]; try discriminate Hs.
  destruct l as [|format l]; try discriminate Hs.
  destruct format as [| | | |format| |]; try discriminate Hs.
  destruct l as [|text l]; try discriminate Hs.
  destruct text as [| | | |text| |]; try discriminate Hs.
  destruct l; try discriminate Hs.
  injection Hdec as <-.
  destruct Htag as [-> | ->];
    [rewrite from_json_tag_RawBlock in Hv | rewrite from_json_tag_RawInline in Hv];
    cbn [getitem getitem2 nth_error iter bind] in Hv;
    unfold RawBlock_init, RawInline_init in Hv;
    apply bind_OK in Hv as (text' & Htext & Hv);
    apply validate_OK in Htext as ->;
    apply bind_OK in Hv as (format' & Hformat & Hv);
    apply validate_OK in Hformat as ->;
    injection Hv as <-; repeat split; discriminate.
Qed.

Lemma incl_names (l l' : list string) :
  forallb (fun x => existsb (String.eqb x) l') l = true -> incl l l'.
Proof.
  intros H x Hx. rewrite forallb_forall in H. specialize (H x Hx).
  apply existsb_exists in H as (y & Hy & E).
  apply String.eqb_eq in E as ->. exact Hy.
Qed.

Lemma enum_sets_special :
  incl QUOTE_TYPES SPECIAL_ELEMENTS
  /\ incl MATH_FORMATS SPECIAL_ELEMENTS
  /\ incl LIST_NUMBER_STYLES SPECIAL_ELEMENTS
  /\ incl LIST_NUMBER_DELIMITERS SPECIAL_ELEMENTS.
Proof.
  repeat split; apply incl_names; reflexivity.
Qed.

Lemma Quoted_restored (content : json) (cv v : value) :
  everywhere restores content ->
  match content with
  | JArr [quote_type; children] =>
      enum_shape QUOTE_TYPES quote_type && nodes wire_shape children
  | _ => false
  end = true ->
  decode content = OK cv ->
  from_json_tag (VStr "Quoted") cv = OK v ->
  restored (JObj [("t", JStr "Quoted"); ("c", content)]) v.
Proof.
  intros He Hs Hdec Hv.
  destruct content as [| | | | |l|]; try discriminate Hs.
  destruct l as [|quote_type l]; try discriminate Hs.
  destruct l as [|children l]; try discriminate Hs.
  destruct l; try discriminate Hs.
  apply andb_true_iff in Hs as [Sq Sch].
  apply everywhere_2 in He as (_ & Hch).
  destruct (nodes_inv children Sch Hch) as (ws & -> & Sws & Hws).
  rewrite decode_JArr in Hdec. cbn [mapM] in Hdec.
  rewrite decode_JArr in Hdec.
  destruct (decode quote_type) as [qv|] eqn:Hqv; [|discriminate Hdec].
  destruct (mapM decode ws) as [vs|] eqn:Hvs; [|discriminate Hdec].
  cbn [bind] in Hdec. injection Hdec as <-.
  destruct (enum_restored _ _ _ (proj1 enum_sets_special) Sq Hqv)
    as (name & -> & Hname & Hwq).
  rewrite from_json_tag_Quoted in Hv.
  cbn [getitem nth_error iter bind] in Hv.
  unfold Quoted_init in Hv. rewrite (validate_enum _ _ Hname) in Hv.
  cbn [bind] in Hv. rewrite init_items_1 in Hv.
  apply bind_OK in Hv as (items & Hitems & E). injection E as <-.
  destruct (children_restored _ _ ws Hws Sws vs items Hvs Hitems)
    as (-> & rs & Hrs & Hwrs).
  instance_restored.
  erewrite encode_items_flat by (exact I || exact Hrs).
  cbn [bind type_name class_of Class.name].
  rewrite wire_tagged, wire_VList. cbn [mapM].
  change (encode_dict (VStr name) (VList [])) with (tagged_enum (VStr name)).
  rewrite Hwq, wire_VList, Hwrs. reflexivity.
Qed.

Lemma Math_restored (content : json) (cv v : value) :
  match content with
  | JArr [format; JStr _] => enum_shape MATH_FORMATS format
  | _ => false
  end = true ->
  decode content = OK cv ->
  from_json_tag (VStr "Math") cv = OK v ->
  restored (JObj [("t", JStr "Math"); ("c", content)]) v.
Proof.
  intros Hs Hdec Hv.
  destruct content as [| | | | |l|]; try discriminate Hs.
  destruct l as [|format l]; try discriminate Hs.
  destruct l as [|text l]; try discriminate Hs.
  destruct text as [| | | |text| |]; try discriminate Hs.
  destruct l; try discriminate Hs.
  rewrite decode_JArr in Hdec. cbn [mapM] in Hdec.
  destruct (decode format) as [fv|] eqn:Hfv; [|discriminate Hdec].
  cbn [bind decode] in Hdec. injection Hdec as <-.
  destruct (enum_restored _ _ _ (proj1 (proj2 enum_sets_special)) Hs Hfv)
    as (name & -> & Hname & Hwf).
  rewrite from_json_tag_Math in Hv.
  cbn [getitem nth_error bind] in Hv.
  unfold Math_init in Hv.
  apply bind_OK in Hv as (text' & Htext & Hv). apply validate_OK in Htext as ->.
  rewrite (validate_enum _ _ Hname) in Hv. injection Hv as <-.
  instance_restored. cbn [bind type_name class_of Class.name].
  rewrite wire_tagged, wire_VList. cbn [mapM].
  change (encode_dict (VStr name) (VList [])) with (tagged_enum (VStr name)).
  rewrite Hwf. reflexivity.
Qed.

(** A citation is never built: [Citation.__init__] hands its prefix to
    [init_items] without the [args] parameter. *)
Lemma Citation_of_raises (c : value) : raised (Citation_of c).
Proof.
  unfold Citation_of.
  apply raised_bind; intros kw _. apply raised_bind; intros bound _.
  destruct bound as [|h [|i [|m [|n [|p [|s [|]]]]]]]; try apply raised_Raise.
  unfold Citation_init. apply raised_bind; intros mode _.
  apply raised_Raise.
Qed.

Lemma mapM_raised_nil {A B} (f : A -> result B) (l : list A) (ys : list B) :
  (forall x, raised (f x)) -> mapM f l = OK ys -> l = [].
Proof.
  intros Hf H. destruct l as [|x t]; [reflexivity|].
  cbn [mapM] in H. destruct (Hf x) as [e E]. rewrite E in H. discriminate H.
Qed.

Lemma Cite_restored (content : json) (cv v : value) :
  everywhere restores content ->
  match content with
  | JArr [JArr citations; children] =>
      forallb (citation_shape wire_shape) citations && nodes wire_shape children
  | _ => false
  end = true ->
  decode content = OK cv ->
  from_json_tag (VStr "Cite") cv = OK v ->
  restored (JObj [("t", JStr "Cite"); ("c", content)]) v.
Proof.
  intros He Hs Hdec Hv.
  destruct content as [| | | | |l|]; try discriminate Hs.
  destruct l as [|citations l]; try discriminate Hs.
  destruct citations as [| | | | |citations|]; try discriminate Hs.
  destruct l as [|children l]; try discriminate Hs.
  destruct l; try discriminate Hs.
  apply andb_true_iff in Hs as [_ Sch].
  apply everywhere_2 in He as (_ & Hch).
  destruct (nodes_inv children Sch Hch) as (ws & -> & Sws & Hws).
  rewrite decode_JArr in Hdec. cbn [mapM] in Hdec.
  rewrite !decode_JArr in Hdec.
  destruct (mapM decode citations) as [cs|] eqn:Hcs; [|discriminate Hdec].
  destruct (mapM decode ws) as [vs|] eqn:Hvs; [|discriminate Hdec].
  cbn [bind] in Hdec. injection Hdec as <-.
  rewrite from_json_tag_Cite in Hv.
  cbn [getitem nth_error iter bind] in Hv.
  unfold Cite_init in Hv. cbn [iter bind] in Hv.
  apply bind_OK in Hv as (cits & Hcits & Hv).
  pose proof (mapM_raised_nil _ _ _ Citation_of_raises Hcits) as ->.
  apply mapM_nil_inv in Hcs as ->.
  injection Hcits as <-.
  rewrite init_items_1 in Hv.
  apply bind_OK in Hv as (items & Hitems & E). injection E as <-.
  destruct (children_restored _ _ ws Hws Sws vs items Hvs Hitems)
    as (-> & rs & Hrs & Hwrs).
  instance_restored. cbn [mapM bind].
  erewrite encode_items_flat by (exact I || exact Hrs).
  cbn [bind type_name class_of Class.name].
  rewrite wire_tagged, wire_VList. cbn [mapM].
  rewrite !wire_VList, Hwrs. reflexivity.
Qed.

Lemma BulletList_restored (content : json) (cv v : value) :
  everywhere restores content ->
  rows wire_shape content = true ->
  decode content = OK cv ->
  from_json_tag (VStr "BulletList") cv = OK v ->
  restored (JObj [("t", JStr "BulletList"); ("c", content)]) v.
Proof.
  intros He Hs Hdec Hv.
  destruct (rows_inv content Hs He) as (rs & -> & Srs & Hrs).
  rewrite decode_JArr in Hdec.
  apply bind_OK in Hdec as (vs & Hvs & E). injection E as <-.
  rewrite from_json_tag_BulletList in Hv. cbn [iter bind] in Hv.
  unfold BulletList_init in Hv. rewrite init_items_2 in Hv.
  apply bind_OK in Hv as (items & Hitems & E). injection E as <-.
  destruct (rows_restored _ _ rs Hrs Srs vs items Hvs Hitems)
    as (-> & es & Hes & Hwes).
  instance_restored.
  erewrite encode_items_rows by (auto || exact Hes).
  cbn [bind type_name class_of Class.name].
  rewrite wire_tagged, wire_VList, Hwes. reflexivity.
Qed.

Lemma init_ssd_OK (start style delimiter : value) (ssd : value * value * value) :
  init_ssd start style delimiter = OK ssd -> ssd = (start, style, delimiter).
Proof.
  unfold init_ssd. intros H.
  apply bind_OK in H as (n & _ & H). apply bind_OK in H as (ok & _ & H).
  apply bind_OK in H as (u & _ & H). apply bind_OK in H as (b & _ & H).
  apply bind_OK in H as (u' & _ & H). apply bind_OK in H as (b' & _ & H).
  apply bind_OK in H as (u'' & _ & H). now injection H.
Qed.

Lemma OrderedList_restored (content : json) (cv v : value) :
  everywhere restores content ->
  match content with
  | JArr [ssd; items] => ssd_shape ssd && rows wire_shape items
  | _ => false
  end = true ->
  decode content = OK cv ->
  from_json_tag (VStr "OrderedList") cv = OK v ->
  restored (JObj [("t", JStr "OrderedList"); ("c", content)]) v.
Proof.
  intros He Hs Hdec Hv.
  destruct content as [| | | | |l|]; try discriminate Hs.
  destruct l as [|ssd l]; try discriminate Hs.
  destruct l as [|items l]; try discriminate Hs.
  destruct l; try discriminate Hs.
  apply andb_true_iff in Hs as [Sssd Sitems].
  destruct ssd as [| | | | |l|]; try discriminate Sssd.
  destruct l as [|start l]; try discriminate Sssd.
  destruct start as [| |start| | | |]; try discriminate Sssd.
  destruct l as [|style l]; try discriminate Sssd.
  destruct l as [|delimiter l]; try discriminate Sssd.
  destruct l; try discriminate Sssd.
  apply andb_true_iff in Sssd as [Sstyle Sdelim].
  apply everywhere_2 in He as (_ & Hitems).
  destruct (rows_inv items Sitems Hitems) as (rs & -> & Srs & Hrs).
  rewrite decode_JArr in Hdec. cbn [mapM] in Hdec.
  rewrite !decode_JArr in Hdec. cbn [mapM] in Hdec.
  destruct (decode style) as [sv|] eqn:Hsv; [|discriminate Hdec].
  destruct (decode delimiter) as [dv|] eqn:Hdv; [|discriminate Hdec].
  destruct (mapM decode rs) as [vs|] eqn:Hvs; [|discriminate Hdec].
  cbn [bind decode] in Hdec. injection Hdec as <-.
  destruct (enum_restored _ _ _ (proj1 (proj2 (proj2 enum_sets_special)))
                          Sstyle Hsv) as (sname & -> & Hsname & Hws).
  destruct (enum_restored _ _ _ (proj2 (proj2 (proj2 enum_sets_special)))
                          Sdelim Hdv) as (dname & -> & Hdname & Hwd).
  rewrite from_json_tag_OrderedList in Hv.
  cbn [getitem getitem2 nth_error iter bind] in Hv.
  unfold OrderedList_init in Hv. rewrite init_items_2 in Hv.
  apply bind_OK in Hv as (items & Hitems' & Hv).
  destruct (rows_restored _ _ rs Hrs Srs vs items Hvs Hitems')
    as (-> & es & Hes & Hwes).
  apply bind_OK in Hv as (ssd & Hssd & Hv).
  apply init_ssd_OK in Hssd as ->. injection Hv as <-.
  instance_restored.
  erewrite encode_items_rows by (auto || exact Hes).
  cbn [bind type_name class_of Class.name].
  rewrite wire_tagged, wire_VList. cbn [mapM].
  rewrite wire_VList. cbn [mapM].
  change (encode_dict (VStr sname) (VList [])) with (tagged_enum (VStr sname)).
  change (encode_dict (VStr dname) (VList [])) with (tagged_enum (VStr dname)).
  rewrite Hws, Hwd, wire_VList, Hwes. reflexivity.
Qed.

(** A definition-list entry is never built: its term goes to [init_items]
    without the [args] parameter.  Only the empty list is constructed. *)
Lemma DefinitionList_restored (content : json) (cv v : value) :
  match content with
  | JArr items => forallb (definition_shape wire_shape) items
  | _ => false
  end = true ->
  decode content = OK cv ->
  from_json_tag (VStr "DefinitionList") cv = OK v ->
  restored (JObj [("t", JStr "DefinitionList"); ("c", content)]) v.
Proof.
  intros Hs Hdec Hv.
  destruct content as [| | | | |l|]; try discriminate Hs.
  rewrite decode_JArr in Hdec.
  apply bind_OK in Hdec as (vs & Hvs & E). injection E as <-.
  rewrite from_json_tag_DefinitionList in Hv. cbn [iter bind] in Hv.
  unfold DefinitionList_init in Hv.
  apply bind_OK in Hv as (items & Hitems & E). injection E as <-.
  assert (vs = []) as ->.
  { eapply mapM_raised_nil; [|exact Hitems].
    intros x. apply raised_bind; intros [k d] _. apply raised_Raise. }
  injection Hitems as <-. apply mapM_nil_inv in Hvs as ->.
  repeat split; discriminate.
Qed.

(** A definition list with an entry is never built. *)
Lemma DefinitionList_init_raises (entry : value) (args : list value) :
  raised (DefinitionList_init (entry :: args)).
Proof.
  unfold DefinitionList_init. cbn [mapM].
  apply raised_bind; intros items Hitems.
  apply bind_OK in Hitems as (y & Hy & _).
  apply bind_OK in Hy as ([k v] & _ & Hy). discriminate Hy.
Qed.

Lemma Table_not_decoded (cv v : value) :
  from_json_tag (VStr "Table") cv <> OK v.
Proof.
  rewrite from_json_tag_Table. apply raised_not_OK.
  do 6 (apply raised_bind; intros ? _). apply Table_init_raises.
Qed.

(** A decoded value that is no instance has nothing to restore. *)
Lemma plain_restored (w : json) (v : value) :
  callable v = false -> class_of v = None -> restored w v.
Proof.
  intros Hc Hk. split; [exact Hc|]. rewrite Hk.
  split; [discriminate|]. intros H. now elim H.
Qed.

Lemma special_restored (tag : string) (w : json) (cv v : value) :
  existsb (String.eqb tag) SPECIAL_ELEMENTS = true ->
  from_json_tag (VStr tag) cv = OK v ->
  restored w v.
Proof.
  intros Htag Hv. apply existsb_exists in Htag as (x & Hx & E).
  apply String.eqb_eq in E as <-.
  rewrite (proj1 (Forall_forall _ _) special_tags_decode tag Hx cv) in Hv.
  injection Hv as <-. now apply plain_restored.
Qed.

(** *** The round trip *)

Lemma restores_step (w : json) :
  match w with
  | JArr elements => Forall (everywhere restores) elements
  | JObj members => Forall (fun m => everywhere restores (snd m)) members
  | _ => True
  end -> restores w.
Proof.
  intros inside Hs v Hdec.
  destruct w as [| | | | | |members]; try discriminate Hs.
  destruct members as [|[t wt] members]; try discriminate Hs.
  destruct wt as [| | | |tag| |]; try discriminate Hs.
  destruct members as [|[c content] members]; try discriminate Hs.
  destruct members; try discriminate Hs.
  cbn [wire_shape] in Hs.
  apply andb_true_iff in Hs as [Hs Hc]. apply andb_true_iff in Hs as [Et Ec].
  apply String.eqb_eq in Et as ->. apply String.eqb_eq in Ec as ->.
  assert (He : everywhere restores content).
  { inversion inside as [|? ? _ H1]; subst.
    inversion H1 as [|? ? H2 _]; subst. exact H2. }
  clear inside.
  rewrite decode_tagged in Hdec. apply bind_OK in Hdec as (cv & Hcv & Hv).
  unfold content_shape in Hc.
  destruct (leaf_tag tag) eqn:Hleaf.
  { destruct content as [| | | | |l|]; try discriminate Hc.
    destruct l; try discriminate Hc. eapply leaf_restored; eassumption. }
  destruct (container_tag tag) eqn:Hcontainer.
  { destruct (nodes_inv content Hc He) as (ws & -> & Sws & Hws).
    eapply container_restored; eassumption. }
  destruct (tag =? "Header")%string eqn:E.
  { apply String.eqb_eq in E as ->. eapply Header_restored; eassumption. }
  clear E. destruct ((tag =? "Div") || (tag =? "Span"))%string eqn:E.
  { apply orb_true_iff in E. rewrite !String.eqb_eq in E.
    eapply attributed_restored; eassumption. }
  clear E. destruct (tag =? "Quoted")%string eqn:E.
  { apply String.eqb_eq in E as ->. eapply Quoted_restored; eassumption. }
  clear E. destruct (tag =? "Cite")%string eqn:E.
  { apply String.eqb_eq in E as ->. eapply Cite_restored; eassumption. }
  clear E. destruct ((tag =? "Link") || (tag =? "Image"))%string eqn:E.
  { apply orb_true_iff in E. rewrite !String.eqb_eq in E.
    eapply target_restored; eassumption. }
  clear E. destruct (tag =? "Str")%string eqn:E.
  { apply String.eqb_eq in E as ->. eapply Str_restored; eassumption. }
  clear E. destruct ((tag =? "CodeBlock") || (tag =? "Code"))%string eqn:E.
  { apply orb_true_iff in E. rewrite !String.eqb_eq in E.
    eapply code_restored; eassumption. }
  clear E. destruct ((tag =? "RawBlock") || (tag =? "RawInline"))%string eqn:E.
  { apply orb_true_iff in E. rewrite !String.eqb_eq in E.
    eapply raw_restored; eassumption. }
  clear E. destruct (tag =? "Math")%string eqn:E.
  { apply String.eqb_eq in E as ->. eapply Math_restored; eassumption. }
  clear E. destruct (tag =? "BulletList")%string eqn:E.
  { apply String.eqb_eq in E as ->. eapply BulletList_restored; eassumption. }
  clear E. destruct (tag =? "OrderedList")%string eqn:E.
  { apply String.eqb_eq in E as ->. eapply OrderedList_restored; eassumption. }
  clear E. destruct (tag =? "DefinitionList")%string eqn:E.
  { apply String.eqb_eq in E as ->.
    eapply DefinitionList_restored; eassumption. }
  clear E. destruct (tag =? "Table")%string eqn:E.
  { apply String.eqb_eq in E as ->. now elim (Table_not_decoded cv v). }
  clear E. destruct (tag =? "MetaList")%string eqn:E.
  { apply String.eqb_eq in E as ->.
    destruct content as [| | | | |l|]; try discriminate Hc.
    rewrite decode_JArr in Hcv. apply bind_OK in Hcv as (vs & _ & Evs).
    injection Evs as <-. rewrite from_json_tag_MetaList in Hv.
    injection Hv as <-. now apply plain_restored. }
  clear E. destruct (tag =? "MetaMap")%string eqn:E.
  { apply String.eqb_eq in E as ->. rewrite from_json_tag_MetaMap in Hv.
    apply bind_OK in Hv as (d & _ & Ed). injection Ed as <-.
    now apply plain_restored. }
  clear E. destruct (tag =? "MetaString")%string eqn:E.
  { apply String.eqb_eq in E as ->.
    destruct content; try discriminate Hc. injection Hcv as <-.
    rewrite from_json_tag_MetaString in Hv. injection Hv as <-.
    now apply plain_restored. }
  clear E. destruct (tag =? "MetaBool")%string eqn:E.
  { apply String.eqb_eq in E as ->.
    destruct content as [|b| | | | |]; try discriminate Hc.
    injection Hcv as <-. destruct b; injection Hv as <-;
      now apply plain_restored. }
  clear E. destruct (existsb (String.eqb tag) SPECIAL_ELEMENTS) eqn:E;
    [|discriminate Hc].
  eapply special_restored; eassumption.
Qed.

(** C2 (as amended). For every well-formed wire value that the decoder
    accepts and decodes to a node (an instance of one of the classes, as
    opposed to a bare string, list or mapping), the encoding of the
    decoded node is the wire value itself. *)
Theorem encode_decode_node (w : json) (v : value) :
  wire_shape w = true ->
  decode w = OK v ->
  class_of v <> None ->
  encode v = OK w.
Proof.
  intros Hs Hdec Hk.
  pose proof (everywhere_here _ _ (everywhere_intro restores restores_step w)) as H.
  destruct (H Hs v Hdec) as (_ & _ & Henc). now apply Henc.
Qed.

Lemma encode_decode_node_witness :
  let w := JObj [("t", JStr "Header");
                 ("c", JArr [JInt 2; JArr [JStr "sec1"; JArr [JStr "intro"]; JArr []];
                             JArr [JObj [("t", JStr "Str"); ("c", JStr "Title")];
                                   JObj [("t", JStr "Space"); ("c", JArr [])];
                                   JObj [("t", JStr "Math");
                                         ("c", JArr [JObj [("t", JStr "InlineMath");
                                                           ("c", JArr [])];
                                                     JStr "x"])]]])] in
  let v := Header (VInt 2)
                  [Str (VStr "Title"); Space; Math (VStr "InlineMath") (VStr "x")]
                  (VStr "sec1") (VList [VStr "intro"]) (VDict []) in
  wire_shape w = true /\ decode w = OK v /\ encode v = OK w.
Proof.
  intros w v. split; [reflexivity|]. split; [reflexivity|].
  refine (encode_decode_node w v eq_refl eq_refl _). discriminate.
Defined.

(** ** Round trip through the wire: canonical nodes

    The other direction, for the nodes that the failure of C1 leaves
    out. *)

Create Rewrite HintDb from_json_tag.

#[local] Hint Rewrite
  from_json_tag_Plain from_json_tag_Para from_json_tag_BlockQuote
  from_json_tag_Emph from_json_tag_Strong from_json_tag_Strikeout
  from_json_tag_Superscript from_json_tag_Subscript from_json_tag_SmallCaps
  from_json_tag_Note from_json_tag_Header from_json_tag_Div
  from_json_tag_Span from_json_tag_Quoted from_json_tag_Cite
  from_json_tag_Link from_json_tag_Image from_json_tag_Str
  from_json_tag_CodeBlock from_json_tag_RawBlock from_json_tag_Code
  from_json_tag_Math from_json_tag_RawInline from_json_tag_BulletList
  from_json_tag_OrderedList from_json_tag_DefinitionList
  from_json_tag_MetaInlines from_json_tag_MetaBlocks : from_json_tag.

Definition canonical_roundtrips (n : value) : Prop :=
  canonical_node n = true -> roundtrips n.

Lemma validate_item_instance (x : value) (has_blocks : bool) (obj : value) :
  isinstance_base x (capability has_blocks) = true ->
  validate_item x has_blocks obj = OK x.
Proof.
  intros H. apply validate_item_accepted. split; [|exact H].
  unfold resolve. destruct x; try reflexivity; destruct has_blocks; discriminate H.
Qed.

Lemma children_roundtrip (has_blocks : bool) (obj : value) (xs : list value) :
  Forall canonical_roundtrips xs ->
  forallb (fun x => canonical_node x
                    && isinstance_base x (capability has_blocks)) xs = true ->
  exists rs ws,
    mapM to_json xs = OK rs /\ mapM wire rs = OK ws /\ mapM decode ws = OK xs
    /\ init_items obj xs has_blocks 1 = OK xs.
Proof.
  rewrite init_items_1.
  induction 1 as [|x xs Hx _ IH]; intros Hc.
  - exists [], []. repeat split; reflexivity.
  - cbn [forallb] in Hc. apply andb_true_iff in Hc as [Hcx Hcxs].
    apply andb_true_iff in Hcx as [Hcan Hinst].
    destruct (Hx Hcan) as (r & w & Hr & Hw & Hd).
    destruct (IH Hcxs) as (rs & ws & Hrs & Hws & Hds & Hval).
    exists (r :: rs), (w :: ws). cbn [mapM].
    rewrite Hr, Hrs, Hw, Hws, Hd, Hds, Hval.
    rewrite (validate_item_instance _ _ _ Hinst). repeat split; reflexivity.
Qed.

Lemma rows_roundtrip (has_blocks : bool) (obj : value) (items : list value) :
  Forall (fun row => forall xs, row = VList xs -> Forall canonical_roundtrips xs)
         items ->
  forallb (fun row =>
             match row with
             | VList xs =>
                 forallb (fun x => canonical_node x
                                   && isinstance_base x (capability has_blocks)) xs
             | _ => false
             end) items = true ->
  exists es ws,
    mapM (encode_row to_json) items = OK es /\ mapM wire es = OK ws
    /\ mapM decode ws = OK items
    /\ init_items obj items has_blocks 2 = OK items.
Proof.
  rewrite init_items_2.
  induction 1 as [|row items Hrow _ IH]; intros Hc.
  - exists [], []. repeat split; reflexivity.
  - cbn [forallb] in Hc. apply andb_true_iff in Hc as [Hcrow Hcitems].
    destruct row; try discriminate Hcrow.
    destruct (children_roundtrip has_blocks obj xs (Hrow xs eq_refl) Hcrow)
      as (rs & ws & Hrs & Hws & Hds & Hval).
    rewrite init_items_1 in Hval.
    destruct (IH Hcitems) as (es & wss & Hes & Hwss & Hdss & Hvals).
    exists (VList rs :: es), (JArr ws :: wss). cbn [mapM encode_row iter bind].
    rewrite Hrs, Hes, Hval, Hvals. cbn [bind].
    rewrite wire_VList, Hws, Hwss, decode_JArr, Hds, Hdss.
    repeat split; reflexivity.
Qed.

Lemma strs_roundtrip (cs : list value) :
  forallb is_str cs = true ->
  exists js, mapM wire cs = OK js /\ mapM decode js = OK cs.
Proof.
  induction cs as [|c cs IH]; intros H.
  - exists []. split; reflexivity.
  - cbn [forallb] in H. apply andb_true_iff in H as [Hc Hcs].
    destruct c; try discriminate Hc.
    destruct (IH Hcs) as (js & Hw & Hd).
    exists (JStr s :: js). cbn [mapM wire decode bind]. rewrite Hw, Hd.
    split; reflexivity.
Qed.

(** The attribute bundle without attributes, written out and read back. *)
Lemma ica_roundtrip (identifier classes attributes : value) :
  ica_ok identifier classes attributes = true ->
  exists a,
    encode_ica identifier classes attributes
    = OK (VList [identifier; classes; VList []])
    /\ wire (VList [identifier; classes; VList []]) = OK a
    /\ decode a = OK (VList [identifier; classes; VList []])
    /\ init_ica identifier classes (VList [])
       = OK (identifier, classes, attributes).
Proof.
  unfold ica_ok. intros H.
  apply andb_true_iff in H as [H Ha]. apply andb_true_iff in H as [Hi Hc].
  destruct identifier; try discriminate Hi.
  destruct classes; try discriminate Hc. rename xs into cs.
  destruct attributes; try discriminate Ha.
  destruct kvs; try discriminate Ha.
  destruct (strs_roundtrip cs Hc) as (js & Hw & Hd).
  exists (JArr [JStr s; JArr js; JArr []]).
  split; [reflexivity|]. split; [|split].
  - rewrite wire_VList. cbn [mapM]. rewrite wire_VList, Hw. reflexivity.
  - rewrite decode_JArr. cbn [mapM]. rewrite decode_JArr, Hd. reflexivity.
  - unfold init_ica. cbn [truthy is_str is_dict assert bind].
    assert (E : (if match cs with [] => false | _ :: _ => true end
                 then VList cs else VList []) = VList cs)
      by (destruct cs; reflexivity).
    rewrite E. cbn [iter bind]. rewrite Hc. reflexivity.
Qed.

(** The steps shared by the cases below: the encoding of the node, then
    the two halves of its journey through the wire. *)
Ltac to_json_node :=
  unfold to_json at 1; unfold to_json_with;
  cbn [encode_content mapM bind];
  change (to_json_with encode_content metawalk) with to_json;
  repeat match goal with
         | H : encode_ica _ _ _ = OK _ |- _ => rewrite H
         | H : mapM to_json _ = OK _ |- _ =>
             erewrite encode_items_flat by (exact I || exact H)
         | H : mapM (encode_row to_json) _ = OK _ |- _ =>
             erewrite encode_items_rows by (auto || exact H)
         end;
  cbn [bind type_name class_of Class.name].

Ltac wire_node :=
  rewrite wire_tagged;
  repeat first
    [ match goal with
      | H : mapM wire _ = OK _ |- _ => rewrite H
      | H : wire _ = OK _ |- _ => rewrite H
      end
    | rewrite wire_VList; cbn [mapM] ].

Ltac from_json_node :=
  rewrite decode_tagged;
  repeat (rewrite decode_JArr; cbn [mapM]);
  repeat match goal with
         | H : mapM decode _ = OK _ |- _ => rewrite H
         | H : decode _ = OK _ |- _ => rewrite H
         end;
  cbn [decode bind];
  autorewrite with from_json_tag;
  cbn [getitem getitem2 nth_error iter bind].

Lemma container_roundtrips (n : value) (items : list value) :
  Forall canonical_roundtrips items ->
  In n [Plain items; Para items; BlockQuote items; Emph items; Strong items;
        Strikeout items; Superscript items; Subscript items; SmallCaps items;
        Note items; MetaInlines items; MetaBlocks items] ->
  canonical_roundtrips n.
Proof.
  intros HN Hn Hc. cbn [In] in Hn.
  repeat (destruct Hn as [<- | Hn]); try contradiction;
    cbn [canonical_node] in Hc;
    match goal with
    | |- roundtrips ?node =>
        destruct (children_roundtrip _ (VClass match class_of node with
                                               | Some c => c
                                               | None => Class.Doc
                                               end) items HN Hc)
          as (rs & ws & Hrs & Hws & Hds & Hval);
        exists (encode_dict (VStr (type_name node)) (VList rs)),
               (JObj [("t", JStr (type_name node)); ("c", JArr ws)])
    end;
    cbn [class_of type_name Class.name] in *;
    (split;
     [ to_json_node; reflexivity
     | split;
       [ wire_node; reflexivity
       | from_json_node;
         unfold Plain_init, Para_init, BlockQuote_init, Emph_init,
           Strong_init, Strikeout_init, Superscript_init, Subscript_init,
           SmallCaps_init, Note_init, MetaInlines_init, MetaBlocks_init;
         rewrite Hval; reflexivity ] ]).
Qed.

Lemma eq_int_VInt (n k : Z) : eq_int (VInt n) k = (n =? k).
Proof.
  unfold eq_int, number, dyadic_eqb, dyadic_compare. cbn [Z.min Z.compare].
  rewrite !Z.sub_diag, !Z.mul_1_r. symmetry. apply Z.eqb_compare.
Qed.

Lemma validate_level (n : Z) :
  existsb (Z.eqb n) [1; 2; 3; 4; 5; 6] = true ->
  validate (VInt n) (Some (tuple_of [1; 2; 3; 4; 5; 6])) None = OK (VInt n).
Proof.
  intros H. unfold validate, contains, in_tuple. cbn [bind existsb].
  rewrite !eq_int_VInt. cbn [existsb] in H. rewrite H. reflexivity.
Qed.

Lemma init_ssd_canonical (n : Z) (style delimiter : string) :
  (0 <=? n) = true ->
  existsb (String.eqb style) LIST_NUMBER_STYLES = true ->
  existsb (String.eqb delimiter) LIST_NUMBER_DELIMITERS = true ->
  init_ssd (VInt n) (VStr style) (VStr delimiter)
  = OK (VInt n, VStr style, VStr delimiter).
Proof.
  intros Hn Hs Hd. unfold init_ssd, in_set. cbn [py_int bind hashable].
  rewrite eq_int_VInt, Z.eqb_refl.
  unfold le_int, number, dyadic_leb, dyadic_compare. cbn [Z.min Z.compare].
  rewrite !Z.sub_diag, !Z.mul_1_r. cbn [Z.mul].
  apply Z.leb_le in Hn.
  destruct (0 ?= n) eqn:E;
    try (apply Z.compare_gt_iff in E; lia);
    cbn [bind assert];
    change (existsb (eq_str (VStr style)) LIST_NUMBER_STYLES)
      with (existsb (String.eqb style) LIST_NUMBER_STYLES);
    change (existsb (eq_str (VStr delimiter)) LIST_NUMBER_DELIMITERS)
      with (existsb (String.eqb delimiter) LIST_NUMBER_DELIMITERS);
    rewrite Hs, Hd; reflexivity.
Qed.

Lemma decode_enum (names : list string) (name : string) :
  incl names SPECIAL_ELEMENTS ->
  existsb (String.eqb name) names = true ->
  decode (JObj [("t", JStr name); ("c", JArr [])]) = OK (VStr name).
Proof.
  intros Hincl H. apply existsb_exists in H as (x & Hx & E).
  apply String.eqb_eq in E as <-.
  rewrite decode_tagged. cbn [decode mapM bind].
  exact (proj1 (Forall_forall _ _) special_tags_decode name (Hincl name Hx)
               (VList [])).
Qed.

Lemma enum_ok_inv (names : list string) (x : value) :
  enum_ok names x = true ->
  exists name, x = VStr name /\ existsb (String.eqb name) names = true.
Proof.
  destruct x; try discriminate. intros H. now exists s.
Qed.

Lemma is_str_inv (x : value) : is_str x = true -> exists s, x = VStr s.
Proof. destruct x; try discriminate. intros _. now exists s. Qed.

Lemma validate_str (s : string) :
  validate (VStr s) None (Some is_str) = OK (VStr s).
Proof. reflexivity. Qed.

Lemma Header_roundtrips (level : value) (items : list value)
      (identifier classes attributes : value) :
  Forall canonical_roundtrips items ->
  canonical_roundtrips (Header level items identifier classes attributes).
Proof.
  intros HN Hc. cbn [canonical_node] in Hc.
  apply andb_true_iff in Hc as [Hc Hch]. apply andb_true_iff in Hc as [Hl Hica].
  destruct level; try discriminate Hl. cbn [level_ok] in Hl.
  destruct (ica_roundtrip _ _ _ Hica) as (a & Hea & Hwa & Hda & Hinit).
  destruct (children_roundtrip false (VClass Class.Header) items HN Hch)
    as (rs & ws & Hrs & Hws & Hds & Hval).
  exists (encode_dict (VStr "Header")
                      (VList [VInt n; VList [identifier; classes; VList []];
                              VList rs])),
         (JObj [("t", JStr "Header"); ("c", JArr [JInt n; a; JArr ws])]).
  split; [to_json_node; reflexivity|].
  split; [wire_node; reflexivity|].
  from_json_node. unfold Header_init.
  rewrite (validate_level n Hl). cbn [bind]. rewrite Hinit, Hval. reflexivity.
Qed.

Lemma attributed_roundtrips (n : value) (items : list value)
      (identifier classes attributes : value) :
  Forall canonical_roundtrips items ->
  n = Div items identifier classes attributes
  \/ n = Span items identifier classes attributes ->
  canonical_roundtrips n.
Proof.
  intros HN [-> | ->] Hc; cbn [canonical_node] in Hc;
    apply andb_true_iff in Hc as [Hica Hch];
    destruct (ica_roundtrip _ _ _ Hica) as (a & Hea & Hwa & Hda & Hinit);
    match goal with
    | |- roundtrips ?node =>
        destruct (children_roundtrip _ (VClass match class_of node with
                                               | Some c => c
                                               | None => Class.Doc
                                               end) items HN Hch)
          as (rs & ws & Hrs & Hws & Hds & Hval);
        exists (encode_dict (VStr (type_name node))
                            (VList [VList [identifier; classes; VList []];
                                    VList rs])),
               (JObj [("t", JStr (type_name node)); ("c", JArr [a; JArr ws])])
    end;
    cbn [class_of type_name Class.name] in *;
    (split; [to_json_node; reflexivity|]);
    (split; [wire_node; reflexivity|]);
    from_json_node; unfold Div_init, Span_init;
    rewrite Hinit, Hval; reflexivity.
Qed.

Lemma target_roundtrips (n : value) (items : list value)
      (url title identifier classes attributes : value) :
  Forall canonical_roundtrips items ->
  n = Link items url title identifier classes attributes
  \/ n = Image items url title identifier classes attributes ->
  canonical_roundtrips n.
Proof.
  intros HN [-> | ->] Hc; cbn [canonical_node] in Hc;
    apply andb_true_iff in Hc as [Hc Hch];
    apply andb_true_iff in Hc as [Hc Hica];
    apply andb_true_iff in Hc as [Hu Ht];
    apply is_str_inv in Hu as [u ->]; apply is_str_inv in Ht as [t ->];
    destruct (ica_roundtrip _ _ _ Hica) as (a & Hea & Hwa & Hda & Hinit);
    match goal with
    | |- roundtrips ?node =>
        destruct (children_roundtrip _ (VClass match class_of node with
                                               | Some c => c
                                               | None => Class.Doc
                                               end) items HN Hch)
          as (rs & ws & Hrs & Hws & Hds & Hval);
        exists (encode_dict (VStr (type_name node))
                            (VList [VList [identifier; classes; VList []];
                                    VList rs; VList [VStr u; VStr t]])),
               (JObj [("t", JStr (type_name node));
                      ("c", JArr [a; JArr ws; JArr [JStr u; JStr t]])])
    end;
    cbn [class_of type_name Class.name] in *;
    (split; [to_json_node; reflexivity|]);
    (split; [wire_node; reflexivity|]);
    from_json_node; unfold Link_init, Image_init, init_ut;
    rewrite Hval, !validate_str; cbn [bind]; rewrite Hinit; reflexivity.
Qed.

Lemma Quoted_roundtrips (quote_type : value) (items : list value) :
  Forall canonical_roundtrips items ->
  canonical_roundtrips (Quoted quote_type items).
Proof.
  intros HN Hc. cbn [canonical_node] in Hc.
  apply andb_true_iff in Hc as [Hq Hch].
  apply enum_ok_inv in Hq as (name & -> & Hname).
  pose proof (decode_enum _ _ (proj1 enum_sets_special) Hname) as Hdq.
  destruct (children_roundtrip false (VClass Class.Quoted) items HN Hch)
    as (rs & ws & Hrs & Hws & Hds & Hval).
  exists (encode_dict (VStr "Quoted")
                      (VList [tagged_enum (VStr name); VList rs])),
         (JObj [("t", JStr "Quoted");
                ("c", JArr [JObj [("t", JStr name); ("c", JArr [])]; JArr ws])]).
  split; [to_json_node; reflexivity|].
  split; [wire_node; rewrite wire_tagged_enum; reflexivity|].
  from_json_node. unfold Quoted_init.
  rewrite (validate_enum _ _ Hname), Hval. reflexivity.
Qed.

Lemma Cite_roundtrips (items citations : list value) :
  Forall canonical_roundtrips items ->
  canonical_roundtrips (Cite items citations).
Proof.
  intros HN Hc. cbn [canonical_node] in Hc.
  destruct citations; try discriminate Hc.
  destruct (children_roundtrip false (VClass Class.Cite) items HN Hc)
    as (rs & ws & Hrs & Hws & Hds & Hval).
  exists (encode_dict (VStr "Cite") (VList [VList []; VList rs])),
         (JObj [("t", JStr "Cite"); ("c", JArr [JArr []; JArr ws])]).
  split; [to_json_node; reflexivity|].
  split; [wire_node; reflexivity|].
  from_json_node. unfold Cite_init. cbn [iter mapM bind].
  rewrite Hval. reflexivity.
Qed.

Lemma code_roundtrips (n text identifier classes attributes : value) :
  n = CodeBlock text identifier classes attributes
  \/ n = Code text identifier classes attributes ->
  canonical_roundtrips n.
Proof.
  intros [-> | ->] Hc; cbn [canonical_node] in Hc;
    apply andb_true_iff in Hc as [Ht Hica];
    apply is_str_inv in Ht as [t ->];
    destruct (ica_roundtrip _ _ _ Hica) as (a & Hea & Hwa & Hda & Hinit);
    match goal with
    | |- roundtrips ?node =>
        exists (encode_dict (VStr (type_name node))
                            (VList [VList [identifier; classes; VList []];
                                    VStr t])),
               (JObj [("t", JStr (type_name node)); ("c", JArr [a; JStr t])])
    end;
    cbn [class_of type_name Class.name] in *;
    (split; [to_json_node; reflexivity|]);
    (split; [wire_node; reflexivity|]);
    from_json_node; unfold CodeBlock_init, Code_init;
    rewrite validate_str; cbn [bind]; rewrite Hinit; reflexivity.
Qed.

Lemma raw_roundtrips (n text format : value) :
  n = RawBlock text format \/ n = RawInline text format ->
  canonical_roundtrips n.
Proof.
  intros [-> | ->] Hc; cbn [canonical_node] in Hc;
    apply andb_true_iff in Hc as [Ht Hf];
    apply is_str_inv in Ht as [t ->];
    apply enum_ok_inv in Hf as (f & -> & Hf);
    match goal with
    | |- roundtrips ?node =>
        exists (encode_dict (VStr (type_name node)) (VList [VStr f; VStr t])),
               (JObj [("t", JStr (type_name node));
                      ("c", JArr [JStr f; JStr t])])
    end;
    cbn [class_of type_name Class.name] in *;
    (split; [reflexivity|]); (split; [reflexivity|]);
    from_json_node; unfold RawBlock_init, RawInline_init;
    rewrite validate_str, (validate_enum _ _ Hf); reflexivity.
Qed.

Lemma Math_roundtrips (format text : value) :
  canonical_roundtrips (Math format text).
Proof.
  intros Hc. cbn [canonical_node] in Hc.
  apply andb_true_iff in Hc as [Ht Hf].
  apply is_str_inv in Ht as [t ->].
  apply enum_ok_inv in Hf as (f & -> & Hf).
  pose proof (decode_enum _ _ (proj1 (proj2 enum_sets_special)) Hf) as Hdf.
  exists (encode_dict (VStr "Math") (VList [tagged_enum (VStr f); VStr t])),
         (JObj [("t", JStr "Math");
                ("c", JArr [JObj [("t", JStr f); ("c", JArr [])]; JStr t])]).
  split; [reflexivity|]. split; [reflexivity|].
  from_json_node. unfold Math_init.
  rewrite validate_str, (validate_enum _ _ Hf). reflexivity.
Qed.

Lemma BulletList_roundtrips (items : list value) :
  Forall (fun row => forall xs, row = VList xs -> Forall canonical_roundtrips xs)
         items ->
  canonical_roundtrips (BulletList items).
Proof.
  intros HN Hc. cbn [canonical_node] in Hc.
  destruct (rows_roundtrip true (VClass Class.BulletList) items HN Hc)
    as (es & ws & Hes & Hws & Hds & Hval).
  exists (encode_dict (VStr "BulletList") (VList es)),
         (JObj [("t", JStr "BulletList"); ("c", JArr ws)]).
  split; [to_json_node; reflexivity|].
  split; [wire_node; reflexivity|].
  from_json_node. unfold BulletList_init. rewrite Hval. reflexivity.
Qed.

Lemma OrderedList_roundtrips (items : list value)
      (start style delimiter : value) :
  Forall (fun row => forall xs, row = VList xs -> Forall canonical_roundtrips xs)
         items ->
  canonical_roundtrips (OrderedList items start style delimiter).
Proof.
  intros HN Hc. cbn [canonical_node] in Hc.
  apply andb_true_iff in Hc as [Hc Hrows]. apply andb_true_iff in Hc as [Hc Hd].
  apply andb_true_iff in Hc as [Hn Hs].
  destruct start; try discriminate Hn. cbn [start_ok] in Hn.
  apply enum_ok_inv in Hs as (s & -> & Hs).
  apply enum_ok_inv in Hd as (d & -> & Hd).
  pose proof (decode_enum _ _ (proj1 (proj2 (proj2 enum_sets_special))) Hs)
    as Hds'.
  pose proof (decode_enum _ _ (proj2 (proj2 (proj2 enum_sets_special))) Hd)
    as Hdd'.
  destruct (rows_roundtrip true (VClass Class.OrderedList) items HN Hrows)
    as (es & ws & Hes & Hws & Hds & Hval).
  exists (encode_dict (VStr "OrderedList")
                      (VList [VList [VInt n; tagged_enum (VStr s);
                                     tagged_enum (VStr d)];
                              VList es])),
         (JObj [("t", JStr "OrderedList");
                ("c", JArr [JArr [JInt n;
                                  JObj [("t", JStr s); ("c", JArr [])];
                                  JObj [("t", JStr d); ("c", JArr [])]];
                            JArr ws])]).
  split; [to_json_node; reflexivity|].
  split; [wire_node; rewrite !wire_tagged_enum; reflexivity|].
  from_json_node. unfold OrderedList_init.
  rewrite Hval. cbn [bind]. rewrite (init_ssd_canonical n s d Hn Hs Hd).
  reflexivity.
Qed.

Lemma list_all_Forall {A} (P : A -> Prop) (l : list A) :
  list_all A P l -> Forall P l.
Proof. induction 1; constructor; assumption. Qed.

Lemma Str_roundtrips (text : value) : canonical_roundtrips (Str text).
Proof.
  intros Hc. cbn [canonical_node] in Hc. apply is_str_inv in Hc as [t ->].
  now exists (encode_dict (VStr "Str") (VStr t)),
             (JObj [("t", JStr "Str"); ("c", JStr t)]).
Qed.

Lemma DefinitionList_roundtrips (items : list value) :
  canonical_roundtrips (DefinitionList items).
Proof.
  intros Hc. cbn [canonical_node] in Hc. destruct items; try discriminate Hc.
  now exists (encode_dict (VStr "DefinitionList") (VList [])),
             (JObj [("t", JStr "DefinitionList"); ("c", JArr [])]).
Qed.

Lemma Forall_both {A} (P Q : A -> Prop) (l : list A) :
  Forall (fun x => P x /\ Q x) l -> Forall P l /\ Forall Q l.
Proof.
  intros H. split; (eapply Forall_impl; [|exact H]); intros a Ha; apply Ha.
Qed.

(** Every canonical node makes the round trip; a list is carried along
    for the rows of the two list kinds. *)
Lemma canonical_roundtrips_all (v : value) :
  canonical_roundtrips v
  /\ (forall xs, v = VList xs -> Forall canonical_roundtrips xs).
Proof.
  induction v;
    repeat match goal with
           | IH : list_all _ _ _ |- _ =>
               apply list_all_Forall, Forall_both in IH; destruct IH
           end;
    (split; [|intros ys E; try discriminate E]);
    try (intros Hc; discriminate Hc);
    try (injection E as <-; assumption);
    try (intros _; do 2 eexists; split; [reflexivity | split; reflexivity]);
    first
      [ eapply container_roundtrips; [eassumption | cbn [In]; solve [auto 20]]
      | now apply Header_roundtrips
      | eapply attributed_roundtrips; [eassumption | solve [auto]]
      | eapply target_roundtrips; [eassumption | solve [auto]]
      | now apply Quoted_roundtrips
      | now apply Cite_roundtrips
      | apply Str_roundtrips
      | eapply code_roundtrips; solve [auto]
      | eapply raw_roundtrips; solve [auto]
      | apply Math_roundtrips
      | now apply BulletList_roundtrips
      | now apply OrderedList_roundtrips
      | apply DefinitionList_roundtrips ].
Qed.

(** X1. Node round trip (the part of C1 that holds).  Every canonical
    node is encoded, and the decoder gives back the node itself. *)
Lemma decode_encode_canonical (n : value) :
  canonical_node n = true ->
  exists w, encode n = OK w /\ decode w = OK n.
Proof.
  intros Hc. destruct (proj1 (canonical_roundtrips_all n) Hc)
    as (r & w & Hr & Hw & Hd).
  exists w. split; [|exact Hd].
  assert (Hk : exists k, class_of n = Some k /\ k <> Class.Doc).
  { destruct n; try discriminate Hc; eexists; split;
      try reflexivity; discriminate. }
  destruct Hk as (k & Hk & Hdoc).
  rewrite (encode_via_to_json n k Hk Hdoc), Hr. exact Hw.
Qed.

Lemma decode_encode_canonical_witness :
  let n := OrderedList [VList [Para [Str (VStr "a"); Space;
                                     Quoted (VStr "SingleQuote") [Str (VStr "b")]]];
                        VList [CodeBlock (VStr "x = 1") (VStr "l1")
                                         (VList [VStr "python"]) (VDict [])]]
                       (VInt 3) (VStr "LowerRoman") (VStr "OneParen") in
  canonical_node n = true
  /\ exists w, encode n = OK w /\ decode w = OK n.
Proof.
  intros n. split; [reflexivity|].
  exact (decode_encode_canonical n eq_refl).
Defined.

Example decode_encode_Div :
  let n := Div [Para [Str (VStr "a"); Space; Emph [Str (VStr "b")]];
                BulletList [VList [Plain [Str (VStr "c")]]; VList []]]
               (VStr "id") (VList [VStr "x"; VStr "y"]) (VDict []) in
  canonical_node n = true
  /\ (w <- encode n ;; decode w) = OK n.
Proof. cbv zeta. split; reflexivity. Qed.

(** ** The Document root

    The encoding of a canonical node has the shape of section 6 and the
    tag of its class; a metadata value is written as section 4.4 says;
    and the encoding of a document is put together from the two. *)

(** *** The shape of the encoding of a canonical node *)

Lemma children_shaped (has_blocks : bool) (xs : list value) :
  Forall shaped xs ->
  forallb (fun x => canonical_node x
                    && isinstance_base x (capability has_blocks)) xs = true ->
  exists rs ws,
    mapM to_json xs = OK rs /\ mapM wire rs = OK ws
    /\ forallb wire_shape ws = true.
Proof.
  induction 1 as [|x xs Hx _ IH]; intros Hc.
  - exists [], []. repeat split; reflexivity.
  - cbn [forallb] in Hc. apply andb_true_iff in Hc as [Hcx Hcxs].
    apply andb_true_iff in Hcx as [Hcan _].
    destruct (Hx Hcan) as (r & w & Hr & Hw & Hs).
    destruct (IH Hcxs) as (rs & ws & Hrs & Hws & Hss).
    exists (r :: rs), (w :: ws). cbn [mapM forallb].
    rewrite Hr, Hrs, Hw, Hws, Hs, Hss. repeat split; reflexivity.
Qed.

Lemma rows_shaped (has_blocks : bool) (items : list value) :
  Forall (fun row => forall xs, row = VList xs -> Forall shaped xs) items ->
  forallb (fun row =>
             match row with
             | VList xs =>
                 forallb (fun x => canonical_node x
                                   && isinstance_base x (capability has_blocks)) xs
             | _ => false
             end) items = true ->
  exists es ws,
    mapM (encode_row to_json) items = OK es /\ mapM wire es = OK ws
    /\ forallb (nodes wire_shape) ws = true.
Proof.
  induction 1 as [|row items Hrow _ IH]; intros Hc.
  - exists [], []. repeat split; reflexivity.
  - cbn [forallb] in Hc. apply andb_true_iff in Hc as [Hcr Hcs].
    destruct row; try discriminate Hcr.
    destruct (children_shaped has_blocks xs (Hrow xs eq_refl) Hcr)
      as (rs & ws & Hrs & Hws & Hss).
    destruct (IH Hcs) as (es & wss & Hes & Hwss & Hsss).
    exists (VList rs :: es), (JArr ws :: wss).
    cbn [mapM encode_row forallb nodes]. rewrite Hrs, Hes. cbn [bind].
    rewrite wire_VList, Hws, Hwss, Hss, Hsss. repeat split; reflexivity.
Qed.

Lemma strs_shaped (cs : list value) :
  forallb is_str cs = true ->
  exists js, mapM wire cs = OK js /\ forallb str_shape js = true.
Proof.
  induction cs as [|c cs IH]; intros H.
  - exists []. split; reflexivity.
  - cbn [forallb] in H. apply andb_true_iff in H as [Hc Hcs].
    destruct c; try discriminate Hc. destruct (IH Hcs) as (js & Hjs & Hsh).
    exists (JStr s :: js). cbn [mapM wire bind forallb str_shape].
    now rewrite Hjs, Hsh.
Qed.

Lemma ica_shaped (identifier classes attributes : value) :
  ica_ok identifier classes attributes = true ->
  exists a,
    encode_ica identifier classes attributes
    = OK (VList [identifier; classes; VList []])
    /\ wire (VList [identifier; classes; VList []]) = OK a
    /\ attr_shape a = true.
Proof.
  unfold ica_ok. intros H. apply andb_true_iff in H as [H Ha].
  apply andb_true_iff in H as [Hi Hc].
  destruct identifier; try discriminate Hi.
  destruct classes; try discriminate Hc.
  destruct attributes; try discriminate Ha. destruct kvs; try discriminate Ha.
  destruct (strs_shaped xs Hc) as (js & Hjs & Hsh).
  exists (JArr [JStr s; JArr js; JArr []]).
  split; [reflexivity|]. split.
  - rewrite wire_VList. cbn [mapM wire bind]. now rewrite Hjs.
  - cbn [attr_shape forallb]. now rewrite Hsh.
Qed.

Lemma enum_shaped (names : list string) (x : value) :
  enum_ok names x = true ->
  exists name,
    x = VStr name
    /\ enum_shape names (JObj [("t", JStr name); ("c", JArr [])]) = true.
Proof.
  intros H. destruct x; try discriminate H. exists s. split; [reflexivity|].
  cbn [enum_shape]. cbn [enum_ok] in H. now rewrite H.
Qed.

Ltac shaped_fields :=
  repeat match goal with
         | H : (_ && _)%bool = true |- _ => apply andb_true_iff in H as [? ?]
         end;
  repeat match goal with
         | H : level_ok ?x = true |- _ => destruct x; try discriminate H; clear H
         | H : start_ok ?x = true |- _ => destruct x; try discriminate H; clear H
         | H : is_str ?x = true |- _ => apply is_str_inv in H as [? ->]
         | H : enum_ok _ _ = true |- _ =>
             let name := fresh "name" in
             let Hen := fresh "Hen" in
             apply enum_shaped in H as (name & -> & Hen)
         | H : ica_ok _ _ _ = true |- _ =>
             let a := fresh "a" in
             let Hea := fresh "Hea" in
             let Hwa := fresh "Hwa" in
             let Hsa := fresh "Hsa" in
             destruct (ica_shaped _ _ _ H) as (a & Hea & Hwa & Hsa); clear H
         | H : match ?l with [] => _ | _ :: _ => false end = true |- _ =>
             destruct l; [|discriminate H]
         end;
  try match goal with
      | HF : Forall shaped ?items,
        H : forallb (fun x => canonical_node x
                              && isinstance_base x (capability ?hb)) ?items = true
        |- _ =>
          let rs := fresh "rs" in
          let ws := fresh "ws" in
          let Hrs := fresh "Hrs" in
          let Hws := fresh "Hws" in
          let Hss := fresh "Hss" in
          destruct (children_shaped hb items HF H) as (rs & ws & Hrs & Hws & Hss)
      end;
  try match goal with
      | HF : Forall (fun row => forall xs, row = VList xs -> Forall shaped xs)
                    ?items,
        H : forallb _ ?items = true
        |- _ =>
          let es := fresh "es" in
          let ws := fresh "ws" in
          let Hes := fresh "Hes" in
          let Hws := fresh "Hws" in
          let Hss := fresh "Hss" in
          destruct (rows_shaped true items HF H) as (es & ws & Hes & Hws & Hss)
      end.

Lemma shaped_all (v : value) :
  shaped v /\ (forall xs, v = VList xs -> Forall shaped xs).
Proof.
  induction v;
    repeat match goal with
           | IH : list_all _ _ _ |- _ =>
               apply list_all_Forall, Forall_both in IH; destruct IH
           end;
    (split; [|intros ys E; try discriminate E]);
    try (injection E as <-; assumption);
    intros Hc; try discriminate Hc; cbn [canonical_node] in Hc;
    shaped_fields;
    (do 2 eexists; split;
     [to_json_node; cbn [encode_ica encode_items mapM bind]; reflexivity|];
     split; [wire_node; rewrite ?wire_tagged_enum; reflexivity|]).
  all: cbn [wire_shape String.eqb Ascii.eqb Bool.eqb andb];
    cbv [content_shape leaf_tag container_tag existsb String.eqb Ascii.eqb
                Bool.eqb orb nodes rows ssd_shape] in *;
    repeat match goal with
           | H : _ = true |- _ => rewrite H
           end; try reflexivity.
Qed.

(** *** The wire form of a canonical node *)

Lemma to_json_tagged (n r : value) :
  canonical_node n = true ->
  to_json n = OK r ->
  exists content, r = encode_dict (VStr (type_name n)) content.
Proof.
  intros Hc Hr. destruct n; try discriminate Hc;
    unfold to_json, to_json_with in Hr;
    apply bind_OK in Hr as (content & _ & Hr); injection Hr as <-;
    now exists content.
Qed.

Lemma canonical_formed (n : value) :
  canonical_node n = true ->
  exists r w, to_json n = OK r /\ wire r = OK w /\ node_form n w.
Proof.
  intros Hc.
  destruct (proj1 (shaped_all n) Hc) as (r & w & Hr & Hw & Hs).
  destruct (proj1 (canonical_roundtrips_all n) Hc) as (r' & w' & Hr' & Hw' & Hd).
  rewrite Hr in Hr'. injection Hr' as <-.
  rewrite Hw in Hw'. injection Hw' as <-.
  exists r, w. split; [exact Hr|]. split; [exact Hw|].
  split; [|split; assumption].
  destruct (to_json_tagged n r Hc Hr) as (content & ->).
  rewrite wire_tagged in Hw.
  apply bind_OK in Hw as (cw & _ & Hw). injection Hw as <-. now exists cw.
Qed.

Lemma serialise_node (n : value) :
  canonical_node n = true -> serialise n = (r <- to_json n ;; wire r).
Proof. intros Hc. destruct n; try discriminate Hc; reflexivity. Qed.

Lemma blocks_formed (blocks : list value) :
  forallb canonical_node blocks = true ->
  exists ws, mapM serialise blocks = OK ws /\ Forall2 node_form blocks ws.
Proof.
  induction blocks as [|b blocks IH]; intros Hc.
  - exists []. split; [reflexivity|constructor].
  - cbn [forallb] in Hc. apply andb_true_iff in Hc as [Hb Hbs].
    destruct (IH Hbs) as (ws & Hws & Hfs).
    destruct (canonical_formed b Hb) as (r & w & Hr & Hw & Hf).
    exists (w :: ws). cbn [mapM].
    rewrite (serialise_node b Hb), Hr. cbn [bind]. rewrite Hw, Hws.
    split; [reflexivity|]. constructor; assumption.
Qed.

(** *** Plain data is serialised as it is written out *)

Lemma prod_all_snd (P : value -> Prop) (kvs : list (value * value)) :
  list_all (value * value) (prod_all value P value P) kvs ->
  Forall (fun kv => P (snd kv)) kvs.
Proof.
  induction 1 as [|kv Hkv kvs _ IH]; constructor; [|exact IH].
  destruct Hkv. cbn [snd]. assumption.
Qed.

Lemma serialise_wire (r : value) : forall w, wire r = OK w -> serialise r = OK w.
Proof.
  induction r; intros w Hw; try discriminate Hw; try exact Hw.
  - (* list *)
    match goal with H : list_all _ _ _ |- _ => apply list_all_Forall in H;
      rename H into IH end.
    cbn [wire] in Hw. apply bind_OK in Hw as (l & Hl & Hw). cbn [serialise].
    assert (E : mapM serialise xs = OK l).
    { clear Hw. revert l Hl. induction IH as [|x xs Hx _ IHxs]; intros l Hl.
      - exact Hl.
      - cbn [mapM] in Hl |- *.
        apply bind_OK in Hl as (y & Hy & Hl).
        apply bind_OK in Hl as (ys & Hys & Hl).
        rewrite (Hx y Hy), (IHxs ys Hys). exact Hl. }
    rewrite E. exact Hw.
  - (* tuple *)
    match goal with H : list_all _ _ _ |- _ => apply list_all_Forall in H;
      rename H into IH end.
    cbn [wire] in Hw. apply bind_OK in Hw as (l & Hl & Hw). cbn [serialise].
    assert (E : mapM serialise xs = OK l).
    { clear Hw. revert l Hl. induction IH as [|x xs Hx _ IHxs]; intros l Hl.
      - exact Hl.
      - cbn [mapM] in Hl |- *.
        apply bind_OK in Hl as (y & Hy & Hl).
        apply bind_OK in Hl as (ys & Hys & Hl).
        rewrite (Hx y Hy), (IHxs ys Hys). exact Hl. }
    rewrite E. exact Hw.
  - (* dict *)
    match goal with H : list_all _ _ _ |- _ => apply prod_all_snd in H;
      rename H into IH end.
    cbn [wire] in Hw. apply bind_OK in Hw as (l & Hl & Hw). cbn [serialise].
    assert (E : mapM (fun '(k, x) => name <- member_name k ;;
                                     w <- serialise x ;; OK (name, w)) kvs
                = OK l).
    { clear Hw. revert l Hl. induction IH as [|[k x] kvs Hx _ IHxs]; intros l Hl.
      - exact Hl.
      - cbn [mapM] in Hl |- *.
        apply bind_OK in Hl as (y & Hy & Hl).
        apply bind_OK in Hl as (ys & Hys & Hl).
        apply bind_OK in Hy as (name & Hname & Hy).
        apply bind_OK in Hy as (wx & Hwx & Hy).
        cbn [snd] in Hx. injection Hy as <-.
        rewrite Hname. cbn [bind]. rewrite (Hx wx Hwx). cbn [bind].
        rewrite (IHxs ys Hys). exact Hl. }
    rewrite E. exact Hw.
Qed.

(** *** The wire form of a metadata value *)

Lemma metawalk_VList (l : list value) :
  metawalk (VList l)
  = (content <- mapM metawalk l ;;
     OK (encode_dict (VStr "MetaList") (VList content))).
Proof. reflexivity. Qed.

Lemma metawalk_VDict (kvs : list (value * value)) :
  metawalk (VDict kvs)
  = (content <- mapM (fun '(k, v) => v <- metawalk v ;; OK (k, v)) kvs ;;
     OK (encode_dict (VStr "MetaMap") (VDict content))).
Proof. reflexivity. Qed.




(** *** The document *)

Lemma document_written (metadata : list (value * value)) (blocks : list value)
      (format : value) (content : list (value * value))
      (members : list (string * json)) (ws : list json) :
  mapM (fun '(k, v) => v <- metawalk v ;; OK (k, v)) metadata = OK content ->
  wire (VDict content) = OK (JObj members) ->
  mapM serialise blocks = OK ws ->
  encode (Doc metadata (VList blocks) format)
  = OK (JArr [JObj [("unMeta", JObj members)]; JArr ws]).
Proof.
  intros Hc Hm Hws. unfold encode, to_json, to_json_with. rewrite Hc.
  cbn [bind serialise mapM member_name].
  pose proof (serialise_wire _ _ Hm) as Hs. cbn [serialise] in Hs.
  rewrite Hs. cbn [bind]. rewrite Hws. reflexivity.
Qed.



(** * Further properties

    Properties of the functions of the module that the statements above
    leave aside, each read off the source. *)

(** ** Validated children *)

Lemma mapM_length {A B} (f : A -> result B) (l : list A) (ys : list B) :
  mapM f l = OK ys -> List.length ys = List.length l.
Proof.
  intros H. apply mapM_OK_Forall2 in H.
  induction H; cbn [List.length]; congruence.
Qed.

Lemma mapM_forallb {A B} (f : A -> result B) (q : B -> bool)
      (l : list A) (ys : list B) :
  (forall x y, f x = OK y -> q y = true) ->
  mapM f l = OK ys -> forallb q ys = true.
Proof.
  intros Hf H. apply mapM_OK_Forall2 in H.
  induction H as [|x y l ys Hxy _ IH]; [reflexivity|].
  cbn [forallb]. now rewrite (Hf x y Hxy), IH.
Qed.

Lemma mapM_fixed {A} (f : A -> result A) (q : A -> bool) (l : list A) :
  (forall x, q x = true -> f x = OK x) ->
  forallb q l = true -> mapM f l = OK l.
Proof.
  intros Hf. induction l as [|x l IH]; [reflexivity|].
  cbn [forallb mapM]. intros H. apply andb_true_iff in H as [Hx Hl].
  now rewrite (Hf x Hx), (IH Hl).
Qed.

Lemma validate_item_capability (x : value) (has_blocks : bool) (obj y : value) :
  validate_item x has_blocks obj = OK y ->
  isinstance_base y (capability has_blocks) = true.
Proof.
  unfold validate_item, capability. intros H.
  apply bind_OK in H as (x' & _ & H).
  destruct (isinstance_base x' _) eqn:E.
  - injection H as <-. exact E.
  - destruct (error_message x' has_blocks obj); discriminate H.
Qed.

Lemma init_items_depth (obj : value) (args : list value) (has_blocks : bool)
      (depth : Z) (items : list value) :
  init_items obj args has_blocks depth = OK items ->
  depth = 1 \/ depth = 2 \/ depth = 3.
Proof.
  unfold init_items. intros H. apply bind_OK in H as (u & H & H').
  clear H'. unfold assert in H. cbn [existsb] in H.
  destruct (Z.eqb_spec depth 1) as [|_]; [left; assumption|].
  destruct (Z.eqb_spec depth 2) as [|_]; [right; left; assumption|].
  destruct (Z.eqb_spec depth 3) as [|_]; [right; right; assumption|].
  discriminate H.
Qed.

Lemma init_items_3 (obj : value) (args : list value) (has_blocks : bool) :
  init_items obj args has_blocks 3
  = mapM (fun z =>
            zs <- iter z ;;
            rows <- mapM (fun y =>
                            ys <- iter y ;;
                            row <- mapM (fun x => validate_item x has_blocks obj) ys ;;
                            OK (VList row)) zs ;;
            OK (VList rows)) args.
Proof. reflexivity. Qed.

Lemma init_items_nested (obj : value) (args : list value)
      (has_blocks : bool) (depth : Z) (items : list value) :
  init_items obj args has_blocks depth = OK items ->
  nested (Z.to_nat depth) (fun x => isinstance_base x (capability has_blocks))
         (VList items) = true.
Proof.
  intros H.
  assert (Hrow : forall y row,
             (ys <- iter y ;;
              row <- mapM (fun x => validate_item x has_blocks obj) ys ;;
              OK (VList row)) = OK row ->
             nested 1 (fun x => isinstance_base x (capability has_blocks)) row
             = true).
  { intros y row Hr. apply bind_OK in Hr as (ys & _ & Hr).
    apply bind_OK in Hr as (r & Hr & E). injection E as <-.
    cbn [nested]. eapply mapM_forallb; [|exact Hr].
    intros x x'. apply validate_item_capability. }
  destruct (init_items_depth _ _ _ _ _ H) as [-> | [-> | ->]].
  - rewrite init_items_1 in H.
    change (Z.to_nat 1) with 1%nat. cbn [nested].
    eapply mapM_forallb; [|exact H].
    intros x x'. apply validate_item_capability.
  - rewrite init_items_2 in H.
    change (forallb (nested 1 (fun x => isinstance_base x (capability has_blocks)))
                    items = true).
    eapply mapM_forallb; [|exact H]. exact Hrow.
  - rewrite init_items_3 in H.
    change (forallb (nested 2 (fun x => isinstance_base x (capability has_blocks)))
                    items = true).
    eapply mapM_forallb; [|exact H].
    intros z rows Hr. apply bind_OK in Hr as (zs & _ & Hr).
    apply bind_OK in Hr as (r & Hr & E). injection E as <-.
    change (forallb (nested 1 (fun x => isinstance_base x (capability has_blocks)))
                    r = true).
    eapply mapM_forallb; [|exact Hr]. exact Hrow.
Qed.

(** X5. Whenever [init_items] returns, the depth is 1, 2 or 3, the result
    has one entry per argument, and it is a list nested that deep whose
    leaves are all instances of the required base class: [Block] when
    [has_blocks] is set, [Inline] otherwise. *)
Theorem init_items_validated (obj : value) (args : list value)
        (has_blocks : bool) (depth : Z) (items : list value) :
  init_items obj args has_blocks depth = OK items ->
  (depth = 1 \/ depth = 2 \/ depth = 3)
  /\ List.length items = List.length args
  /\ nested (Z.to_nat depth)
            (fun x => isinstance_base x (capability has_blocks))
            (VList items) = true.
Proof.
  intros H. pose proof (init_items_depth _ _ _ _ _ H) as Hd.
  split; [exact Hd|]. split; [|exact (init_items_nested _ _ _ _ _ H)].
  destruct Hd as [-> | [-> | ->]];
    rewrite ?init_items_1, ?init_items_2, ?init_items_3 in H;
    eapply mapM_length; exact H.
Qed.

(** [BulletList] of two items, read at depth 2. *)
Lemma init_items_validated_witness :
  let args := [VList [VClass Class.Para; Null]; VTuple [Plain [Str (VStr "a")]]] in
  let items := [VList [Para []; Null]; VList [Plain [Str (VStr "a")]]] in
  init_items (VClass Class.BulletList) args true 2 = OK items
  /\ List.length items = List.length args
  /\ nested 2 (fun x => isinstance_base x Class.Block) (VList items) = true.
Proof.
  intros args items. split; [reflexivity|].
  exact (proj2 (init_items_validated (VClass Class.BulletList) args true 2
                                     items eq_refl)).
Defined.

Lemma nested_revalidated (obj : value) (has_blocks : bool) :
  let p := fun x => isinstance_base x (capability has_blocks) in
  let validated := fun x => validate_item x has_blocks obj in
  let row := fun y => ys <- iter y ;; r <- mapM validated ys ;; OK (VList r) in
  (forall items, forallb p items = true -> mapM validated items = OK items)
  /\ (forall y, nested 1 p y = true -> row y = OK y)
  /\ (forall z, nested 2 p z = true ->
                (zs <- iter z ;; rows <- mapM row zs ;; OK (VList rows)) = OK z).
Proof.
  intros p validated row.
  assert (H1 : forall items, forallb p items = true ->
                             mapM validated items = OK items).
  { intros items. apply mapM_fixed. intros x. apply validate_item_instance. }
  assert (H2 : forall y, nested 1 p y = true -> row y = OK y).
  { intros y Hy. destruct y; try discriminate Hy. cbn [nested] in Hy.
    unfold row. cbn [iter bind]. now rewrite (H1 _ Hy). }
  split; [exact H1|]. split; [exact H2|].
  intros z Hz. destruct z; try discriminate Hz.
  cbn [iter bind]. rewrite (mapM_fixed row (nested 1 p)); [reflexivity|exact H2|].
  exact Hz.
Qed.

(** X4. The children that [init_items] returns are a fixed point of the
    validation: validating them again, at the same depth and under any
    parent, returns them unchanged. *)
Theorem init_items_idempotent (obj : value) (args : list value)
        (has_blocks : bool) (depth : Z) (items : list value) :
  init_items obj args has_blocks depth = OK items ->
  forall parent, init_items parent items has_blocks depth = OK items.
Proof.
  intros H parent.
  destruct (nested_revalidated parent has_blocks) as (H1 & H2 & H3).
  pose proof (init_items_nested _ _ _ _ _ H) as Hn.
  destruct (init_items_depth _ _ _ _ _ H) as [-> | [-> | ->]].
  - rewrite init_items_1. apply H1. exact Hn.
  - rewrite init_items_2. apply (mapM_fixed _ _ _ H2). exact Hn.
  - rewrite init_items_3. apply (mapM_fixed _ _ _ H3). exact Hn.
Qed.

Lemma init_items_idempotent_witness :
  init_items (VClass Class.Para) [VClass Class.Space; Str (VStr "a")] false 1
  = OK [Space; Str (VStr "a")]
  /\ init_items (VClass Class.Emph) [Space; Str (VStr "a")] false 1
     = OK [Space; Str (VStr "a")].
Proof.
  split; [reflexivity|].
  exact (init_items_idempotent (VClass Class.Para)
                               [VClass Class.Space; Str (VStr "a")] false 1
                               [Space; Str (VStr "a")] eq_refl
                               (VClass Class.Emph)).
Defined.

(** ** The attribute bundle and the list descriptor *)

(** X6. Whatever [init_ica] stores satisfies its three checks: the
    identifier is the given one and is a string, the attributes are a
    mapping, the classes can be iterated and every class is a string;
    classes and attributes are the given ones when they are truthy, an
    empty list and an empty mapping otherwise. *)
Theorem init_ica_postcondition
        (identifier classes attributes i c a : value) :
  init_ica identifier classes attributes = OK (i, c, a) ->
  i = identifier /\ is_str i = true
  /\ c = (if truthy classes then classes else VList [])
  /\ a = (if truthy attributes then attributes else VDict [])
  /\ is_dict a = true
  /\ exists cls, iter c = OK cls /\ forallb is_str cls = true.
Proof.
  unfold init_ica, assert. intros H.
  destruct (is_str identifier) eqn:Hi; [|discriminate H].
  destruct (is_dict (if truthy attributes then attributes else VDict [])) eqn:Ha;
    [|discriminate H].
  cbn [bind] in H.
  destruct (iter (if truthy classes then classes else VList [])) as [cls|e] eqn:Hc;
    [|discriminate H].
  cbn [bind] in H. destruct (forallb is_str cls) eqn:Hs; [|discriminate H].
  injection H as <- <- <-.
  repeat split; try assumption; try reflexivity.
  exists cls. split; assumption.
Qed.

Lemma init_ica_postcondition_witness :
  init_ica (VStr "sec1") (VTuple [VStr "a"; VStr "b"]) VNone
  = OK (VStr "sec1", VTuple [VStr "a"; VStr "b"], VDict [])
  /\ is_dict (VDict []) = true
  /\ exists cls, iter (VTuple [VStr "a"; VStr "b"]) = OK cls
                 /\ forallb is_str cls = true.
Proof.
  split; [reflexivity|].
  pose proof (init_ica_postcondition
                (VStr "sec1") (VTuple [VStr "a"; VStr "b"]) VNone
                (VStr "sec1") (VTuple [VStr "a"; VStr "b"]) (VDict []) eq_refl)
    as (_ & _ & _ & _ & Hd & Hc).
  split; [exact Hd | exact Hc].
Defined.

Lemma chars_are_strings (s : string) : forallb is_str (chars s) = true.
Proof. induction s as [|ch s IH]; [reflexivity | exact IH]. Qed.

(** X7. Edge cases of [init_ica] for a string identifier.  Any falsy
    value given for the classes or for the attributes ([None], [0], [''],
    [False], an empty container) is replaced by the default.  A non-empty
    string given for the classes is accepted and stored as it is, each of
    its characters being a string.  Truthy attributes that are not a
    mapping fail the assertion whatever the classes are, and truthy
    classes that cannot be iterated raise the error of the iteration. *)
Theorem init_ica_edge_cases (identifier : string) :
  (forall classes attributes,
      truthy classes = false -> truthy attributes = false ->
      init_ica (VStr identifier) classes attributes
      = OK (VStr identifier, VList [], VDict []))
  /\ (forall s attributes,
         s <> ""%string -> truthy attributes = false ->
         init_ica (VStr identifier) (VStr s) attributes
         = OK (VStr identifier, VStr s, VDict []))
  /\ (forall classes attributes,
         truthy attributes = true -> is_dict attributes = false ->
         init_ica (VStr identifier) classes attributes
         = Raise (AssertionError no_message))
  /\ (forall classes attributes e,
         truthy classes = true -> iter classes = Raise e ->
         is_dict (if truthy attributes then attributes else VDict []) = true ->
         init_ica (VStr identifier) classes attributes = Raise e).
Proof.
  unfold init_ica. repeat split.
  - intros classes attributes -> ->. reflexivity.
  - intros s attributes Hs ->. cbn [truthy].
    destruct (String.eqb_spec s "") as [E|_]; [contradiction|].
    cbn. now rewrite chars_are_strings.
  - intros classes attributes -> ->. reflexivity.
  - intros classes attributes e -> He ->. cbn. now rewrite He.
Qed.

(** *** [init_ssd] *)

Lemma pow2_pos (k : Z) : 0 <= k -> 0 < 2 ^ k.
Proof. intros H. apply Z.pow_pos_nonneg; lia. Qed.

Lemma dyadic_eqb_int (m e n : Z) :
  dyadic_eqb (m, e) (n, 0) = true
  <-> (if 0 <=? e then m * 2 ^ e = n else m = n * 2 ^ (- e)).
Proof.
  unfold dyadic_eqb, dyadic_compare.
  destruct (Z.leb_spec 0 e) as [He|He].
  - rewrite Z.min_r by lia. rewrite !Z.sub_0_r. cbn [Z.pow]. rewrite Z.mul_1_r.
    destruct (Z.compare_spec (m * 2 ^ e) n); split; intros; congruence || lia.
  - rewrite Z.min_l by lia. rewrite Z.sub_diag, Z.sub_0_l. cbn [Z.pow].
    rewrite Z.mul_1_r.
    destruct (Z.compare_spec m (n * 2 ^ (- e))); split; intros; congruence || lia.
Qed.

Lemma dyadic_leb_0 (m e : Z) : dyadic_leb (0, 0) (m, e) = true <-> 0 <= m.
Proof.
  unfold dyadic_leb, dyadic_compare. rewrite Z.mul_0_l.
  assert (Hp : 0 < 2 ^ (e - Z.min 0 e)) by (apply pow2_pos; lia).
  destruct (Z.compare_spec 0 (m * 2 ^ (e - Z.min 0 e))); split; intros;
    try reflexivity; try discriminate; nia.
Qed.

Lemma existsb_eq_str (x : value) (names : list string) :
  existsb (eq_str x) names = enum_ok names x.
Proof.
  destruct x; try reflexivity;
    induction names as [|name names IH]; try reflexivity; exact IH.
Qed.

Lemma in_set_enum (x : value) (names : list string) :
  in_set x names = OK true <-> enum_ok names x = true.
Proof.
  unfold in_set. rewrite existsb_eq_str. destruct (hashable x) eqn:Hx.
  - split; [intros H; now injection H | intros ->; reflexivity].
  - split; [intros H; discriminate H|].
    destruct x; try discriminate Hx; intros H; discriminate H.
Qed.

Lemma integer_of_number (x : value) (n : Z) :
  eq_int x n = true ->
  py_int x = OK n /\ le_int 0 x = OK (0 <=? n).
Proof.
  unfold eq_int, le_int. destruct x; cbn [number py_int]; try discriminate.
  - destruct b; intros H; apply dyadic_eqb_int in H; cbn in H; subst n;
      split; reflexivity.
  - intros H. apply dyadic_eqb_int in H. cbn in H. rewrite Z.mul_1_r in H.
    subst n0. split; [reflexivity|]. f_equal.
    apply eq_true_iff_eq. rewrite dyadic_leb_0. symmetry. apply Z.leb_le.
  - intros H. apply dyadic_eqb_int in H.
    destruct (Z.leb_spec 0 e) as [He|He].
    + subst n. split; [reflexivity|]. f_equal.
      apply eq_true_iff_eq. rewrite dyadic_leb_0, Z.leb_le.
      pose proof (pow2_pos e He). split; intros; nia.
    + assert (Hp : 0 < 2 ^ (- e)) by (apply pow2_pos; lia).
      subst m. rewrite Z.quot_mul by lia. split; [reflexivity|]. f_equal.
      apply eq_true_iff_eq. rewrite dyadic_leb_0, Z.leb_le.
      split; intros; nia.
Qed.

(** X8. [init_ssd] stores its three arguments unchanged, and it returns
    exactly when the start is a number equal to a non-negative integer (an
    int, a bool, or a float without fractional part) and the style and the
    delimiter are strings of their name sets. *)
Theorem init_ssd_accepts (start style delimiter : value) :
  (forall ssd, init_ssd start style delimiter = OK ssd ->
               ssd = (start, style, delimiter))
  /\ (init_ssd start style delimiter = OK (start, style, delimiter)
      <-> nonnegative_integer start
          /\ enum_ok LIST_NUMBER_STYLES style = true
          /\ enum_ok LIST_NUMBER_DELIMITERS delimiter = true).
Proof.
  split; [intros ssd; apply init_ssd_OK|].
  unfold init_ssd, nonnegative_integer. split.
  - intros H. apply bind_OK in H as (n & Hn & H).
    apply bind_OK in H as (ok & Hok & H).
    apply bind_OK in H as (u & Hu & H).
    apply bind_OK in H as (b1 & Hb1 & H).
    apply bind_OK in H as (u1 & Hu1 & H).
    apply bind_OK in H as (b2 & Hb2 & H).
    apply bind_OK in H as (u2 & Hu2 & _).
    unfold assert in Hu, Hu1, Hu2.
    destruct ok; [|discriminate Hu]. destruct b1; [|discriminate Hu1].
    destruct b2; [|discriminate Hu2].
    split; [|split; apply in_set_enum; assumption].
    destruct (eq_int start n) eqn:E; [|discriminate Hok].
    exists n. split; [|exact E].
    destruct (integer_of_number start n E) as (_ & Hle).
    rewrite Hle in Hok. injection Hok as Hok. now apply Z.leb_le.
  - intros ((n & Hn & E) & Hs & Hd).
    destruct (integer_of_number start n E) as (Hi & Hle).
    rewrite Hi. cbn [bind]. rewrite E, Hle.
    apply Z.leb_le in Hn. rewrite Hn. cbn [bind assert].
    apply in_set_enum in Hs, Hd. now rewrite Hs, Hd.
Qed.

(** ** The members that [from_json] reads *)

(** X9. The decoder looks at the first two members of an object only.
    Members written after ["t"] and ["c"] are ignored once their own
    values have been decoded; an object whose first member is ["t"] fails
    with IndexError when it has no second member, and with an assertion
    error when the second is not named ["c"]; an object that names ["c"]
    before ["t"] is not read as a tagged value, and comes back as the
    list of its two members. *)
Theorem decode_reads_two_members (tag content : json) :
  (forall more extra,
      mapM (fun '(k, w) => v <- decode w ;; OK (k, v)) more = OK extra ->
      decode (JObj (("t", tag) :: ("c", content) :: more))
      = decode (JObj [("t", tag); ("c", content)]))
  /\ (forall t, decode tag = OK t ->
                decode (JObj [("t", tag)])
                = Raise (IndexError "list index out of range"))
  /\ (forall t c key more extra,
         decode tag = OK t -> decode content = OK c -> key <> "c"%string ->
         mapM (fun '(k, w) => v <- decode w ;; OK (k, v)) more = OK extra ->
         decode (JObj (("t", tag) :: (key, content) :: more))
         = Raise (AssertionError no_message))
  /\ (forall t c,
         decode tag = OK t -> decode content = OK c ->
         decode (JObj [("c", content); ("t", tag)])
         = OK (VList [VTuple [VStr "c"; c]; VTuple [VStr "t"; t]])).
Proof.
  repeat split.
  - intros more extra Hm.
    change (decode (JObj (("t", tag) :: ("c", content) :: more)))
      with (data <- (v <- (v <- decode tag ;; OK ("t", v)) ;;
                     ys <- (v <- (v <- decode content ;; OK ("c", v)) ;;
                            ys <- mapM (fun '(k, w) => v <- decode w ;; OK (k, v))
                                       more ;;
                            OK (v :: ys)) ;;
                     OK (v :: ys)) ;;
            from_json data).
    rewrite Hm.
    change (decode (JObj [("t", tag); ("c", content)]))
      with (data <- (v <- (v <- decode tag ;; OK ("t", v)) ;;
                     ys <- (v <- (v <- decode content ;; OK ("c", v)) ;;
                            ys <- OK [] ;;
                            OK (v :: ys)) ;;
                     OK (v :: ys)) ;;
            from_json data).
    destruct (decode tag) as [t|e]; [|reflexivity].
    destruct (decode content) as [c|e]; reflexivity.
  - intros t Ht.
    change (decode (JObj [("t", tag)]))
      with (data <- (v <- (v <- decode tag ;; OK ("t", v)) ;;
                     ys <- OK [] ;; OK (v :: ys)) ;;
            from_json data).
    rewrite Ht. reflexivity.
  - intros t c key more extra Ht Hc Hk Hm.
    change (decode (JObj (("t", tag) :: (key, content) :: more)))
      with (data <- (v <- (v <- decode tag ;; OK ("t", v)) ;;
                     ys <- (v <- (v <- decode content ;; OK (key, v)) ;;
                            ys <- mapM (fun '(k, w) => v <- decode w ;; OK (k, v))
                                       more ;;
                            OK (v :: ys)) ;;
                     OK (v :: ys)) ;;
            from_json data).
    rewrite Ht, Hc, Hm. cbn [bind from_json negb String.eqb Ascii.eqb Bool.eqb].
    destruct (String.eqb_spec key "c") as [E|_]; [contradiction | reflexivity].
  - intros t c Ht Hc.
    change (decode (JObj [("c", content); ("t", tag)]))
      with (data <- (v <- (v <- decode content ;; OK ("c", v)) ;;
                     ys <- (v <- (v <- decode tag ;; OK ("t", v)) ;;
                            ys <- OK [] ;; OK (v :: ys)) ;;
                     OK (v :: ys)) ;;
            from_json data).
    rewrite Ht, Hc. reflexivity.
Qed.

(** A tag that is not a string is equal to none of the tag literals. *)
Lemma from_json_tag_not_str (tag c : value) :
  is_str tag = false ->
  from_json_tag tag c
  = (special <- in_set tag SPECIAL_ELEMENTS ;;
     if special then OK tag
     else Raise (TypeError "can only concatenate str to str")).
Proof.
  intros H. destruct tag; try discriminate H; reflexivity.
Qed.

(** X10. A tagged value whose tag is not a string is never decoded, and
    the error is not the unknown-tag exception: a list or a mapping for
    tag raises TypeError when it is hashed for the membership test, and
    any other tag raises TypeError when it is appended to the text of the
    message. *)
Theorem decode_tag_not_a_string (tag c : value) (more : list (string * value)) :
  is_str tag = false ->
  exists why,
    from_json_tag tag c = Raise (TypeError why)
    /\ from_json (("t", tag) :: ("c", c) :: more) = Raise (TypeError why).
Proof.
  intros H.
  assert (E : exists why, from_json_tag tag c = Raise (TypeError why)).
  { rewrite (from_json_tag_not_str tag c H). unfold in_set.
    rewrite existsb_eq_str.
    assert (En : enum_ok SPECIAL_ELEMENTS tag = false)
      by (destruct tag; try discriminate H; reflexivity).
    rewrite En. destruct (hashable tag); eexists; reflexivity. }
  destruct E as (why & E). exists why. split; exact E.
Qed.

Lemma decode_tag_not_a_string_witness :
  exists why,
    from_json_tag (VInt 7) (VList []) = Raise (TypeError why)
    /\ from_json [("t", VInt 7); ("c", VList [])] = Raise (TypeError why).
Proof. exact (decode_tag_not_a_string (VInt 7) (VList []) [] eq_refl). Defined.

(** X18. The content of a [MetaBool] is tested with [c in {True, False}],
    which compares by value: the decoder returns the content itself
    exactly when it is hashable and equal to 1 or to 0, so that the
    numbers [1], [0], [1.0] and [0.0] pass as well as the two booleans;
    and [metawalk] refuses every such content that is not a [bool]. *)
Theorem MetaBool_content (c : value) :
  (forall v, from_json_tag (VStr "MetaBool") c = OK v ->
             v = c /\ hashable c = true /\ (eq_int c 1 || eq_int c 0) = true)
  /\ (hashable c = true -> (eq_int c 1 || eq_int c 0) = true ->
      from_json_tag (VStr "MetaBool") c = OK c
      /\ ((forall b, c <> VBool b) ->
          metawalk c = Raise (AssertionError (message_type (type_name c))))).
Proof.
  assert (E : from_json_tag (VStr "MetaBool") c
              = if hashable c
                then assert (eq_int c 1 || eq_int c 0) (message_value c) ;;; OK c
                else unhashable c) by reflexivity.
  rewrite E. split.
  - intros v H. destruct (hashable c); [|discriminate H].
    unfold assert in H. destruct (eq_int c 1 || eq_int c 0); [|discriminate H].
    injection H as <-. repeat split.
  - intros Hh He. rewrite Hh, He. split; [reflexivity|].
    intros Hb. destruct c; try reflexivity; try discriminate He;
      try discriminate Hh. now destruct (Hb b).
Qed.

(** ** More on [Doc.get_metadata] *)

Lemma get_metadata_loop_TypeError (keys : list string) (meta default : value)
      (e : exn) :
  get_metadata_loop keys meta default = Raise e -> exists why, e = TypeError why.
Proof.
  revert meta. induction keys as [|key keys IH]; intros meta H;
    [discriminate H|].
  cbn [get_metadata_loop] in H.
  destruct (contains_key meta key) as [found|e'] eqn:Hc; cbn [bind] in H.
  - destruct found; cbn [negb] in H; [|discriminate H].
    destruct (subscript meta key) as [meta'|e'] eqn:Hs; cbn [bind] in H.
    + exact (IH meta' H).
    + injection H as <-.
      destruct meta; cbn [subscript] in Hs;
        try (injection Hs as <-; eexists; reflexivity).
      cbn [contains_key] in Hc.
      destruct (dict_get kvs (VStr key)); [discriminate Hs | discriminate Hc].
  - injection H as <-.
    destruct meta; cbn [contains_key] in Hc; try discriminate Hc;
      injection Hc as <-; eexists; reflexivity.
Qed.

(** X13. A metadata request on a document never raises KeyError, nor any
    exception other than TypeError: a key is subscripted only after the
    membership test has found it, and the only failures are the ones of
    [key in meta] and [meta[key]] on a value met on the way that is not a
    mapping. *)
Theorem get_metadata_raises_only_TypeError
        (metadata : list (value * value)) (items format : value)
        (request : string) (default : value) (e : exn) :
  get_metadata (Doc metadata items format) request default = Raise e ->
  exists why, e = TypeError why.
Proof. apply get_metadata_loop_TypeError. Qed.

(** The title is a string that contains the second key: the membership
    test succeeds and the subscript fails. *)
Lemma get_metadata_raises_only_TypeError_witness :
  let doc := Doc [(VStr "title", VStr "a-b-c")] (VList []) (VStr "html") in
  get_metadata doc "title.b" VNone
  = Raise (TypeError "string indices must be integers, not 'str'")
  /\ exists why,
      TypeError "string indices must be integers, not 'str'" = TypeError why.
Proof.
  intros doc. split; [reflexivity|].
  exact (get_metadata_raises_only_TypeError
           [(VStr "title", VStr "a-b-c")] (VList []) (VStr "html") "title.b"
           VNone (TypeError "string indices must be integers, not 'str'")
           eq_refl).
Defined.

Lemma split_dot_plain (key : string) :
  str_contains key "." = false -> split_dot key = [key].
Proof.
  induction key as [|c t IH]; intros H; [reflexivity|].
  cbn [str_contains String.prefix] in H. cbn [split_dot].
  destruct (Ascii.eqb_spec c ".") as [->|Hc].
  - destruct t; discriminate H.
  - destruct (ascii_dec "." c) as [E|_]; [congruence|].
    cbn [orb] in H. now rewrite (IH H).
Qed.

(** X14. A request that contains no dot is one lookup in the metadata of
    the document: it never raises, and it returns the entry of that key
    when there is one and the default otherwise. *)
Theorem get_metadata_plain_key
        (metadata : list (value * value)) (items format : value)
        (key : string) (default : value) :
  str_contains key "." = false ->
  get_metadata (Doc metadata items format) key default
  = OK (match dict_get metadata (VStr key) with
        | Some v => v
        | None => default
        end).
Proof.
  intros H. unfold get_metadata. rewrite (split_dot_plain key H).
  cbn [get_metadata_loop contains_key subscript bind].
  destruct (dict_get metadata (VStr key)); reflexivity.
Qed.

Lemma get_metadata_plain_key_witness :
  let doc := Doc [(VStr "title", VStr "T")] (VList []) (VStr "html") in
  get_metadata doc "title" VNone = OK (VStr "T")
  /\ get_metadata doc "author" VNone = OK VNone.
Proof.
  intros doc. split.
  - exact (get_metadata_plain_key [(VStr "title", VStr "T")] (VList [])
                                  (VStr "html") "title" VNone eq_refl).
  - reflexivity.
Defined.

Lemma split_dot_nonempty (s : string) : split_dot s <> [].
Proof.
  destruct s as [|c t]; cbn [split_dot]; [discriminate|].
  destruct (Ascii.eqb c "."); [discriminate|].
  destruct (split_dot t); discriminate.
Qed.

Lemma split_dot_app (a b : string) :
  split_dot (a ++ "." ++ b) = (split_dot a ++ split_dot b)%list.
Proof.
  induction a as [|c t IH]; [reflexivity|].
  cbn [String.append split_dot] in *. destruct (Ascii.eqb c ".").
  - now rewrite IH.
  - rewrite IH. pose proof (split_dot_nonempty t) as Hn.
    destruct (split_dot t); [contradiction | reflexivity].
Qed.

Lemma get_metadata_loop_app (keys keys' : list string) (meta found : value) :
  (forall d, get_metadata_loop keys meta d = OK found) ->
  forall default,
    get_metadata_loop (keys ++ keys') meta default
    = get_metadata_loop keys' found default.
Proof.
  revert meta. induction keys as [|key keys IH]; intros meta H default.
  - specialize (H VNone). injection H as <-. reflexivity.
  - cbn [app get_metadata_loop] in *.
    destruct (contains_key meta key) as [[|]|e] eqn:Hc; cbn [bind negb] in *.
    + destruct (subscript meta key) as [meta'|e] eqn:Hs; cbn [bind] in *.
      * now apply IH.
      * discriminate (H VNone).
    + pose proof (H VNone) as H1. pose proof (H (VBool true)) as H2.
      congruence.
    + discriminate (H VNone).
Qed.

(** X12. Requests compose.  When the request [outer] finds a mapping,
    whatever the default is, the request [outer.inner] on the document is
    the request [inner] on a document that has this mapping for
    metadata. *)
Theorem get_metadata_composes
        (metadata inner_map : list (value * value)) (items format : value)
        (outer inner : string) (default : value) :
  (forall d, get_metadata (Doc metadata items format) outer d
             = OK (VDict inner_map)) ->
  get_metadata (Doc metadata items format) (outer ++ "." ++ inner) default
  = get_metadata (Doc inner_map items format) inner default.
Proof.
  unfold get_metadata. intros H. rewrite split_dot_app.
  now apply get_metadata_loop_app.
Qed.

Lemma get_metadata_composes_witness :
  let inner_map := [(VStr "show-frame", VBool true)] in
  let doc metadata := Doc metadata (VList []) (VStr "beamer") in
  get_metadata (doc [(VStr "format", VDict inner_map)]) "format.show-frame"
               (VBool false)
  = get_metadata (doc inner_map) "show-frame" (VBool false).
Proof.
  intros inner_map doc.
  refine (get_metadata_composes [(VStr "format", VDict inner_map)] inner_map
                                (VList []) (VStr "beamer") "format" "show-frame"
                                (VBool false) _).
  intros d. reflexivity.
Defined.

(** ** Kinds that cannot be built *)

Lemma Citation_init_raises (h i mode n prefix suffix : value) :
  raised (Citation_init h i mode n prefix suffix).
Proof.
  unfold Citation_init. apply raised_bind. intros m _.
  apply raised_Raise.
Qed.

(** X11. The calls of [init_items] that leave out its [args] parameter
    fail before anything is validated, and no argument gets past them:
    every call of the [Table] constructor raises, so that no wire value
    tagged ["Table"] is decoded; every call of the [Citation] constructor
    raises; a [Cite] is built only from an empty sequence of citations,
    and a [DefinitionList] only from no entry at all. *)
Theorem unconstructible_kinds :
  (forall args header caption alignment width,
      raised (Table_init args header caption alignment width))
  /\ (forall content,
         raised (decode (JObj [("t", JStr "Table"); ("c", content)])))
  /\ (forall h i mode n prefix suffix,
         raised (Citation_init h i mode n prefix suffix))
  /\ (forall args citations node,
         Cite_init args citations = OK node -> iter citations = OK [])
  /\ (forall args node,
         DefinitionList_init args = OK node ->
         args = [] /\ node = DefinitionList []).
Proof.
  split; [exact Table_init_raises|].
  split.
  { intros content. rewrite decode_tagged. apply raised_bind. intros c _.
    destruct (from_json_tag (VStr "Table") c) as [v|e] eqn:E.
    - now destruct (Table_not_decoded c v).
    - apply raised_Raise. }
  split; [exact Citation_init_raises|].
  split.
  - intros args citations node H. unfold Cite_init in H.
    apply bind_OK in H as (cs & Hcs & H).
    apply bind_OK in H as (built & Hb & _).
    rewrite Hcs. f_equal.
    exact (mapM_raised_nil Citation_of cs built Citation_of_raises Hb).
  - intros args node H. destruct args as [|entry args].
    + split; [reflexivity|]. now injection H.
    + destruct (DefinitionList_init_raises entry args) as (e & E). congruence.
Qed.

(** ** [decode_ica] after [encode_ica] *)

Lemma distinct_keys_middle (l1 l2 : list value) (k : value) :
  distinct_keys (l1 ++ k :: l2) = true ->
  hashable k = true /\ existsb (fun k' => key_eqb k' k) l1 = false.
Proof.
  induction l1 as [|a l1 IH]; cbn [app distinct_keys existsb]; intros H.
  - apply andb_true_iff in H as [H _]. apply andb_true_iff in H as [H _].
    split; [exact H | reflexivity].
  - apply andb_true_iff in H as [H Hd]. apply andb_true_iff in H as [_ H].
    destruct (IH Hd) as (Hk & Hl1). split; [exact Hk|].
    rewrite Hl1, orb_false_r. apply negb_true_iff in H.
    rewrite existsb_app in H. apply orb_false_iff in H as [_ H].
    cbn [existsb] in H. now apply orb_false_iff in H as [H _].
Qed.

Lemma dict_set_fresh (d : list (value * value)) (k v : value) :
  existsb (fun k' => key_eqb k' k) (map fst d) = false ->
  dict_set d k v = (d ++ [(k, v)])%list.
Proof.
  induction d as [|[k' v'] d IH]; cbn [map fst existsb dict_set app]; intros H;
    [reflexivity|].
  apply orb_false_iff in H as [Hk Hd]. now rewrite Hk, (IH Hd).
Qed.

Lemma dict_updates_entries (tuple : bool) (kvs d : list (value * value)) :
  distinct_keys (map fst d ++ map fst kvs) = true ->
  dict_updates d (map (entry_of tuple) kvs) = OK (d ++ kvs)%list.
Proof.
  revert d. induction kvs as [|[k v] kvs IH]; intros d H.
  - cbn [map dict_updates]. now rewrite app_nil_r.
  - cbn [map fst] in H. destruct (distinct_keys_middle _ _ _ H) as (Hk & Hd).
    cbn [map dict_updates].
    assert (E : dict_update d (entry_of tuple (k, v)) = OK (dict_set d k v)).
    { destruct tuple; cbn [entry_of dict_update iter bind fst snd];
        now rewrite Hk. }
    rewrite E. cbn [bind]. rewrite (dict_set_fresh d k v Hd).
    rewrite IH.
    + now rewrite <- app_assoc.
    + rewrite map_app, <- app_assoc. exact H.
Qed.

Lemma wire_strings (l : list string) :
  mapM wire (map VStr l) = OK (map JStr l)
  /\ mapM decode (map JStr l) = OK (map VStr l).
Proof.
  induction l as [|s l [IH1 IH2]]; [split; reflexivity|].
  cbn [map mapM wire decode bind]. now rewrite IH1, IH2.
Qed.

Lemma wire_string_entries (attrs : list (string * string)) :
  let attributes := map (fun kv => (VStr (fst kv), VStr (snd kv))) attrs in
  let arrays := map (fun kv => JArr [JStr (fst kv); JStr (snd kv)]) attrs in
  mapM wire (items_of attributes) = OK arrays
  /\ mapM decode arrays = OK (map (entry_of false) attributes).
Proof.
  induction attrs as [|[k v] attrs [IH1 IH2]]; [split; reflexivity|].
  cbn zeta in *. unfold items_of in *.
  cbn [map mapM wire decode bind fst snd entry_of].
  now rewrite IH1, IH2.
Qed.

(** X15. [decode_ica] inverts [encode_ica].  For attributes with
    hashable, pairwise different keys (the content of any mapping), the
    triple that [encode_ica] builds is read back by [decode_ica] as the
    three slots it was built from; and when the identifier, the classes
    and the attributes are made of strings, this still holds after the
    triple has been written to the wire and read again, the pairs coming
    back as 2-element lists. *)
Theorem decode_ica_inverts_encode_ica :
  (forall identifier classes attributes,
      distinct_keys (map fst attributes) = true ->
      exists triple,
        encode_ica identifier classes (VDict attributes) = OK triple
        /\ decode_ica triple = OK (identifier, classes, VDict attributes))
  /\ (forall identifier classes attrs,
         let attributes := map (fun kv => (VStr (fst kv), VStr (snd kv))) attrs in
         distinct_keys (map fst attributes) = true ->
         exists triple w triple',
           encode_ica (VStr identifier) (VList (map VStr classes))
                      (VDict attributes) = OK triple
           /\ wire triple = OK w
           /\ decode w = OK triple'
           /\ decode_ica triple'
              = OK (VStr identifier, VList (map VStr classes), VDict attributes)).
Proof.
  split.
  - intros identifier classes attributes H.
    exists (VList [identifier; classes; VList (items_of attributes)]).
    split; [reflexivity|].
    cbn [decode_ica iter bind OrderedDict].
    change (items_of attributes) with (map (entry_of true) attributes).
    now rewrite (dict_updates_entries true attributes [] H).
  - intros identifier classes attrs attributes H.
    destruct (wire_strings classes) as (Hc1 & Hc2).
    destruct (wire_string_entries attrs) as (Ha1 & Ha2). cbn zeta in Ha1, Ha2.
    fold attributes in Ha1, Ha2.
    exists (VList [VStr identifier; VList (map VStr classes);
                   VList (items_of attributes)]).
    exists (JArr [JStr identifier; JArr (map JStr classes);
                  JArr (map (fun kv => JArr [JStr (fst kv); JStr (snd kv)]) attrs)]).
    exists (VList [VStr identifier; VList (map VStr classes);
                   VList (map (entry_of false) attributes)]).
    split; [reflexivity|]. split.
    { cbn [wire mapM bind]. now rewrite Hc1, Ha1. }
    split.
    { cbn [decode mapM bind]. now rewrite Hc2, Ha2. }
    cbn [decode_ica iter bind OrderedDict].
    now rewrite (dict_updates_entries false attributes [] H).
Qed.

(** ** [encode_list] *)

(** X16. [encode_list] returns only for an empty sequence, and then it
    returns the empty list: no value has a [to_json] method, so that a
    first element, of whatever type, raises AttributeError; and an
    argument that cannot be iterated raises the error of the iteration. *)
Theorem encode_list_only_empty (items : value) :
  (forall r, encode_list items = OK r <-> iter items = OK [] /\ r = VList [])
  /\ (forall x xs, iter items = OK (x :: xs) ->
                   exists why, encode_list items = Raise (AttributeError why))
  /\ (forall e, iter items = Raise e -> encode_list items = Raise e).
Proof.
  unfold encode_list. repeat split.
  - destruct (iter items) as [[|x xs]|e]; [reflexivity | discriminate H..].
  - destruct (iter items) as [[|x xs]|e]; cbn in H;
      [now injection H | discriminate H..].
  - intros (-> & ->). reflexivity.
  - intros x xs ->. eexists. reflexivity.
  - intros e ->. reflexivity.
Qed.

(** ** Round trip through the wire: metadata and documents *)

Lemma meta_list_roundtrips (xs : list value) :
  Forall meta_roundtrips xs ->
  forallb meta_ok xs = true ->
  exists rs ws,
    mapM metawalk xs = OK rs /\ mapM wire rs = OK ws /\ mapM decode ws = OK xs.
Proof.
  induction 1 as [|x xs Hx _ IH]; intros Hok.
  - exists [], []. repeat split; reflexivity.
  - cbn [forallb] in Hok. apply andb_true_iff in Hok as [Hokx Hokxs].
    destruct (Hx Hokx) as (r & w & Hr & Hw & Hd).
    destruct (IH Hokxs) as (rs & ws & Hrs & Hws & Hds).
    exists (r :: rs), (w :: ws). cbn [mapM].
    rewrite Hr, Hrs, Hw, Hws, Hd, Hds. repeat split; reflexivity.
Qed.

(** The members of a metadata map: written out under their keys, and
    handed to [from_json] as the list [data] of the decoded members. *)
Lemma meta_members_roundtrip (kvs : list (value * value)) :
  Forall (fun kv => meta_roundtrips (snd kv)) kvs ->
  forallb is_str (map fst kvs) = true ->
  forallb (fun '(_, x) => meta_ok x) kvs = true ->
  exists content members data,
    mapM (fun '(k, v) => v <- metawalk v ;; OK (k, v)) kvs = OK content
    /\ wire (VDict content) = OK (JObj members)
    /\ mapM (fun '(k, w) => v <- decode w ;; OK (k, v)) members = OK data
    /\ kvs = map (fun kv => (VStr (fst kv), snd kv)) data.
Proof.
  induction 1 as [|[k x] kvs Hx _ IH]; intros Hk Hok.
  - exists [], [], []. repeat split; reflexivity.
  - cbn [map fst forallb] in Hk, Hok.
    apply andb_true_iff in Hk as [Hk Hks].
    apply andb_true_iff in Hok as [Hokx Hokxs].
    destruct k; try discriminate Hk.
    destruct (Hx Hokx) as (r & w & Hr & Hw & Hd). cbn [snd] in *.
    destruct (IH Hks Hokxs) as (content & members & data & Hc & Hm & Hdata & E).
    exists ((VStr s, r) :: content), ((s, w) :: members), ((s, x) :: data).
    cbn [wire] in Hm.
    destruct (mapM (fun '(k, x) => name <- member_name k ;; w <- wire x ;; OK (name, w))
                   content) as [ms|e] eqn:Hms; [|discriminate Hm].
    injection Hm as ->.
    cbn [mapM wire member_name bind map fst snd].
    rewrite Hr, Hc, Hw, Hms, Hd, Hdata. cbn [bind]. rewrite <- E.
    repeat split; reflexivity.
Qed.

(** The list of pairs that [from_json] returns for an object that is not
    a tagged value is the list of the entries of the map. *)
Lemma from_json_members (kvs : list (value * value))
      (data : list (string * value)) :
  keys_ok (map fst kvs) = true ->
  kvs = map (fun kv => (VStr (fst kv), snd kv)) data ->
  from_json data = OK (VList (items_of kvs))
  /\ OrderedDict (VList (items_of kvs)) = OK kvs.
Proof.
  intros Hk ->. unfold keys_ok in Hk.
  apply andb_true_iff in Hk as [Hk Hfirst]. apply andb_true_iff in Hk as [_ Hd].
  split.
  - destruct data as [|[key0 value0] rest]; [reflexivity|].
    cbn [map fst eq_str] in Hfirst. apply andb_true_iff in Hfirst as [Ht Hu].
    cbn [from_json]. rewrite Ht. apply negb_true_iff in Hu. rewrite Hu.
    unfold pairs, items_of. rewrite map_map. reflexivity.
  - cbn [OrderedDict iter bind].
    exact (dict_updates_entries true _ [] Hd).
Qed.

Lemma meta_roundtrips_all (v : value) : meta_roundtrips v.
Proof.
  induction v; intros Hok; try discriminate Hok.
  - (* bool *)
    exists (encode_dict (VStr "MetaBool") (VBool b)),
           (JObj [("t", JStr "MetaBool"); ("c", JBool b)]).
    destruct b; repeat split; reflexivity.
  - (* str *)
    exists (VStr s), (JStr s). repeat split; reflexivity.
  - (* list *)
    match goal with H : list_all _ _ _ |- _ => apply list_all_Forall in H;
      destruct (meta_list_roundtrips xs H Hok) as (rs & ws & Hrs & Hws & Hds) end.
    exists (encode_dict (VStr "MetaList") (VList rs)),
           (JObj [("t", JStr "MetaList"); ("c", JArr ws)]).
    rewrite metawalk_VList, Hrs, wire_tagged, wire_VList, Hws, decode_tagged,
      decode_JArr, Hds.
    repeat split; reflexivity.
  - (* map *)
    cbn [meta_ok] in Hok. apply andb_true_iff in Hok as [Hk Hok].
    pose proof Hk as Hk'. unfold keys_ok in Hk'.
    apply andb_true_iff in Hk' as [Hk' _]. apply andb_true_iff in Hk' as [Hs _].
    match goal with H : list_all _ _ _ |- _ => apply prod_all_snd in H;
      destruct (meta_members_roundtrip kvs H Hs Hok)
        as (content & members & data & Hc & Hm & Hdata & E) end.
    destruct (from_json_members kvs data Hk E) as (Hf & Ho).
    exists (encode_dict (VStr "MetaMap") (VDict content)),
           (JObj [("t", JStr "MetaMap"); ("c", JObj members)]).
    rewrite metawalk_VDict, Hc, wire_tagged, Hm, decode_tagged.
    split; [reflexivity|]. split; [reflexivity|].
    change (decode (JObj members))
      with (data <- mapM (fun '(k, w) => v <- decode w ;; OK (k, v)) members ;;
            from_json data).
    rewrite Hdata. cbn [bind]. rewrite Hf. cbn [bind].
    rewrite from_json_tag_MetaMap, Ho. reflexivity.
  - (* MetaInlines *)
    exact (proj1 (canonical_roundtrips_all (MetaInlines items)) Hok).
  - (* MetaBlocks *)
    exact (proj1 (canonical_roundtrips_all (MetaBlocks items)) Hok).
Qed.

(** X3. Metadata round trip.  A metadata value made of strings,
    booleans, lists, string-keyed maps and snippets of canonical nodes is
    written by [metawalk] as plain data that the wire carries, and the
    decoder gives the value back. *)
Theorem metadata_roundtrip (v : value) :
  meta_ok v = true ->
  exists r w, metawalk v = OK r /\ wire r = OK w /\ decode w = OK v.
Proof. exact (meta_roundtrips_all v). Qed.

Lemma metadata_roundtrip_witness :
  let v := VDict [(VStr "title", MetaInlines [Str (VStr "T")]);
                  (VStr "tags", VList [VStr "a"; VBool true]);
                  (VStr "author", VDict [(VStr "name", VStr "N")])] in
  meta_ok v = true
  /\ exists r w, metawalk v = OK r /\ wire r = OK w /\ decode w = OK v.
Proof.
  intros v. split; [reflexivity|].
  exact (metadata_roundtrip v eq_refl).
Defined.

Lemma blocks_roundtrip (blocks : list value) :
  forallb canonical_node blocks = true ->
  exists ws, mapM encode blocks = OK ws /\ mapM decode ws = OK blocks.
Proof.
  induction blocks as [|b blocks IH]; intros Hc.
  - exists []. split; reflexivity.
  - cbn [forallb] in Hc. apply andb_true_iff in Hc as [Hb Hbs].
    destruct (IH Hbs) as (ws & Hws & Hds).
    destruct (proj1 (canonical_roundtrips_all b) Hb) as (r & w & Hr & Hw & Hd).
    assert (Hk : exists k, class_of b = Some k /\ k <> Class.Doc).
    { destruct b; try discriminate Hb; eexists; split;
        try reflexivity; discriminate. }
    destruct Hk as (k & Hk & Hdoc).
    exists (w :: ws). cbn [mapM].
    rewrite (encode_via_to_json b k Hk Hdoc), Hr. cbn [bind].
    rewrite Hw, Hws, Hd, Hds. split; reflexivity.
Qed.

Lemma node_forms_decoded (blocks : list value) (ws : list json) :
  Forall2 node_form blocks ws -> mapM decode ws = OK blocks.
Proof.
  induction 1 as [|b w blocks ws (_ & _ & Hd) _ IH]; [reflexivity|].
  cbn [mapM]. rewrite Hd, IH. reflexivity.
Qed.

(** X2. Document round trip.  A document whose metadata is a map of
    metadata values and whose blocks are canonical nodes is encoded,
    through [to_json], as the 2-element array [[{"unMeta": members}, ws]].
    The decoder reads the first element back as the metadata map and the
    second element as the list of the blocks, so that decoding the whole
    array gives the two-element list of the metadata and of the blocks;
    the output format of the document is not written. *)
Theorem Doc_roundtrip (metadata : list (value * value)) (blocks : list value)
        (format : value) :
  meta_ok (VDict metadata) = true ->
  forallb canonical_node blocks = true ->
  exists members ws,
    encode (Doc metadata (VList blocks) format)
    = OK (JArr [JObj [("unMeta", JObj members)]; JArr ws])
    /\ decode (JObj [("unMeta", JObj members)]) = OK (VDict metadata)
    /\ decode (JArr ws) = OK (VList blocks)
    /\ decode (JArr [JObj [("unMeta", JObj members)]; JArr ws])
       = OK (VList [VDict metadata; VList blocks]).
Proof.
  intros Hm Hb. cbn [meta_ok] in Hm. apply andb_true_iff in Hm as [Hk Hok].
  pose proof Hk as Hk'. unfold keys_ok in Hk'.
  apply andb_true_iff in Hk' as [Hk' _]. apply andb_true_iff in Hk' as [Hs _].
  assert (Hall : Forall (fun kv => meta_roundtrips (snd kv)) metadata).
  { apply Forall_forall. intros kv _. apply meta_roundtrips_all. }
  destruct (meta_members_roundtrip metadata Hall Hs Hok)
    as (content & members & data & Hc & Hw & Hdata & E).
  destruct (from_json_members metadata data Hk E) as (Hf & Ho).
  destruct (blocks_formed blocks Hb) as (ws & Hws & Hfs).
  apply node_forms_decoded in Hfs.
  assert (Hun : decode (JObj [("unMeta", JObj members)]) = OK (VDict metadata)).
  { change (decode (JObj [("unMeta", JObj members)]))
      with (data <- (v <- (v <- (data <- mapM (fun '(k, w) => v <- decode w ;; OK (k, v))
                                                members ;;
                                   from_json data) ;;
                             OK ("unMeta", v)) ;;
                       ys <- OK [] ;; OK (v :: ys)) ;;
              from_json data).
    rewrite Hdata. cbn [bind]. rewrite Hf. cbn [bind].
    cbn [from_json String.eqb Ascii.eqb Bool.eqb negb List.length bind assert
         Z.of_nat Pos.of_succ_nat Z.eqb Pos.eqb].
    rewrite Ho. reflexivity. }
  assert (Hbl : decode (JArr ws) = OK (VList blocks)).
  { rewrite decode_JArr, Hfs. reflexivity. }
  exists members, ws. split; [|split; [exact Hun|split; [exact Hbl|]]].
  - exact (document_written metadata blocks format content members ws Hc Hw Hws).
  - rewrite decode_JArr. cbn [mapM]. rewrite Hun, Hbl. reflexivity.
Qed.

Lemma Doc_roundtrip_witness :
  let metadata := [(VStr "title", MetaInlines [Str (VStr "T")]);
                   (VStr "draft", VBool true)] in
  let blocks := [Para [Str (VStr "a"); Space]; Null] in
  (meta_ok (VDict metadata) = true /\ forallb canonical_node blocks = true)
  /\ exists members ws,
       encode (Doc metadata (VList blocks) (VStr "html"))
       = OK (JArr [JObj [("unMeta", JObj members)]; JArr ws])
       /\ decode (JObj [("unMeta", JObj members)]) = OK (VDict metadata)
       /\ decode (JArr ws) = OK (VList blocks)
       /\ decode (JArr [JObj [("unMeta", JObj members)]; JArr ws])
          = OK (VList [VDict metadata; VList blocks]).
Proof.
  intros metadata blocks. split; [split; reflexivity|].
  exact (Doc_roundtrip metadata blocks (VStr "html") eq_refl eq_refl).
Defined.

(** X19. Two canonical nodes with the same encoding are the same node:
    the encoder loses nothing of a canonical node. *)
Theorem encode_injective (n n' : value) :
  canonical_node n = true -> canonical_node n' = true ->
  encode n = encode n' -> n = n'.
Proof.
  intros Hn Hn' E.
  destruct (blocks_roundtrip [n]) as (ws & Hws & Hds);
    [cbn [forallb]; now rewrite Hn|].
  destruct (blocks_roundtrip [n']) as (ws' & Hws' & Hds');
    [cbn [forallb]; now rewrite Hn'|].
  cbn [mapM] in Hws, Hws'. rewrite E in Hws. rewrite Hws in Hws'.
  injection Hws' as <-. rewrite Hds in Hds'. now injection Hds'.
Qed.

(** The encodings of two different nodes differ. *)
Lemma encode_injective_witness :
  canonical_node (Emph [Str (VStr "a")]) = true
  /\ canonical_node (Strong [Str (VStr "a")]) = true
  /\ encode (Emph [Str (VStr "a")]) <> encode (Strong [Str (VStr "a")]).
Proof.
  split; [reflexivity|]. split; [reflexivity|]. intros E.
  discriminate (encode_injective (Emph [Str (VStr "a")])
                                 (Strong [Str (VStr "a")]) eq_refl eq_refl E).
Defined.

(** ** The encoder on well-built nodes *)

Lemma children_encoded (has_blocks : bool) (xs : list value) :
  Forall encodes xs ->
  forallb (fun x => well_built x
                    && isinstance_base x (capability has_blocks)) xs = true ->
  exists rs, mapM to_json xs = OK rs.
Proof.
  induction 1 as [|x xs Hx _ IH]; intros Hw.
  - exists []. reflexivity.
  - cbn [forallb] in Hw. apply andb_true_iff in Hw as [Hwx Hwxs].
    apply andb_true_iff in Hwx as [Hwx _].
    destruct (Hx Hwx) as (r & Hr). destruct (IH Hwxs) as (rs & Hrs).
    exists (r :: rs). cbn [mapM]. now rewrite Hr, Hrs.
Qed.

Lemma rows_encoded (has_blocks : bool) (items : list value) :
  Forall (fun row => forall xs, row = VList xs -> Forall encodes xs) items ->
  forallb (fun row =>
             match row with
             | VList xs =>
                 forallb (fun x => well_built x
                                   && isinstance_base x (capability has_blocks)) xs
             | _ => false
             end) items = true ->
  exists es, mapM (encode_row to_json) items = OK es.
Proof.
  induction 1 as [|row items Hrow _ IH]; intros Hw.
  - exists []. reflexivity.
  - cbn [forallb] in Hw. apply andb_true_iff in Hw as [Hwr Hws].
    destruct row; try discriminate Hwr.
    destruct (children_encoded has_blocks xs (Hrow xs eq_refl) Hwr) as (rs & Hrs).
    destruct (IH Hws) as (es & Hes).
    exists (VList rs :: es). cbn [mapM encode_row]. now rewrite Hrs, Hes.
Qed.

Lemma encodes_all (v : value) :
  encodes v /\ (forall xs, v = VList xs -> Forall encodes xs).
Proof.
  induction v;
    repeat match goal with
           | IH : list_all _ _ _ |- _ =>
               apply list_all_Forall, Forall_both in IH; destruct IH
           end;
    (split; [|intros ys E; try discriminate E]);
    try (injection E as <-; assumption);
    intros Hw; try discriminate Hw; cbn [well_built] in Hw;
    repeat match goal with
           | H : (_ && _)%bool = true |- _ => apply andb_true_iff in H as [? ?]
           end;
    repeat match goal with
           | H : is_dict ?a = true |- _ => destruct a; try discriminate H; clear H
           end;
    try match goal with
        | H : match ?l with [] => _ | _ :: _ => false end = true |- _ =>
            destruct l; [|discriminate H]
        end;
    try match goal with
        | HF : Forall encodes ?items,
          H : forallb (fun x => well_built x
                                && isinstance_base x (capability ?hb)) ?items = true
          |- _ => destruct (children_encoded hb items HF H) as (rs & Hrs)
        end;
    try match goal with
        | HF : Forall (fun row => forall xs, row = VList xs -> Forall encodes xs)
                      ?items,
          H : forallb _ ?items = true
          |- _ => destruct (rows_encoded true items HF H) as (es & Hes)
        end;
    eexists; to_json_node; cbn [encode_ica encode_items mapM bind]; reflexivity.
Qed.

(** X20. [to_json] returns on every well-built node: the checks of the
    constructors on the children and on the attributes are all that the
    encoder needs, whatever the texts, levels, identifiers, classes and
    enumerated fields hold. *)
Theorem to_json_on_well_built (n : value) :
  well_built n = true -> exists r, to_json n = OK r.
Proof. exact (proj1 (encodes_all n)). Qed.

(** A header with attributes: it is encoded, although the decoder does
    not read it back. *)
Lemma to_json_on_well_built_witness :
  let n := Div [Header (VInt 2) [Str (VStr "x")] (VStr "id") (VList [VStr "c"])
                       (VDict [(VStr "k", VStr "v")])]
               (VStr "") (VList []) (VDict []) in
  exists r, to_json n = OK r.
Proof. intros n. exact (to_json_on_well_built n eq_refl). Defined.

(** ** The constructors build well-built nodes *)

Lemma validate_item_resolved (x : value) (has_blocks : bool) (obj x' : value) :
  validate_item x has_blocks obj = OK x' ->
  resolve x = OK x' /\ isinstance_base x' (capability has_blocks) = true.
Proof.
  intros H. split; [|exact (validate_item_capability _ _ _ _ H)].
  unfold validate_item in H. unfold resolve.
  destruct (if callable x then call x else OK x) as [y|e]; [|discriminate H].
  cbn [bind] in H.
  destruct (isinstance_base y _); [exact H|].
  destruct (error_message y has_blocks obj); discriminate H.
Qed.

Lemma validated_children (has_blocks : bool) (obj : value)
      (args items : list value) :
  mapM (fun x => validate_item x has_blocks obj) args = OK items ->
  resolves_well args ->
  forallb (fun x => well_built x
                    && isinstance_base x (capability has_blocks)) items = true.
Proof.
  intros H. apply mapM_OK_Forall2 in H.
  induction H as [|x x' args items Hx _ IH]; intros Hw; [reflexivity|].
  inversion Hw as [|? ? Hwx Hwxs]; subst.
  destruct (validate_item_resolved _ _ _ _ Hx) as (Hr & Hi).
  cbn [forallb]. now rewrite (Hwx x' Hr), Hi, (IH Hwxs).
Qed.

Lemma validated_rows (has_blocks : bool) (obj : value)
      (args items : list value) :
  mapM (fun y =>
          ys <- iter y ;;
          row <- mapM (fun x => validate_item x has_blocks obj) ys ;;
          OK (VList row)) args = OK items ->
  Forall (fun row => forall xs, iter row = OK xs -> resolves_well xs) args ->
  forallb (fun row =>
             match row with
             | VList xs =>
                 forallb (fun x => well_built x
                                   && isinstance_base x (capability has_blocks)) xs
             | _ => false
             end) items = true.
Proof.
  intros H. apply mapM_OK_Forall2 in H.
  induction H as [|y row args items Hy _ IH]; intros Hw; [reflexivity|].
  inversion Hw as [|? ? Hwy Hwys]; subst.
  apply bind_OK in Hy as (ys & Hys & Hy).
  apply bind_OK in Hy as (r & Hr & E). injection E as <-.
  cbn [forallb].
  now rewrite (validated_children _ _ _ _ Hr (Hwy ys Hys)), (IH Hwys).
Qed.

Lemma init_ica_is_dict (identifier classes attributes i c a : value) :
  init_ica identifier classes attributes = OK (i, c, a) -> is_dict a = true.
Proof.
  unfold init_ica, assert. intros H.
  destruct (is_str identifier); [|discriminate H].
  destruct (is_dict (if truthy attributes then attributes else VDict [])) eqn:Ha;
    [|discriminate H].
  cbn [bind] in H.
  destruct (iter (if truthy classes then classes else VList [])) as [cls|e];
    [|discriminate H].
  cbn [bind] in H. destruct (forallb is_str cls); [|discriminate H].
  injection H as <- <- <-. exact Ha.
Qed.

Ltac constructed H :=
  repeat match type of H with
         | bind _ _ = OK _ =>
             let a := fresh "a" in
             let Ha := fresh "Ha" in
             apply bind_OK in H as (a & Ha & H);
             repeat match goal with
                    | p : (_ * _)%type |- _ => destruct p
                    end
         end;
  injection H as <-;
  repeat match goal with
         | Hi : init_ica _ _ _ = OK _ |- _ => apply init_ica_is_dict in Hi
         | Hi : init_items _ _ _ 1 = OK _ |- _ => rewrite init_items_1 in Hi
         | Hi : init_items _ _ _ 2 = OK _ |- _ => rewrite init_items_2 in Hi
         end.

(** X21. The constructors establish what the encoder needs.  A node
    that a constructor returns is well built as soon as its children
    resolve to well-built nodes: this holds of the kinds with one
    sequence of children, of the two list kinds with their rows, of the
    text kinds, which have no children, and of the definition list. *)
Theorem constructors_build_well :
  (forall k args kw n,
      construct k args kw = OK n -> resolves_well args -> well_built n = true)
  /\ (forall args n,
         BulletList_init args = OK n ->
         Forall (fun row => forall xs, iter row = OK xs -> resolves_well xs) args ->
         well_built n = true)
  /\ (forall args start style delimiter n,
         OrderedList_init args start style delimiter = OK n ->
         Forall (fun row => forall xs, iter row = OK xs -> resolves_well xs) args ->
         well_built n = true)
  /\ (forall text identifier classes attributes format n,
         Str_init text = OK n
         \/ CodeBlock_init text identifier classes attributes = OK n
         \/ Code_init text identifier classes attributes = OK n
         \/ RawBlock_init text format = OK n
         \/ RawInline_init text format = OK n
         \/ Math_init text format = OK n ->
         well_built n = true)
  /\ (forall args n, DefinitionList_init args = OK n -> well_built n = true).
Proof.
  split; [|split; [|split; [|split]]].
  - intros k args kw n H Hw.
    destruct k; cbn [construct] in H;
      unfold Plain_init, Para_init, BlockQuote_init, Emph_init, Strong_init,
        Strikeout_init, Superscript_init, Subscript_init, SmallCaps_init,
        Note_init, Header_init, Div_init, Span_init, Quoted_init, Cite_init,
        Link_init, Image_init, MetaInlines_init, MetaBlocks_init in H;
      constructed H; cbn [well_built];
      repeat match goal with
             | Hi : mapM (fun x => validate_item x _ _) args = OK _ |- _ =>
                 rewrite (validated_children _ _ _ _ Hi Hw); clear Hi
             | Hd : is_dict _ = true |- _ => rewrite Hd; clear Hd
             end;
      try reflexivity.
    (* Cite *)
    match goal with
    | Hc : mapM Citation_of ?cs = OK ?built |- _ =>
        pose proof (mapM_raised_nil Citation_of cs built Citation_of_raises Hc);
        subst cs; injection Hc as <-
    end.
    reflexivity.
  - intros args n H Hw. unfold BulletList_init in H. constructed H.
    cbn [well_built]. eapply validated_rows; eassumption.
  - intros args start style delimiter n H Hw. unfold OrderedList_init in H.
    constructed H. cbn [well_built]. eapply validated_rows; eassumption.
  - intros text identifier classes attributes format n
           [H | [H | [H | [H | [H | H]]]]];
      unfold Str_init, CodeBlock_init, Code_init, RawBlock_init, RawInline_init,
        Math_init in H;
      constructed H; cbn [well_built]; try reflexivity; assumption.
  - intros args n H. destruct args as [|entry args].
    + now injection H as <-.
    + destruct (DefinitionList_init_raises entry args) as (e & E). congruence.
Qed.

(** ** The text kinds *)

Lemma validate_is_str (text : value) :
  validate text None (Some is_str)
  = if is_str text then OK text else Raise (AssertionError (message_value text)).
Proof. unfold validate, assert. destruct (is_str text); reflexivity. Qed.

Lemma validate_set (x : value) (names : list string) :
  hashable x = true ->
  validate x (Some (set_of names)) None
  = if enum_ok names x then OK x else Raise (AssertionError (message_value x)).
Proof.
  intros H. unfold validate, contains, in_set, assert.
  rewrite H, existsb_eq_str. cbn [bind]. destruct (enum_ok names x); reflexivity.
Qed.

Lemma enum_ok_hashable (names : list string) (x : value) :
  enum_ok names x = true -> hashable x = true.
Proof. destruct x; try discriminate; reflexivity. Qed.

Lemma validate_set_OK (x y : value) (names : list string) :
  validate x (Some (set_of names)) None = OK y ->
  enum_ok names x = true /\ y = x.
Proof.
  unfold validate, contains, in_set, assert. rewrite existsb_eq_str.
  destruct (hashable x); [|intros H; discriminate H]. cbn [bind].
  destruct (enum_ok names x); intros H; [|discriminate H].
  split; [reflexivity | now injection H].
Qed.

Lemma text_and_format (mk : value -> value -> value) (names : list string)
      (text format n : value) :
  (t <- validate text None (Some is_str) ;;
   f <- validate format (Some (set_of names)) None ;;
   OK (mk t f)) = OK n
  <-> is_str text = true /\ enum_ok names format = true /\ n = mk text format.
Proof.
  rewrite validate_is_str. split.
  - intros H. destruct (is_str text); [|discriminate H]. cbn [bind] in H.
    apply bind_OK in H as (f & Hf & H).
    apply validate_set_OK in Hf as (Hf & ->). injection H as <-. auto.
  - intros (-> & Hf & ->). cbn [bind].
    now rewrite (validate_set _ _ (enum_ok_hashable _ _ Hf)), Hf.
Qed.

(** X17. The four kinds that hold a text and at most an enumerated
    format are built from exactly the arguments of the right types, and
    hold them unchanged: [Str] needs a string; [RawBlock] and [RawInline]
    need a string and one of the raw format names; [Math] needs a string
    and one of the two math format names. *)
Theorem text_kinds_accept (text format n : value) :
  (Str_init text = OK n <-> is_str text = true /\ n = Str text)
  /\ (RawBlock_init text format = OK n
      <-> is_str text = true /\ enum_ok RAW_FORMATS format = true
          /\ n = RawBlock text format)
  /\ (RawInline_init text format = OK n
      <-> is_str text = true /\ enum_ok RAW_FORMATS format = true
          /\ n = RawInline text format)
  /\ (Math_init text format = OK n
      <-> is_str text = true /\ enum_ok MATH_FORMATS format = true
          /\ n = Math format text).
Proof.
  split; [|split; [|split]].
  - unfold Str_init. rewrite validate_is_str. split.
    + intros H. destruct (is_str text); [|discriminate H].
      injection H as <-. auto.
    + intros (-> & ->). reflexivity.
  - exact (text_and_format RawBlock RAW_FORMATS text format n).
  - exact (text_and_format RawInline RAW_FORMATS text format n).
  - exact (text_and_format (fun t f => Math f t) MATH_FORMATS text format n).
Qed.

(** ** The rows of the two list kinds *)

Lemma row_accepted (obj row : value) (ys items : list value) :
  iter row = OK ys ->
  Forall2 (accepted true) ys items ->
  (ys <- iter row ;;
   r <- mapM (fun x => validate_item x true obj) ys ;;
   OK (VList r)) = OK (VList items).
Proof.
  intros -> H. cbn [bind].
  pose proof (init_items_accepted true obj ys items H) as E.
  rewrite init_items_1 in E. now rewrite E.
Qed.

Lemma rows_rejected (c : Class.t) (rows_before rows_after : list value)
      (row : value) (e : exn) :
  Forall (fun r => exists ys items,
                     iter r = OK ys /\ Forall2 (accepted true) ys items)
         rows_before ->
  (ys <- iter row ;;
   r <- mapM (fun x => validate_item x true (VClass c)) ys ;;
   OK (VList r)) = Raise e ->
  init_items (VClass c) (rows_before ++ row :: rows_after) true 2 = Raise e.
Proof.
  intros Hb Hr. rewrite init_items_2. apply mapM_first_raise; [|exact Hr].
  eapply Forall_impl; [|exact Hb].
  intros r (ys & items & Hys & Hacc). exists (VList items).
  exact (row_accepted (VClass c) r ys items Hys Hacc).
Qed.

(** X22. The children of the two list kinds are checked row by row.
    When the rows before it are accepted, the first child of a row that
    does not resolve to a [Block] makes [BulletList] and [OrderedList]
    raise the assertion error whose message names the list class, the
    expected base [Block] and the class of the child; and an item that is
    not a sequence, such as a block passed without its enclosing list,
    raises the error of the iteration instead.  [OrderedList] validates
    its items before its numbering, so that these errors come first
    whatever the start, the style and the delimiter are. *)
Theorem list_rows_capability_enforced
        (rows_before rows_after : list value) (row : value) :
  Forall (fun r => exists ys items,
                     iter r = OK ys /\ Forall2 (accepted true) ys items)
         rows_before ->
  (forall pre x post x',
      iter row = OK (pre ++ x :: post)%list ->
      Forall (fun p => exists p', accepted true p p') pre ->
      resolve x = OK x' ->
      isinstance_base x' Class.Block = false ->
      BulletList_init (rows_before ++ row :: rows_after)
      = Raise (AssertionError
                 (message_item "BulletList" "Block" (type_name x') x'))
      /\ forall start style delimiter,
          OrderedList_init (rows_before ++ row :: rows_after)
                           start style delimiter
          = Raise (AssertionError
                     (message_item "OrderedList" "Block" (type_name x') x')))
  /\ (forall e,
         iter row = Raise e ->
         BulletList_init (rows_before ++ row :: rows_after) = Raise e
         /\ forall start style delimiter,
             OrderedList_init (rows_before ++ row :: rows_after)
                              start style delimiter = Raise e).
Proof.
  intros Hb. split.
  - intros pre x post x' Hrow Hpre Hx Hi.
    assert (E : forall c,
               init_items (VClass c) (rows_before ++ row :: rows_after) true 2
               = Raise (AssertionError
                          (message_item (Class.name c) "Block" (type_name x') x'))).
    { intros c. apply rows_rejected; [exact Hb|]. rewrite Hrow. cbn [bind].
      pose proof (init_items_rejected true c pre post x x' Hpre Hx Hi) as E.
      rewrite init_items_1 in E. cbn [capability_name] in E. now rewrite E. }
    unfold BulletList_init, OrderedList_init. rewrite !E. split; reflexivity.
  - intros e Hrow.
    assert (E : forall c,
               init_items (VClass c) (rows_before ++ row :: rows_after) true 2
               = Raise e).
    { intros c. apply rows_rejected; [exact Hb|]. now rewrite Hrow. }
    unfold BulletList_init, OrderedList_init. rewrite !E. split; reflexivity.
Qed.

(** A paragraph passed as an item, without its enclosing list; and a row
    whose second child is an inline. *)
Lemma list_rows_capability_enforced_witness :
  BulletList_init [VList [Null]; Para [Str (VStr "a")]]
  = Raise (TypeError "'Para' object is not iterable")
  /\ OrderedList_init [VList [Null]; VList [Null; Str (VStr "a")]]
                      (VInt (-1)) VNone VNone
     = Raise (AssertionError
                (message_item "OrderedList" "Block" "Str" (Str (VStr "a")))).
Proof.
  assert (Hb : Forall (fun r => exists ys items,
                                  iter r = OK ys
                                  /\ Forall2 (accepted true) ys items)
                      [VList [Null]]).
  { constructor; [|constructor]. exists [Null], [Null].
    split; [reflexivity|]. constructor; [|constructor]. split; reflexivity. }
  split.
  - exact (proj1 (proj2 (list_rows_capability_enforced
                           [VList [Null]] [] (Para [Str (VStr "a")]) Hb)
                        (TypeError "'Para' object is not iterable") eq_refl)).
  - refine (proj2 (proj1 (list_rows_capability_enforced
                            [VList [Null]] [] (VList [Null; Str (VStr "a")]) Hb)
                         [Null] (Str (VStr "a")) [] (Str (VStr "a"))
                         eq_refl _ eq_refl eq_refl)
                  (VInt (-1)) VNone VNone).
    constructor; [|constructor]. exists Null. split; reflexivity.
Defined.

(** ** Tags whose content is not read *)

(** X23. For the five kinds without content and for the enumeration
    names, [from_json] does not look at the content: whatever follows the
    tag, the first five decode to the instance of their class and the
    names decode to the tag itself. *)
Theorem content_not_read (tag : string) (c : value) :
  (leaf_tag tag = true ->
   exists k, from_json_tag (VStr tag) c = construct_default k
             /\ Class.name k = tag)
  /\ (existsb (String.eqb tag) SPECIAL_ELEMENTS = true ->
      from_json_tag (VStr tag) c = OK (VStr tag)).
Proof.
  split.
  - unfold leaf_tag. cbn [existsb]. intros H.
    apply orb_true_iff in H as [H | H];
      [apply String.eqb_eq in H; subst tag; now exists Class.Null|].
    apply orb_true_iff in H as [H | H];
      [apply String.eqb_eq in H; subst tag; now exists Class.Space|].
    apply orb_true_iff in H as [H | H];
      [apply String.eqb_eq in H; subst tag; now exists Class.HorizontalRule|].
    apply orb_true_iff in H as [H | H];
      [apply String.eqb_eq in H; subst tag; now exists Class.SoftBreak|].
    apply orb_true_iff in H as [H | H];
      [apply String.eqb_eq in H; subst tag; now exists Class.LineBreak|].
    discriminate H.
  - intros H. pose proof special_tags_decode as Hs.
    rewrite Forall_forall in Hs. apply Hs.
    apply existsb_exists in H as (name & Hin & E).
    apply String.eqb_eq in E. now subst name.
Qed.
